(** * Release build and upload pipeline of the DAppNode SDK

    A shallow embedding of [src/tasks/buildAndUpload.ts] and of the naming
    helpers of [src/params.ts], with the properties the specification states
    about them.

    Layout of the file:
    - JavaScript values, strings and Node's [path.join];
    - [params.ts]: archive names and the release file table;
    - the world the pipeline acts on: file system, release records, console;
    - the collaborators imported from other modules of the repository;
    - [buildAndUpload]: the synchronous prologue and the task list;
    - the properties. *)

From Stdlib Require Import Ascii String ZArith.
From stdpp Require Import base strings list option gmap.

(** ** Strings *)

Module Str.

(** [x.includes(c)] for a single character. *)
Fixpoint has_char (c : ascii) (s : string) : bool :=
  match s with
  | EmptyString => false
  | String a s' => if Ascii.eqb a c then true else has_char c s'
  end.

Definition chars (s : string) : list ascii := list_ascii_of_string s.

(** First and last characters, as [charCodeAt(0)] and
    [charCodeAt(length - 1)] read them. *)
Definition head (s : string) : option ascii :=
  match s with
  | EmptyString => None
  | String a _ => Some a
  end.

Fixpoint last (s : string) : option ascii :=
  match s with
  | EmptyString => None
  | String a EmptyString => Some a
  | String _ s' => last s'
  end.

Definition is_empty (s : string) : bool :=
  match s with
  | EmptyString => true
  | _ => false
  end.

(** [s.split(c)]: the pieces between the occurrences of [c]; never empty. *)
Fixpoint split (c : ascii) (s : string) : list string :=
  match s with
  | EmptyString => [EmptyString]
  | String a s' =>
      if Ascii.eqb a c then EmptyString :: split c s'
      else match split c s' with
           | seg :: rest => String a seg :: rest
           | [] => [String a EmptyString]
           end
  end.

(** [l.join(sep)]. *)
Fixpoint join (sep : string) (l : list string) : string :=
  match l with
  | [] => EmptyString
  | [x] => x
  | x :: rest => x +:+ sep +:+ join sep rest
  end.

End Str.

(** ** Node's [path] module (POSIX flavour)

    [path.join] glues its non-empty arguments with a slash and normalizes the
    result: empty and single-dot segments vanish, a double-dot segment removes
    the segment before it. *)

Module Path.

Definition sep : ascii := "/"%char.
Definition dot : string := ".".
Definition dotdot : string := "..".
Definition slash : string := "/".

Definition isAbsolute (p : string) : bool :=
  match p with
  | String a _ => Ascii.eqb a sep
  | EmptyString => false
  end.

Definition trailingSeparator (p : string) : bool :=
  match Str.last p with
  | Some a => Ascii.eqb a sep
  | None => false
  end.

(** One step of [normalizeString]: [acc] holds the segments kept so far,
    last one first. *)
Definition normStep (allowAboveRoot : bool) (acc : list string) (seg : string)
  : list string :=
  if decide (seg = EmptyString) then acc
  else if decide (seg = dot) then acc
  else if decide (seg = dotdot) then
    match acc with
    | top :: below =>
        if decide (top = dotdot) then dotdot :: acc else below
    | [] => if allowAboveRoot then [dotdot] else []
    end
  else seg :: acc.

Definition normSegments (allowAboveRoot : bool) (segs : list string)
  : list string :=
  rev (fold_left (normStep allowAboveRoot) segs []).

Definition normalize (p : string) : string :=
  if Str.is_empty p then dot
  else
    let abs := isAbsolute p in
    let trail := trailingSeparator p in
    let body := Str.join slash (normSegments (negb abs) (Str.split sep p)) in
    if Str.is_empty body then
      if abs then slash else if trail then dot +:+ slash else dot
    else
      let body := if trail then body +:+ slash else body in
      if abs then slash +:+ body else body.

(** [path.join(a, b)]. *)
Definition join (a b : string) : string :=
  if Str.is_empty a then
    if Str.is_empty b then dot else normalize b
  else if Str.is_empty b then normalize a
  else normalize (a +:+ slash +:+ b).

(** What [join d n] puts in front of a name [n] of one segment. *)
Definition dirPrefix (d : string) : string :=
  if Str.is_empty d then EmptyString
  else
    let abs := isAbsolute d in
    let segs := normSegments (negb abs) (Str.split sep d) in
    (if abs then slash else EmptyString)
    +:+ match segs with
        | [] => EmptyString
        | _ => Str.join slash segs +:+ slash
        end.

(** [path.basename(p)] for a path without trailing separator. *)
Definition basename (p : string) : string :=
  List.last (Str.split sep p) EmptyString.

(** A directory entry name: one non-empty segment, neither [.] nor [..]. *)
Definition entryName (n : string) : Prop :=
  Str.has_char sep n = false ∧ n ≠ EmptyString ∧ n ≠ dot ∧ n ≠ dotdot.

Definition entryNameb (n : string) : bool :=
  negb (Str.has_char sep n)
  && negb (bool_decide (n = EmptyString))
  && negb (bool_decide (n = dot))
  && negb (bool_decide (n = dotdot)).

End Path.


(** ** JavaScript values and exceptions *)

(** The values a property read from the manifest's JSON file can hold.
    Objects and arrays are opaque: the pipeline only tests them for
    truthiness.  An absent property ([undefined]) is [None] in the record
    that holds it. *)
Inductive json : Type :=
| JNull
| JBool (b : bool)
| JNumber (n : Z)
| JString (s : string)
| JObject
| JArray.

(** [if (v)] for a present value. *)
Definition truthy (v : json) : bool :=
  match v with
  | JNull => false
  | JBool b => b
  | JNumber n => negb (Z.eqb n 0)
  | JString s => negb (Str.is_empty s)
  | JObject => true
  | JArray => true
  end.

(** [if (m.prop)] for an optional property. *)
Definition truthyProp (v : option json) : bool :=
  match v with
  | Some x => truthy x
  | None => false
  end.

(** [if (s)] for a value of type [string | undefined]. *)
Definition truthyString (s : option string) : bool :=
  match s with
  | Some x => negb (Str.is_empty x)
  | None => false
  end.

(** [if (b)] for a value of type [boolean | undefined]. *)
Definition truthyFlag (b : option bool) : bool :=
  match b with
  | Some x => x
  | None => false
  end.

(** [a || b] on values of type [string | undefined]. *)
Definition orElse (a b : option string) : option string :=
  if truthyString a then a else b.

(** The exceptions of [params.ts], and the plain [Error] of the runtime and
    of the other modules. *)
Inductive exn : Type :=
| CliError (message : string)
| YargsError (message : string)
| Error (message : string).

Definition isCliError (e : exn) : bool :=
  match e with
  | CliError _ => true
  | _ => false
  end.

(** A computation that returns or throws. *)
Definition Result (A : Type) : Type := exn + A.

Definition andThen {A B} (r : Result A) (k : A → Result B) : Result B :=
  match r with
  | inl e => inl e
  | inr a => k a
  end.

(** ** [params.ts] *)

Record ReleaseFile : Type := {
  required : bool;
  regex : string;
  defaultName : string;
  id : string
}.

Module releaseFiles.
Definition manifest : ReleaseFile :=
  {| required := true; regex := "/dappnode_package.*\.json$/";
     defaultName := "dappnode_package.json"; id := "manifest" |}.
Definition compose : ReleaseFile :=
  {| required := true; regex := "/compose.*\.yml$/";
     defaultName := "docker-compose.yml"; id := "compose" |}.
Definition avatar : ReleaseFile :=
  {| required := true; regex := "/avatar.*\.png$/";
     defaultName := "avatar.png"; id := "avatar" |}.
Definition setupWizard : ReleaseFile :=
  {| required := false; regex := "/setup-wizard\..*(json|yaml|yml)$/";
     defaultName := "setup-wizard.json"; id := "setupWizard" |}.
Definition setupSchema : ReleaseFile :=
  {| required := false; regex := "/setup\..*\.json$/";
     defaultName := "setup.schema.json"; id := "setupSchema" |}.
Definition setupTarget : ReleaseFile :=
  {| required := false; regex := "/setup-target\..*json$/";
     defaultName := "setup-target.json"; id := "setupTarget" |}.
Definition setupUiJson : ReleaseFile :=
  {| required := false; regex := "/setup-ui\..*json$/";
     defaultName := "setup-ui.json"; id := "setupUiJson" |}.
Definition disclaimer : ReleaseFile :=
  {| required := false; regex := "/disclaimer\.md$/i";
     defaultName := "disclaimer.md"; id := "disclaimer" |}.
Definition gettingStarted : ReleaseFile :=
  {| required := false; regex := "/getting.*started\.md$/i";
     defaultName := "getting-started.md"; id := "gettingStarted" |}.
End releaseFiles.

(** [arch.replace(/\//g, "-")] *)
Fixpoint getArchTag (arch : string) : string :=
  match arch with
  | EmptyString => EmptyString
  | String c rest =>
      String (if Ascii.eqb c "/" then "-"%char else c) (getArchTag rest)
  end.

(** [`${name}_${version}_${getArchTag(arch)}.txz`] *)
Definition getImagePath (name version arch : string) : string :=
  name +:+ "_" +:+ version +:+ "_" +:+ getArchTag arch +:+ ".txz".

(** [`${name}_${version}.tar.xz`] *)
Definition getLegacyImagePath (name version : string) : string :=
  name +:+ "_" +:+ version +:+ ".tar.xz".

(** [/[A-Z]/.test(s)] *)
Definition isUpperAZ (c : ascii) : bool :=
  (65 <=? nat_of_ascii c)%nat && (nat_of_ascii c <=? 90)%nat.

Fixpoint testUpperAZ (s : string) : bool :=
  match s with
  | EmptyString => false
  | String c rest => if isUpperAZ c then true else testUpperAZ rest
  end.

(** ** The data the pipeline handles *)

Module Manifest.
(** The manifest, [dappnode_package.json], as far as the pipeline reads it. *)
Record t : Type := {
  name : string;
  version : string;
  image : option json;
  avatar : option json;
  architectures : option (list string);
  upstreamVersion : option string
}.

(** [manifest.upstreamVersion = v] *)
Definition setUpstreamVersion (v : string) (m : t) : t :=
  {| name := name m; version := version m; image := image m;
     avatar := avatar m; architectures := architectures m;
     upstreamVersion := Some v |}.
End Manifest.

(** The argument of [buildAndUpload]. *)
Record Options : Type := {
  buildDir : string;
  ipfsProvider : string;
  swarmProvider : string;
  userTimeout : string;
  uploadToSwarm : bool;
  skipSave : option bool;
  skipUpload : option bool;
  dir : string
}.

(** [ListrContextBuildAndPublish], as far as these tasks use it. *)
Record Ctx : Type := {
  releaseHash : option string;
  releaseMultiHash : option string
}.

Definition emptyCtx : Ctx :=
  {| releaseHash := None; releaseMultiHash := None |}.

Module Build.
(** The argument of [buildWithBuildx] and [buildWithCompose]; the latter
    takes no architecture. *)
Record Args : Type := {
  architecture : option string;
  images : list string;
  composePath : string;
  buildTimeout : Z;
  skipSave : option bool;
  destPath : string
}.
End Build.

Module Record_.
(** The argument of [addReleaseRecord]. *)
Record Args : Type := {
  dir : string;
  version : string;
  hash : option string;
  to : string
}.
End Record_.

(** ** The world: file system, release record store, console *)

Inductive node : Type :=
| File (content : string)
| Directory.

(** Files are found by the spelling of their path; every path the pipeline
    builds comes out of [path.join], hence normalized.  [console] holds what
    [console.error] was given, [built] the destinations of the builds the
    container builders have completed, [output] the values [task.output] was
    set to, each oldest first. *)
Record World : Type := {
  files : gmap string node;
  releaseRecords : list Record_.Args;
  console : list (string * exn);
  built : list string;
  output : list string
}.

Definition setFiles (f : gmap string node) (w : World) : World :=
  {| files := f; releaseRecords := releaseRecords w;
     console := console w; built := built w; output := output w |}.

Definition addRecord (r : Record_.Args) (w : World) : World :=
  {| files := files w; releaseRecords := releaseRecords w ++ [r];
     console := console w; built := built w; output := output w |}.

Definition addConsole (line : string * exn) (w : World) : World :=
  {| files := files w; releaseRecords := releaseRecords w;
     console := console w ++ [line]; built := built w; output := output w |}.

Definition addBuilt (p : string) (w : World) : World :=
  {| files := files w; releaseRecords := releaseRecords w;
     console := console w; built := built w ++ [p]; output := output w |}.

(** [task.output = message] *)
Definition setOutput (message : string) (w : World) : World :=
  {| files := files w; releaseRecords := releaseRecords w;
     console := console w; built := built w;
     output := output w ++ [message] |}.

(** A task body: it runs on the world and returns or throws; what it did
    before throwing stays done. *)
Definition M (A : Type) : Type := World → Result A * World.

#[global] Instance M_ret : MRet M := λ A a w, (inr a, w).

#[global] Instance M_bind : MBind M := λ A B k m w,
  match m w with
  | (inl e, w') => (inl e, w')
  | (inr a, w') => k a w'
  end.

Definition throw {A} (e : exn) : M A := λ w, (inl e, w).

Definition liftResult {A} (r : Result A) : M A := λ w, (r, w).

Definition getFiles : M (gmap string node) := λ w, (inr (files w), w).

Definition modify (f : World → World) : M unit := λ w, (inr tt, f w).

(** [try { body } catch (e) { handler(e) }] *)
Definition tryCatch {A} (body : M A) (handler : exn → M A) : M A := λ w,
  match body w with
  | (inl e, w') => handler e w'
  | (inr a, w') => (inr a, w')
  end.

(** [for (const x of l) body(x)] *)
Fixpoint forOf {A} (l : list A) (body : A → M unit) : M unit :=
  match l with
  | [] => mret tt
  | x :: rest => body x ;; forOf rest body
  end.

(** ** Node's [fs] module, synchronous calls *)

Module fs.

(** The key under which a directory itself is stored: its normalized path
    without trailing separator. *)
Definition dirKey (d : string) : string := Path.join d Path.dot.

(** The key of the directory a path is an entry of: [path.join(p, "..")]. *)
Definition parentKey (p : string) : string := Path.join p Path.dotdot.

(** The directories that are there whatever the store holds: the working
    directory, the root, and the directories above the working directory. *)
Definition implicitDir (k : string) : bool :=
  bool_decide (k = Path.dot) || bool_decide (k = Path.slash)
  || forallb (λ seg, bool_decide (seg = Path.dotdot)) (Str.split Path.sep k).

Definition isDirectory (fsys : gmap string node) (k : string) : bool :=
  implicitDir k
  || match fsys !! k with
     | Some Directory => true
     | _ => false
     end.

Definition isFileb (fsys : gmap string node) (k : string) : bool :=
  match fsys !! k with
  | Some (File _) => true
  | _ => false
  end.

(** The keys of the directories above [d], outermost first: for
    [pkg/build_1.0.0], the key [pkg]. *)
Definition properAncestors (d : string) : list string :=
  let abs := Path.isAbsolute d in
  let segs := Path.normSegments (negb abs) (Str.split Path.sep d) in
  (λ i, (if abs then Path.slash else EmptyString)
        +:+ Str.join Path.slash (take i segs))
  <$> seq 1 (length segs - 1).

(** The store once [d] and the directories above it are directories. *)
Definition madeDirs (d : string) (fsys : gmap string node)
  : gmap string node :=
  <[dirKey d := Directory]>
    (foldr (λ k m, <[k := Directory]> m) fsys (properAncestors d)).

(** [fs.mkdirSync(d, { recursive: true })]: the missing directories above
    [d] are made as well, and an existing directory is fine; an error on the
    empty path, under a regular file and on a regular file. *)
Definition mkdirSync (d : string) : M unit :=
  fsys ← getFiles;
  if Str.is_empty d
  then throw (Error "ENOENT: no such file or directory, mkdir")
  else if existsb (isFileb fsys) (properAncestors d)
  then throw (Error "ENOTDIR: not a directory, mkdir")
  else if isFileb fsys (dirKey d)
  then throw (Error "EEXIST: file already exists, mkdir")
  else modify (setFiles (madeDirs d fsys)).

(** The entries of [d]: the names [n] with something stored at
    [path.join(d, n)]. *)
Definition entries (d : string) (fsys : gmap string node) : list string :=
  omap (λ k, let n := Path.basename k in
             if Path.entryNameb n && bool_decide (Path.join d n = k)
             then Some n else None)
       (map_to_list fsys).*1.

(** [fs.readdirSync(d)] *)
Definition readdirSync (d : string) : M (list string) :=
  fsys ← getFiles;
  if Str.is_empty d
  then throw (Error "ENOENT: no such file or directory, scandir")
  else
    match fsys !! dirKey d with
    | Some Directory => mret (entries d fsys)
    | Some (File _) => throw (Error "ENOTDIR: not a directory, scandir")
    | None =>
        if implicitDir (dirKey d) then mret (entries d fsys)
        else throw (Error "ENOENT: no such file or directory, scandir")
    end.

(** [fs.unlinkSync(p)] *)
Definition unlinkSync (p : string) : M unit :=
  fsys ← getFiles;
  match fsys !! p with
  | Some (File _) => modify (setFiles (delete p fsys))
  | Some Directory => throw (Error "EISDIR: illegal operation on a directory, unlink")
  | None => throw (Error "ENOENT: no such file or directory, unlink")
  end.

(** [fs.existsSync(p)] *)
Definition existsSync (p : string) : M bool :=
  fsys ← getFiles; mret (bool_decide (is_Some (fsys !! p)) || implicitDir p).

(** A file can be opened for writing at [p]: [p] is not the empty path and
    not a directory, and the directory it is an entry of exists. *)
Definition writable (fsys : gmap string node) (p : string) : bool :=
  negb (Str.is_empty p)
  && negb (Path.trailingSeparator p || isDirectory fsys p)
  && isDirectory fsys (parentKey p).

(** The error of [open] when it cannot. *)
Definition openError (fsys : gmap string node) (p : string) : exn :=
  Error
    (if Str.is_empty p then "ENOENT: no such file or directory, open"
     else if Path.trailingSeparator p || isDirectory fsys p
     then "EISDIR: illegal operation on a directory, open"
     else if isFileb fsys (parentKey p)
     then "ENOTDIR: not a directory, open"
     else "ENOENT: no such file or directory, open").

(** [fs.writeFileSync(p, data)]: the file is made or overwritten. *)
Definition writeFileSync (p data : string) : M unit :=
  fsys ← getFiles;
  if writable fsys p then modify (setFiles (<[p := File data]> fsys))
  else throw (openError fsys p).

(** [fs.copyFileSync(src, dest)]: [dest] is overwritten when it exists, and
    written as [fs.writeFileSync] writes. *)
Definition copyFileSync (src dest : string) : M unit :=
  fsys ← getFiles;
  match fsys !! src with
  | Some (File data) => writeFileSync dest data
  | Some Directory => throw (Error "EISDIR: illegal operation on a directory, copyfile")
  | None => throw (Error "ENOENT: no such file or directory, copyfile")
  end.

End fs.

(** What is left of the files [fsys] once the entries [l] of the directory
    [d] that are not in [keep] have been unlinked. *)
Definition swept (d : string) (keep l : list string)
  (fsys : gmap string node) : gmap string node :=
  foldl (λ m f, if bool_decide (f ∈ keep) then m
                else delete (Path.join d f) m) fsys l.

Definition isFile (fsys : gmap string node) (p : string) : Prop :=
  ∃ data, fsys !! p = Some (File data).

(** Nothing is in the way of [fs.mkdirSync(d, { recursive: true })]: [d] is
    not the empty path, and neither [d] nor a directory above it is a regular
    file. *)
Definition mkdirPossible (d : string) (fsys : gmap string node) : Prop :=
  d ≠ EmptyString
  ∧ ¬ isFile fsys (fs.dirKey d)
  ∧ ∀ k, k ∈ fs.properAncestors d → ¬ isFile fsys k.

(** How a world may differ from an earlier one. *)
Definition sameRecords (w w' : World) : Prop :=
  releaseRecords w' = releaseRecords w.

Definition sameConsole (w w' : World) : Prop := console w' = console w.

Definition sameBuilt (w w' : World) : Prop := built w' = built w.

Definition sameFiles (w w' : World) : Prop := files w' = files w.

Definition onlyFiles (w w' : World) : Prop :=
  sameRecords w w' ∧ sameConsole w w' ∧ sameBuilt w w'.

(** No regular file is lost. *)
Definition growing (w w' : World) : Prop :=
  ∀ p, isFile (files w) p → isFile (files w') p.

(** A body that, when it returns, returns [ctx]. *)
Definition yields (ctx : Ctx) (m : M Ctx) : Prop :=
  ∀ w ctx' w', m w = (inr ctx', w') → ctx' = ctx.

(** Whatever the body does, returning or throwing, the world it leaves is
    related to the one it found. *)
Definition respects (R : relation World) {A} (m : M A) : Prop :=
  ∀ w r w', m w = (r, w') → R w w'.

(** ** Listr *)

(** A task of a Listr list: [skip] holds what the task's [skip] function
    returns, [None] when the task has none. *)
Record ListrTask : Type := {
  title : string;
  skip : option bool;
  task : Ctx → M Ctx
}.

(** [new Listr(tasks).run(ctx)]: the tasks run in order on the shared
    context, a skipped task does nothing, the first exception ends the run. *)
Fixpoint runTasks (tasks : list ListrTask) (ctx : Ctx) : M Ctx :=
  match tasks with
  | [] => mret ctx
  | t :: rest =>
      if truthyFlag (skip t) then runTasks rest ctx
      else ctx' ← task t ctx; runTasks rest ctx'
  end.

(** ** The collaborators

    [buildAndUpload] imports these from modules that are not part of the
    sources at hand.  Each is taken as a parameter: a function of its
    arguments that returns, or throws where the original may.  The composition
    document is an abstract type, [Compose]; so are the numbers the upload
    backends report their progress with, [Percent]. *)
Class Collaborators : Type := {
  Compose : Type;
  Percent : Type;
  (* utils/timeout *)
  parseTimeout : string → Result Z;
  (* utils/manifest *)
  readManifest : string → Result Manifest.t;
  manifestPath : string → string;
  stringifyManifest : Manifest.t → string;
  (* utils/validateManifest *)
  validateManifest : Manifest.t → bool → Result unit;
  (* utils/verifyAvatar *)
  verifyAvatar : string → Result unit;
  (* utils/getAssetPath *)
  getAssetPath : ReleaseFile → string → option string;
  getAssetPathRequired : ReleaseFile → string → Result string;
  (* utils/compose *)
  getComposePath : string → string;
  readCompose : string → Result Compose;
  stringifyCompose : Compose → string;
  parseComposeUpstreamVersion : Compose → option string;
  updateComposeImageTags : Compose → Manifest.t → bool → Compose;
  getComposePackageImages : Compose → Manifest.t → list string;
  (* utils/parseArchitectures *)
  parseArchitectures : list string → Result (list string);
  (* process.env.UPSTREAM_VERSION *)
  env_UPSTREAM_VERSION : option string;
  (* the container builder behind tasks/buildWithBuildx, and the
     composition's own build behind tasks/buildWithCompose: the bytes of the
     image archive, or the failure *)
  containerBuilder : Build.Args → Result string;
  composeBuilder : Build.Args → Result string;
  (* utils/swarmAddDirFromFs and utils/ipfs/ipfsAddFromFs: the content
     address of the directory, or the failure; and the fractions they hand to
     their progress callback on the way *)
  swarmAddDirFromFs : string → string → gmap string node → Result string;
  ipfsAddFromFs : string → string → gmap string node → Result string;
  swarmProgress : string → string → gmap string node → list Percent;
  ipfsProgress : string → string → gmap string node → list Percent;
  (* the runtime's arithmetic on numbers: [(percent * 100).toFixed(2)] *)
  timesHundredToFixed2 : Percent → string;
  (* the store behind utils/releaseRecord *)
  releaseRecordStore : Record_.Args → Result unit;
  (* utils/cache *)
  pruneCache : Result unit
}.

(** The same collaborators with another outcome of [pruneCache]. *)
Definition withPruneCache (r : Result unit) (C : Collaborators)
  : Collaborators :=
  {| Compose := @Compose C;
     Percent := @Percent C;
     parseTimeout := @parseTimeout C;
     readManifest := @readManifest C;
     manifestPath := @manifestPath C;
     stringifyManifest := @stringifyManifest C;
     validateManifest := @validateManifest C;
     verifyAvatar := @verifyAvatar C;
     getAssetPath := @getAssetPath C;
     getAssetPathRequired := @getAssetPathRequired C;
     getComposePath := @getComposePath C;
     readCompose := @readCompose C;
     stringifyCompose := @stringifyCompose C;
     parseComposeUpstreamVersion := @parseComposeUpstreamVersion C;
     updateComposeImageTags := @updateComposeImageTags C;
     getComposePackageImages := @getComposePackageImages C;
     parseArchitectures := @parseArchitectures C;
     env_UPSTREAM_VERSION := @env_UPSTREAM_VERSION C;
     containerBuilder := @containerBuilder C;
     composeBuilder := @composeBuilder C;
     swarmAddDirFromFs := @swarmAddDirFromFs C;
     ipfsAddFromFs := @ipfsAddFromFs C;
     swarmProgress := @swarmProgress C;
     ipfsProgress := @ipfsProgress C;
     timesHundredToFixed2 := @timesHundredToFixed2 C;
     releaseRecordStore := @releaseRecordStore C;
     pruneCache := r |}.

(** ** [tasks/buildAndUpload.ts] *)

Definition imageMessage : string :=
"
DAppNode packages expect all docker related data to be contained only
in the docker-compose.yml. Please translate the settings in 'manifest.image'
to your package's docker-compose.yml and then delete the 'manifest.image' prop.
".

Definition avatarMessage : string :=
"
DAppNode packages expect the avatar to be located at the root folder as a file
and not declared in the manifest. Please add your package avatar to this directory
as " +:+ defaultName releaseFiles.avatar +:+ " and then remove the 'manifest.avatar' property.
".

Definition lowercaseMessage : string :=
  "Package name in the manifest must be lowercase".

(** What the synchronous part of [buildAndUpload] computes and the tasks
    capture. *)
Record EnvOf (Compose : Type) : Type := {
  buildTimeout : Z;
  manifest : Manifest.t;
  name : string;
  version : string;
  composePath : string;
  composeForBuild : Compose;
  composeForRelease : Compose;
  images : list string;
  architectures : option (list string);
  imagePathAmd : string;
  imagePathLegacy : string;
  avatarBuildPath : string;
  avatarRootPath : string
}.

Arguments Build_EnvOf {Compose}.
Arguments buildTimeout {Compose} _.
Arguments manifest {Compose} _.
Arguments name {Compose} _.
Arguments version {Compose} _.
Arguments composePath {Compose} _.
Arguments composeForBuild {Compose} _.
Arguments composeForRelease {Compose} _.
Arguments images {Compose} _.
Arguments architectures {Compose} _.
Arguments imagePathAmd {Compose} _.
Arguments imagePathLegacy {Compose} _.
Arguments avatarBuildPath {Compose} _.
Arguments avatarRootPath {Compose} _.

Abbreviation Env := (EnvOf Compose).

Section BuildAndUpload.
Context {C : Collaborators}.

(** Modelled from the spec: [writeManifest] of utils/manifest, which is not
    part of the sources at hand; it persists the manifest into the given
    directory. *)
Definition writeManifest (d : string) (m : Manifest.t) : M unit :=
  fs.writeFileSync (manifestPath d) (stringifyManifest m).

(** Modelled from the spec: [writeCompose] of utils/compose, which is not
    part of the sources at hand; it writes the composition into the given
    directory. *)
Definition writeCompose (d : string) (c : Compose) : M unit :=
  fs.writeFileSync (getComposePath d) (stringifyCompose c).

(** Modelled from the spec: [addReleaseRecord] of utils/releaseRecord, which
    is not part of the sources at hand; it persists the version, the content
    address and the backend into the release record store of the package
    directory, or signals a write failure. *)
Definition addReleaseRecord (r : Record_.Args) : M unit :=
  liftResult (releaseRecordStore r) ;; modify (addRecord r).

(** [percentToMessage], lines 33 and 34. *)
Definition percentToMessage (percent : Percent) : string :=
  "Uploading... " +:+ timesHundredToFixed2 percent +:+ "%".

(** The world once the upload has reported the fractions [l]. *)
Definition reported (l : list Percent) (w : World) : World :=
  foldl (λ w percent, setOutput (percentToMessage percent) w) w l.

(** Modelled from the spec: what the two builders, which are not part of the
    sources at hand, do with the [builder] behind them.  The builder is run
    and signals failure or timeout; the packed image archive goes to the
    destination path (section 6), where an archive found from an earlier run
    is reused and not written again (sections 7 and 8).  With [skipSave],
    the option the source hands to both builders, nothing is saved. *)
Definition runBuilder (builder : Build.Args → Result string)
  (args : Build.Args) : M unit :=
  data ← liftResult (builder args);
  (if truthyFlag (Build.skipSave args) then mret tt
   else
     fsys ← getFiles;
     if fs.isFileb fsys (Build.destPath args) then mret tt
     else fs.writeFileSync (Build.destPath args) data) ;;
  modify (addBuilt (Build.destPath args)).

(** Modelled from the spec: [buildWithBuildx] of tasks/buildWithBuildx, which
    is not part of the sources at hand; it runs the container builder,
    constrained to the one architecture of its argument. *)
Definition buildWithBuildx (args : Build.Args) : list ListrTask :=
  [ {| title := "Build and save";
       skip := None;
       task := λ ctx, runBuilder containerBuilder args ;; mret ctx |} ].

(** Modelled from the spec: [buildWithCompose] of tasks/buildWithCompose,
    which is not part of the sources at hand; it runs the build mechanism of
    the composition itself, for the default architecture. *)
Definition buildWithCompose (args : Build.Args) : list ListrTask :=
  [ {| title := "Build and save";
       skip := None;
       task := λ ctx, runBuilder composeBuilder args ;; mret ctx |} ].


(** Lines 55 to 109: everything before [return]. *)
Definition prologue (o : Options) : Result Env :=
  andThen (parseTimeout (userTimeout o)) (λ buildTimeout,
  andThen (readManifest (dir o)) (λ manifest,
  if truthyProp (Manifest.image manifest) then inl (CliError imageMessage)
  else if truthyProp (Manifest.avatar manifest)
  then inl (CliError avatarMessage)
  else
  let name := Manifest.name manifest in
  let version := Manifest.version manifest in
  if testUpperAZ name then inl (CliError lowercaseMessage)
  else
  let composePath := getComposePath (dir o) in
  andThen (readCompose (dir o)) (λ composeForDev,
  let composeForBuild := updateComposeImageTags composeForDev manifest false in
  let composeForRelease := updateComposeImageTags composeForDev manifest true in
  let images := getComposePackageImages composeForDev manifest in
  andThen (match Manifest.architectures manifest with
           | Some declared => andThen (parseArchitectures declared)
                                      (λ archs, inr (Some archs))
           | None => inr None
           end) (λ architectures,
  let imagePathAmd :=
    Path.join (buildDir o) (getImagePath name version "linux/amd64") in
  let imagePathLegacy :=
    Path.join (buildDir o) (getLegacyImagePath name version) in
  let avatarBuildPath := Path.join (buildDir o) "avatar.png" in
  andThen (getAssetPathRequired releaseFiles.avatar (dir o)) (λ avatarRootPath,
  andThen (if Str.is_empty avatarRootPath then inr tt
           else verifyAvatar avatarRootPath) (λ _,
  let upstreamVersion :=
    orElse (parseComposeUpstreamVersion composeForDev) env_UPSTREAM_VERSION in
  let manifest :=
    match upstreamVersion with
    | Some v => if truthyString upstreamVersion
                then Manifest.setUpstreamVersion v manifest else manifest
    | None => manifest
    end in
  inr {| buildTimeout := buildTimeout; manifest := manifest; name := name;
         version := version; composePath := composePath;
         composeForBuild := composeForBuild;
         composeForRelease := composeForRelease; images := images;
         architectures := architectures; imagePathAmd := imagePathAmd;
         imagePathLegacy := imagePathLegacy;
         avatarBuildPath := avatarBuildPath;
         avatarRootPath := avatarRootPath |})))))).

Variable o : Options.
Variable E : Env.

(** The image archives the clean-up keeps. *)
Definition imagePaths : list string :=
  match architectures E with
  | Some archs => map (λ arch, getImagePath (name E) (version E) arch) archs
  | None => [imagePathAmd E]
  end.

Definition createReleaseDir : ListrTask :=
  {| title := "Create release dir";
     skip := None;
     task := λ ctx,
       fs.mkdirSync (buildDir o) ;;
       buildFiles ← fs.readdirSync (buildDir o);
       forOf buildFiles (λ filepath,
         if bool_decide (filepath ∈ imagePaths) then mret tt
         else fs.unlinkSync (Path.join (buildDir o) filepath)) ;;
       mret ctx |}.

Definition additionalFiles : list ReleaseFile :=
  [ releaseFiles.setupWizard; releaseFiles.setupSchema;
    releaseFiles.setupTarget; releaseFiles.setupUiJson;
    releaseFiles.disclaimer; releaseFiles.gettingStarted ].

Definition copyFilesAndValidate : ListrTask :=
  {| title := "Copy files and validate";
     skip := None;
     task := λ ctx,
       writeCompose (dir o) (composeForBuild E) ;;
       fs.copyFileSync (avatarRootPath E) (avatarBuildPath E) ;;
       writeCompose (buildDir o) (composeForRelease E) ;;
       writeManifest (buildDir o) (manifest E) ;;
       liftResult (validateManifest (manifest E) true) ;;
       forOf additionalFiles (λ releaseFile,
         match getAssetPath releaseFile (dir o) with
         | Some filePath =>
             if Str.is_empty filePath then mret tt
             else fs.copyFileSync filePath
                    (Path.join (buildDir o) (defaultName releaseFile))
         | None => mret tt
         end) ;;
       mret ctx |}.

Definition buildArchitecture (arch : string) : ListrTask :=
  {| title := "Build architecture " +:+ arch;
     skip := None;
     task := runTasks (buildWithBuildx
       {| Build.architecture := Some arch;
          Build.images := images E;
          Build.composePath := composePath E;
          Build.buildTimeout := buildTimeout E;
          Build.skipSave := skipSave o;
          Build.destPath :=
            Path.join (buildDir o) (getImagePath (name E) (version E) arch)
       |}) |}.

Definition buildTasks : list ListrTask :=
  match architectures E with
  | Some archs => map buildArchitecture archs
  | None => buildWithCompose
      {| Build.architecture := None;
         Build.images := images E;
         Build.composePath := composePath E;
         Build.buildTimeout := buildTimeout E;
         Build.skipSave := skipSave o;
         Build.destPath := imagePathAmd E |}
  end.

Definition setReleaseHash (h : string) (ctx : Ctx) : Ctx :=
  {| releaseHash := Some h; releaseMultiHash := releaseMultiHash ctx |}.

Definition uploadToSwarmTask : ListrTask :=
  {| title := "Upload release to Swarm";
     skip := skipUpload o;
     task := λ ctx,
       fsys ← getFiles;
       forOf (swarmProgress (buildDir o) (swarmProvider o) fsys)
         (λ percent, modify (setOutput (percentToMessage percent))) ;;
       h ← liftResult (swarmAddDirFromFs (buildDir o) (swarmProvider o) fsys);
       mret (setReleaseHash h ctx) |}.

Definition uploadToIpfsTask : ListrTask :=
  {| title := "Upload release to IPFS";
     skip := skipUpload o;
     task := λ ctx,
       amd ← fs.existsSync (imagePathAmd E);
       (if amd : bool then fs.copyFileSync (imagePathAmd E) (imagePathLegacy E)
        else mret tt) ;;
       fsys ← getFiles;
       forOf (ipfsProgress (buildDir o) (ipfsProvider o) fsys)
         (λ percent, modify (setOutput (percentToMessage percent))) ;;
       h ← liftResult (ipfsAddFromFs (buildDir o) (ipfsProvider o) fsys);
       mret (setReleaseHash h ctx) |}.

Definition uploadTask : ListrTask :=
  if uploadToSwarm o then uploadToSwarmTask else uploadToIpfsTask.

Definition saveUploadResults : ListrTask :=
  {| title := "Save upload results";
     skip := None;
     task := λ ctx,
       addReleaseRecord
         {| Record_.dir := dir o;
            Record_.version := version E;
            Record_.hash := releaseHash ctx;
            Record_.to := if uploadToSwarm o then swarmProvider o
                          else ipfsProvider o |} ;;
       let ctx := {| releaseHash := releaseHash ctx;
                     releaseMultiHash := releaseHash ctx |} in
       tryCatch (liftResult pruneCache)
                (λ e, modify (addConsole ("Error on pruneCache", e))) ;;
       mret ctx |}.

(** Lines 111 to 242: the returned list. *)
Definition tasks : list ListrTask :=
  [createReleaseDir; copyFilesAndValidate]
  ++ buildTasks
  ++ [uploadTask; saveUploadResults].

End BuildAndUpload.

(** Where the archive of an architecture goes. *)
Definition archivePath `{C : Collaborators} (o : Options) (E : Env)
  (arch : string) : string :=
  Path.join (buildDir o) (getImagePath (name E) (version E) arch).

(** The destinations of the build tasks, in order. *)
Definition buildDestinations `{C : Collaborators} (o : Options) (E : Env)
  : list string :=
  match architectures E with
  | Some archs => map (archivePath o E) archs
  | None => [imagePathAmd E]
  end.

(** The record "Save upload results" hands to [addReleaseRecord]. *)
Definition recordOf `{C : Collaborators} (o : Options) (E : Env) (ctx : Ctx)
  : Record_.Args :=
  {| Record_.dir := dir o;
     Record_.version := version E;
     Record_.hash := releaseHash ctx;
     Record_.to := if uploadToSwarm o then swarmProvider o
                   else ipfsProvider o |}.

(** The files "Create release dir" leaves: the directory exists, with the
    directories above it, and its entries outside [imagePaths] are
    unlinked. *)
Definition cleaned `{C : Collaborators} (o : Options) (E : Env)
  (fsys : gmap string node) : gmap string node :=
  let made := fs.madeDirs (buildDir o) fsys in
  swept (buildDir o) (imagePaths E) (fs.entries (buildDir o) made) made.

Definition buildAndUpload `{C : Collaborators} (o : Options)
  : Result (list ListrTask) :=
  andThen (prologue o) (λ E, inr (tasks o E)).

(** [new Listr(buildAndUpload(o)).run()], on a fresh context. *)
Definition runPipeline `{C : Collaborators} (o : Options) : M Ctx := λ w,
  match buildAndUpload o with
  | inl e => (inl e, w)
  | inr ts => runTasks ts emptyCtx w
  end.

(** ** A package directory for the examples

    Collaborators under which everything succeeds: the manifest is given,
    the avatar sits at [avatar.png] of the package directory, the parser of
    architectures returns the list it is given, builds and uploads succeed. *)
Definition exampleCollaborators (m : Manifest.t)
  (composeUpstream envUpstream : option string) (prune : Result unit)
  : Collaborators :=
  {| Compose := string;
     Percent := nat;
     parseTimeout := λ _, inr 3600000%Z;
     readManifest := λ _, inr m;
     manifestPath := λ d, Path.join d (defaultName releaseFiles.manifest);
     stringifyManifest := λ m, Manifest.name m +:+ "@" +:+ Manifest.version m;
     validateManifest := λ _ _, inr tt;
     verifyAvatar := λ _, inr tt;
     getAssetPath := λ _ _, None;
     getAssetPathRequired := λ f d, inr (Path.join d (defaultName f));
     getComposePath := λ d, Path.join d (defaultName releaseFiles.compose);
     readCompose := λ _, inr "services";
     stringifyCompose := λ c, c;
     parseComposeUpstreamVersion := λ _, composeUpstream;
     updateComposeImageTags := λ c _ _, c;
     getComposePackageImages := λ _ _, [];
     parseArchitectures := λ l, inr l;
     env_UPSTREAM_VERSION := envUpstream;
     containerBuilder := λ a, inr ("image for " +:+ Build.destPath a);
     composeBuilder := λ a, inr ("composed image for " +:+ Build.destPath a);
     swarmAddDirFromFs := λ _ _ _, inr "bzz-hash";
     ipfsAddFromFs := λ _ _ _, inr "/ipfs/Qm-hash";
     swarmProgress := λ _ _ _, [0; 1];
     ipfsProgress := λ _ _ _, [0; 1];
     timesHundredToFixed2 := λ n, if n is 0 then "0.00" else "100.00";
     releaseRecordStore := λ _, inr tt;
     pruneCache := prune |}.

Definition exampleManifest (archs : option (list string)) : Manifest.t :=
  {| Manifest.name := "foo"; Manifest.version := "1.0.0";
     Manifest.image := None; Manifest.avatar := None;
     Manifest.architectures := archs; Manifest.upstreamVersion := None |}.

Definition exampleOptions (bd : string) (swarm : bool) (skipUp : option bool)
  : Options :=
  {| buildDir := bd; ipfsProvider := "ipfs-provider";
     swarmProvider := "swarm-provider"; userTimeout := "60min";
     uploadToSwarm := swarm; skipSave := None; skipUpload := skipUp;
     dir := "pkg" |}.

(** The package directory with its avatar and the given files, and with the
    directories these files are in. *)
Definition exampleWorld (fsys : list (string * node)) : World :=
  {| files :=
       list_to_map
         (("pkg/avatar.png", File "png") :: fsys
          ++ ("pkg", Directory)
             :: ((λ k, (k, Directory)) <$> mjoin (fs.properAncestors <$> fsys.*1)));
     releaseRecords := []; console := []; built := []; output := [] |}.

(** What an observer sees of a run: the outcome, the files at the given
    paths, the records, the console and the archives built. *)
Definition observe (paths : list string) (r : Result Ctx * World)
  : Result Ctx * list (option node) * list Record_.Args
    * list (string * exn) * list string :=
  (r.1, (λ p, files r.2 !! p) <$> paths, releaseRecords r.2, console r.2,
   built r.2).

(** ** More of [params.ts]: container domains and image tags *)

(** [getContainerDomain({ dnpName, serviceName })] *)
Definition getContainerDomain (dnpName serviceName : string) : string :=
  if Str.is_empty serviceName || bool_decide (serviceName = dnpName)
  then dnpName
  else Str.join "." [serviceName; dnpName].

(** [getImageTag({ dnpName, serviceName, version })] *)
Definition getImageTag (dnpName serviceName version : string) : string :=
  Str.join ":" [getContainerDomain dnpName serviceName; version].

(** ** Searching strings *)

Module Substr.

(** [s.startsWith(p)] *)
Fixpoint prefix (p s : string) : bool :=
  match p, s with
  | EmptyString, _ => true
  | String a p', String b s' => Ascii.eqb a b && prefix p' s'
  | String _ _, EmptyString => false
  end.

(** [s.includes(sub)] *)
Fixpoint includes (sub s : string) : bool :=
  prefix sub s
  || match s with
     | EmptyString => false
     | String _ s' => includes sub s'
     end.

(** The scan of [s.split(sep)] for a non-empty [sep]: [skip] characters of
    a separator just met are still to pass. *)
Fixpoint splitGo (sep : string) (skip : nat) (s : string) : list string :=
  match s with
  | EmptyString => [EmptyString]
  | String c s' =>
      match skip with
      | S k => splitGo sep k s'
      | O =>
          if prefix sep s
          then EmptyString :: splitGo sep (String.length sep - 1) s'
          else match splitGo sep 0 s' with
               | seg :: rest => String c seg :: rest
               | [] => [String c EmptyString]
               end
      end
  end.

(** [s.split(sep)]; an empty separator cuts between the characters. *)
Definition split (sep s : string) : list string :=
  if Str.is_empty sep
  then (λ c, String c EmptyString) <$> Str.chars s
  else splitGo sep 0 s.

End Substr.

(** [e.message] *)
Definition messageOf (e : exn) : string :=
  match e with
  | CliError message => message
  | YargsError message => message
  | Error message => message
  end.

(** [a || b] where only [a] may be undefined. *)
Definition orString (a : option string) (b : string) : string :=
  match a with
  | Some x => if Str.is_empty x then b else x
  | None => b
  end.

(** ** The publish command: [publishHanlder], up to its first task *)

Module Publish.

(** [CliCommandOptions] *)
Record Args : Type := {
  type : option string;
  provider : option string;
  eth_provider : string;
  content_provider : string;
  developer_address : option string;
  timeout : string;
  upload_to : string;
  github_release : option bool;
  create_next_branch : option bool;
  dappnode_team_preset : option bool;
  dir : string;
  silent : option bool;
  verbose : option bool
}.

(** The variables of [process.env] the handler reads. *)
Record Env : Type := {
  DEVELOPER_ADDRESS : option string;
  CI : option string;
  TRAVIS_TAG : option string;
  GITHUB_REF : option string;
  RELEASE_TYPE : option string
}.

(** The local variables the handler has settled when it starts its tasks. *)
Record Settled : Type := {
  releaseType : string;
  ethProvider : string;
  contentProvider : string;
  uploadTo : string;
  githubRelease : bool;
  createNextGithubBranch : bool;
  developerAddress : option string;
  userTimeout : string;
  verboseFlag : option bool
}.

Definition quote : string := String (ascii_of_nat 34) EmptyString.

Section Handler.
(** [releaseTypes] comes from types.ts, which is not part of the sources at
    hand: it is a parameter. *)
Variable releaseTypes : list string.

Definition typesList : string := Str.join " | " releaseTypes.

Definition missingTypeMessage : string :=
  "Missing required argument [type]: " +:+ typesList.

Definition invalidTypeMessage (t : string) : string :=
  "Invalid release type " +:+ quote +:+ t +:+ quote +:+ ", must be: "
  +:+ typesList.

(** [tag.split("release/")[1] || "patch"] *)
Definition typeOfTag (tag : string) : string :=
  orString (Substr.split "release/" tag !! 1%nat) "patch".

(** Lines 277 to 331 of the handler: options, environment, preset, release
    type. *)
Definition settle (a : Args) (env : Env) : Result Settled :=
  let ethProvider := orString (provider a) (eth_provider a) in
  let contentProvider := orString (provider a) (content_provider a) in
  let uploadTo := upload_to a in
  let githubRelease := truthyFlag (github_release a) in
  let createNextGithubBranch := truthyFlag (create_next_branch a) in
  let developerAddress :=
    orElse (developer_address a) (DEVELOPER_ADDRESS env) in
  let userTimeout := timeout a in
  let isCi := CI env in
  let tag := orElse (TRAVIS_TAG env) (GITHUB_REF env) in
  let typeFromEnv := RELEASE_TYPE env in
  let preset := truthyFlag (dappnode_team_preset a) in
  let presetInCi := preset && truthyString isCi in
  let ethProvider := if presetInCi then "infura" else ethProvider in
  let contentProvider :=
    if presetInCi then "http://ipfs.dappnode.io" else contentProvider in
  let uploadTo := if presetInCi then "ipfs" else uploadTo in
  let verbose := if presetInCi then Some true else verbose a in
  let githubRelease := if preset then true else githubRelease in
  let createNextGithubBranch :=
    if preset
       && (negb (truthyString (GITHUB_REF env))
           || bool_decide (GITHUB_REF env = Some "refs/heads/master"))
    then true else createNextGithubBranch in
  let type :=
    if negb (truthyString (type a)) && truthyString typeFromEnv
    then typeFromEnv else type a in
  let type :=
    match tag with
    | Some t =>
        if negb (truthyString type) && truthyString tag
           && Substr.includes "release" t
        then Some (typeOfTag t) else type
    | None => type
    end in
  match type with
  | Some t =>
      if Str.is_empty t then inl (YargsError missingTypeMessage)
      else if bool_decide (t ∈ releaseTypes)
      then inr {| releaseType := t; ethProvider := ethProvider;
                  contentProvider := contentProvider; uploadTo := uploadTo;
                  githubRelease := githubRelease;
                  createNextGithubBranch := createNextGithubBranch;
                  developerAddress := developerAddress;
                  userTimeout := userTimeout; verboseFlag := verbose |}
      else inl (YargsError (invalidTypeMessage t))
  | None => inl (YargsError missingTypeMessage)
  end.

End Handler.

(** What the first task leaves in the context and in its title. *)
Record Fetched : Type := {
  nextVersion : string;
  buildDir : string;
  title : string
}.

(** The first task, "Fetch current version from APM".  Its two helpers,
    utils/versions/increaseFromApmVersion and getCurrentLocalVersion, are not
    part of the sources at hand: their outcomes are parameters. *)
Definition fetchVersion (increaseFromApmVersion : Result string)
  (getCurrentLocalVersion : Result string) (d : string) : Result Fetched :=
  andThen
    (match increaseFromApmVersion with
     | inr v => inr v
     | inl e =>
         if Substr.includes "NOREPO" (messageOf e)
         then getCurrentLocalVersion else inl e
     end)
    (λ v, inr {| nextVersion := v;
                 buildDir := Path.join d ("build_" +:+ v);
                 title := "Fetch current version from APM"
                          +:+ " (next version: " +:+ v +:+ ")" |}).

End Publish.

(** The arguments [--provider ropsten publish] would give, and an empty
    environment, for the examples. *)
Definition examplePublishArgs (t p : option string) (preset : option bool)
  : Publish.Args :=
  {| Publish.type := t; Publish.provider := p;
     Publish.eth_provider := "dappnode";
     Publish.content_provider := "dappnode";
     Publish.developer_address := None; Publish.timeout := "60min";
     Publish.upload_to := "ipfs"; Publish.github_release := None;
     Publish.create_next_branch := None;
     Publish.dappnode_team_preset := preset; Publish.dir := "./";
     Publish.silent := None; Publish.verbose := None |}.

Definition examplePublishEnv (ci tag ref releaseType : option string)
  : Publish.Env :=
  {| Publish.DEVELOPER_ADDRESS := None; Publish.CI := ci;
     Publish.TRAVIS_TAG := tag; Publish.GITHUB_REF := ref;
     Publish.RELEASE_TYPE := releaseType |}.

Definition exampleReleaseTypes : list string := ["major"; "minor"; "patch"].

(** Collaborators for the examples of failure: as [exampleCollaborators],
    with the given outcomes of the validation, the builds and the upload. *)
Definition exampleCollaboratorsWith (m : Manifest.t)
  (validation : Result unit) (builder : Build.Args → Result string)
  (upload : Result string) : Collaborators :=
  let C := exampleCollaborators m None None (inr tt) in
  {| Compose := @Compose C;
     Percent := @Percent C;
     parseTimeout := @parseTimeout C;
     readManifest := @readManifest C;
     manifestPath := @manifestPath C;
     stringifyManifest := @stringifyManifest C;
     validateManifest := λ _ _, validation;
     verifyAvatar := @verifyAvatar C;
     getAssetPath := @getAssetPath C;
     getAssetPathRequired := @getAssetPathRequired C;
     getComposePath := @getComposePath C;
     readCompose := @readCompose C;
     stringifyCompose := @stringifyCompose C;
     parseComposeUpstreamVersion := @parseComposeUpstreamVersion C;
     updateComposeImageTags := @updateComposeImageTags C;
     getComposePackageImages := @getComposePackageImages C;
     parseArchitectures := @parseArchitectures C;
     env_UPSTREAM_VERSION := @env_UPSTREAM_VERSION C;
     containerBuilder := builder;
     composeBuilder := builder;
     swarmAddDirFromFs := λ _ _ _, upload;
     ipfsAddFromFs := λ _ _ _, upload;
     swarmProgress := @swarmProgress C;
     ipfsProgress := @ipfsProgress C;
     timesHundredToFixed2 := @timesHundredToFixed2 C;
     releaseRecordStore := @releaseRecordStore C;
     pruneCache := @pruneCache C |}.

(** A builder that fails on one architecture. *)
Definition failingOn (arch : string) (a : Build.Args) : Result string :=
  if bool_decide (Build.architecture a = Some arch)
  then inl (Error ("build failed for " +:+ arch))
  else inr ("image for " +:+ Build.destPath a).

(** ** Notions for the further properties *)

(** The argument "Build architecture" hands to [buildWithBuildx]. *)
Definition buildxArgs `{C : Collaborators} (o : Options) (E : Env)
  (arch : string) : Build.Args :=
  {| Build.architecture := Some arch;
     Build.images := images E;
     Build.composePath := composePath E;
     Build.buildTimeout := buildTimeout E;
     Build.skipSave := skipSave o;
     Build.destPath :=
       Path.join (buildDir o) (getImagePath (name E) (version E) arch) |}.

(** The same thing at path [k]. *)
Definition sameAt (k : string) (w w' : World) : Prop :=
  files w' !! k = files w !! k.

(** The same release records and the same console. *)
Definition sameJournal (w w' : World) : Prop :=
  sameRecords w w' ∧ sameConsole w w'.

(** What the tasks have shown of themselves stays as it was. *)
Definition sameOutput (w w' : World) : Prop := output w' = output w.

(** The fractions the selected backend reports on the way. *)
Definition selectedProgress `{C : Collaborators} (o : Options)
  (fsys : gmap string node) : list Percent :=
  if uploadToSwarm o
  then swarmProgress (buildDir o) (swarmProvider o) fsys
  else ipfsProgress (buildDir o) (ipfsProvider o) fsys.

(** The content address the selected backend gives for the files. *)
Definition selectedBackend `{C : Collaborators} (o : Options)
  (fsys : gmap string node) : Result string :=
  if uploadToSwarm o
  then swarmAddDirFromFs (buildDir o) (swarmProvider o) fsys
  else ipfsAddFromFs (buildDir o) (ipfsProvider o) fsys.

(** ** Notions for the properties of the archives *)

(** [s.endsWith(sub)] *)
Definition endsWith (sub s : string) : bool :=
  bool_decide (Str.chars sub `suffix_of` Str.chars s).

(** The image archives, as the specification counts them: the entries of a
    build directory named as [getImagePath] names them, [*.txz], or as
    [getLegacyImagePath] does, [*.tar.xz]. *)
Definition isArchiveName (n : string) : bool :=
  endsWith ".txz" n || endsWith ".tar.xz" n.

Definition archivesIn (d : string) (fsys : gmap string node) : list string :=
  filter (λ n, Is_true (isArchiveName n)) (fs.entries d fsys).






(** An uppercase letter, as the specification words it, among the code units
    below 256: the letters A to Z, and the accented capitals from 192 to 222
    (À to Þ) but for the multiplication sign at 215. *)
Definition uppercaseLetter (c : ascii) : bool :=
  let n := nat_of_ascii c in
  ((65 <=? n) && (n <=? 90) || (192 <=? n) && (n <=? 214)
   || (216 <=? n) && (n <=? 222))%nat.

(** * Properties *)

(** ** Strings *)

Lemma append_cons a s t : String a s +:+ t = String a (s +:+ t).
Proof. reflexivity. Qed.

Lemma append_nil_l s : EmptyString +:+ s = s.
Proof. reflexivity. Qed.

Lemma append_nil_r s : s +:+ EmptyString = s.
Proof. induction s as [|a s IH]; [done|]. by rewrite append_cons, IH. Qed.

Lemma append_assoc s t u : (s +:+ t) +:+ u = s +:+ t +:+ u.
Proof. induction s as [|a s IH]; [done|]. by rewrite !append_cons, IH. Qed.

Lemma append_eq_nil s t : s +:+ t = EmptyString → s = EmptyString ∧ t = EmptyString.
Proof. destruct s; [done|]. by rewrite append_cons. Qed.

Lemma append_neq_self s t : t ≠ EmptyString → s ≠ s +:+ t.
Proof.
  intros Ht E. rewrite <- (append_nil_r s) in E at 1.
  by apply (inj _) in E.
Qed.

Lemma length_append s t :
  String.length (s +:+ t) = String.length s + String.length t.
Proof.
  induction s as [|a s IH]; [done|]. rewrite append_cons. simpl. by rewrite IH.
Qed.

Lemma is_empty_true s : Str.is_empty s = true ↔ s = EmptyString.
Proof. by destruct s. Qed.

Lemma is_empty_false s : Str.is_empty s = false ↔ s ≠ EmptyString.
Proof. by destruct s. Qed.

Lemma is_empty_app s t :
  Str.is_empty (s +:+ t) = Str.is_empty s && Str.is_empty t.
Proof. by destruct s. Qed.

Lemma has_char_app c s t :
  Str.has_char c (s +:+ t) = Str.has_char c s || Str.has_char c t.
Proof.
  induction s as [|a s IH]; [done|].
  rewrite append_cons. simpl. by destruct (Ascii.eqb a c).
Qed.

Lemma split_nonempty c s : Str.split c s ≠ [].
Proof.
  destruct s as [|a s]; [done|]. simpl.
  destruct (Ascii.eqb a c); [done|]. by destruct (Str.split c s).
Qed.

Lemma split_no_sep c s : Str.has_char c s = false → Str.split c s = [s].
Proof.
  induction s as [|a s IH]; [done|]. simpl.
  destruct (Ascii.eqb a c); [done|]. intros H. by rewrite IH.
Qed.

Lemma split_app_sep c s t :
  Str.split c (s +:+ String c t) = Str.split c s ++ Str.split c t.
Proof.
  induction s as [|a s IH].
  - rewrite append_nil_l. simpl. by rewrite Ascii.eqb_refl.
  - rewrite append_cons. simpl. destruct (Ascii.eqb a c); [by rewrite IH|].
    rewrite IH. pose proof (split_nonempty c s).
    by destruct (Str.split c s).
Qed.

Lemma last_app s t : t ≠ EmptyString → Str.last (s +:+ t) = Str.last t.
Proof.
  intros Ht. induction s as [|a s IH]; [done|].
  rewrite append_cons. simpl. rewrite IH.
  destruct (s +:+ t) eqn:E; [|done].
  by apply append_eq_nil in E as [_ ?].
Qed.

Lemma last_no_sep c s : Str.has_char c s = false → Str.last s ≠ Some c.
Proof.
  induction s as [|a s IH]; [done|]. simpl.
  destruct (Ascii.eqb a c) eqn:Ea; [done|]. intros H.
  destruct s; [|by apply IH].
  intros [= ->]. by rewrite Ascii.eqb_refl in Ea.
Qed.

Lemma join_snoc sp l n :
  Str.join sp (l ++ [n])
  = match l with [] => n | _ => Str.join sp l +:+ sp +:+ n end.
Proof.
  induction l as [|x l IH]; [done|].
  destruct l as [|y l]; [done|].
  change (Str.join sp ((x :: y :: l) ++ [n]))
    with (x +:+ sp +:+ Str.join sp ((y :: l) ++ [n])).
  rewrite IH.
  change (Str.join sp (x :: y :: l)) with (x +:+ sp +:+ Str.join sp (y :: l)).
  by rewrite !append_assoc.
Qed.

(** ** Paths *)

Lemma isAbsolute_app d t :
  d ≠ EmptyString → Path.isAbsolute (d +:+ t) = Path.isAbsolute d.
Proof. by destruct d. Qed.

Lemma trailingSeparator_no_sep n :
  Str.has_char Path.sep n = false → Path.trailingSeparator n = false.
Proof.
  intros Hsep. unfold Path.trailingSeparator.
  destruct (Str.last n) as [a|] eqn:E; [|done].
  apply Ascii.eqb_neq. intros ->. by apply (last_no_sep _ _ Hsep).
Qed.

Lemma trailingSeparator_app s n :
  Str.has_char Path.sep n = false → n ≠ EmptyString →
  Path.trailingSeparator (s +:+ n) = false.
Proof.
  intros Hsep Hn. unfold Path.trailingSeparator. rewrite last_app by done.
  by apply trailingSeparator_no_sep.
Qed.

Lemma normSegments_snoc b l n :
  n ≠ EmptyString → n ≠ Path.dot → n ≠ Path.dotdot →
  Path.normSegments b (l ++ [n]) = Path.normSegments b l ++ [n].
Proof.
  intros H1 H2 H3. unfold Path.normSegments. rewrite fold_left_app. simpl.
  unfold Path.normStep at 1. by rewrite !decide_False by done.
Qed.

Lemma normSegments_snoc_dot b l :
  Path.normSegments b (l ++ [Path.dot]) = Path.normSegments b l.
Proof.
  unfold Path.normSegments. rewrite fold_left_app. simpl.
  unfold Path.normStep at 1. rewrite decide_False by done.
  by rewrite decide_True by done.
Qed.

Lemma entryNameb_spec n : Path.entryNameb n = true ↔ Path.entryName n.
Proof.
  unfold Path.entryNameb, Path.entryName.
  rewrite !andb_true_iff, !negb_true_iff, !bool_decide_eq_false.
  tauto.
Qed.

(** [path.join] of a directory and an entry name only prefixes the name. *)
Lemma join_entry d n :
  Path.entryName n → Path.join d n = Path.dirPrefix d +:+ n.
Proof.
  intros (Hsep & Hne & Hdot & Hdd).
  assert (Str.is_empty n = false) as En by by apply is_empty_false.
  unfold Path.join, Path.dirPrefix. rewrite En.
  destruct (Str.is_empty d) eqn:Ed.
  - unfold Path.normalize. rewrite En.
    rewrite (split_no_sep _ _ Hsep).
    replace (Path.isAbsolute n) with false
      by (destruct n as [|a n]; [done|]; simpl in *;
          by destruct (Ascii.eqb a Path.sep)).
    rewrite trailingSeparator_no_sep by done.
    change [n] with ([] ++ [n]). rewrite normSegments_snoc by done.
    simpl. by rewrite En.
  - apply is_empty_false in Ed.
    unfold Path.normalize.
    rewrite is_empty_app, (proj2 (is_empty_false d)) by done. simpl.
    rewrite isAbsolute_app by done.
    rewrite <- append_assoc, trailingSeparator_app by done.
    rewrite append_assoc. change (Path.slash +:+ n) with (String Path.sep n).
    rewrite split_app_sep, (split_no_sep _ _ Hsep).
    rewrite normSegments_snoc, join_snoc by done.
    set (segs := Path.normSegments _ _).
    destruct segs as [|x segs].
    + rewrite En, append_nil_r. by destruct (Path.isAbsolute d).
    + rewrite !is_empty_app, En, !andb_false_r.
      destruct (Path.isAbsolute d); by rewrite ?append_assoc.
Qed.

Lemma dirPrefix_shape d :
  Path.dirPrefix d = EmptyString ∨ ∃ x, Path.dirPrefix d = x +:+ Path.slash.
Proof.
  unfold Path.dirPrefix. destruct (Str.is_empty d); [by left|].
  destruct (Path.normSegments _ _) as [|x segs].
  - destruct (Path.isAbsolute d); [right; by exists EmptyString | by left].
  - right. eexists. by rewrite <- append_assoc.
Qed.

Lemma dirPrefix_absolute d :
  Path.isAbsolute d = true → ∃ x, Path.dirPrefix d = Path.slash +:+ x.
Proof.
  intros Habs. unfold Path.dirPrefix.
  destruct d as [|a d]; [done|]. simpl Str.is_empty. cbv iota.
  rewrite Habs. eauto.
Qed.

Lemma join_entry_inj d n n' :
  Path.entryName n → Path.entryName n' →
  Path.join d n = Path.join d n' → n = n'.
Proof.
  intros Hn Hn'. rewrite !join_entry by done. apply (inj _).
Qed.

Lemma basename_join_entry d n :
  Path.entryName n → Path.basename (Path.join d n) = n.
Proof.
  intros Hn. rewrite join_entry by done. destruct Hn as (Hsep & _).
  unfold Path.basename.
  destruct (dirPrefix_shape d) as [->|[x ->]].
  - by rewrite append_nil_l, split_no_sep.
  - rewrite append_assoc. change (Path.slash +:+ n) with (String Path.sep n).
    rewrite split_app_sep, (split_no_sep _ _ Hsep). apply last_last.
Qed.

(** A joined path with a directory part is not an entry name. *)
Lemma join_entry_has_sep d n :
  Path.entryName n → Path.dirPrefix d ≠ EmptyString →
  Str.has_char Path.sep (Path.join d n) = true.
Proof.
  intros Hn Hd. rewrite join_entry by done.
  destruct (dirPrefix_shape d) as [?|[x ->]]; [done|].
  rewrite !has_char_app. simpl. by rewrite orb_true_r.
Qed.

Lemma join_absolute_has_sep d n :
  Path.entryName n → Path.isAbsolute d = true →
  Str.has_char Path.sep (Path.join d n) = true
  ∧ Path.isAbsolute (Path.join d n) = true.
Proof.
  intros Hn Habs. rewrite join_entry by done.
  destruct (dirPrefix_absolute d Habs) as [x ->]. split; [|done].
  by rewrite append_assoc.
Qed.

(** The directory itself is not one of its entries. *)
Lemma dirKey_not_entry d n :
  Path.entryName n → fs.dirKey d ≠ Path.join d n.
Proof.
  intros Hn. rewrite join_entry by done. destruct Hn as (Hsep & Hne & Hdot & _).
  unfold fs.dirKey, Path.join, Path.dirPrefix. simpl (Str.is_empty Path.dot).
  cbv iota.
  destruct (Str.is_empty d) eqn:Ed.
  - rewrite append_nil_l. intros E. apply Hdot. rewrite <- E. reflexivity.
  - apply is_empty_false in Ed. unfold Path.normalize.
    rewrite is_empty_app, (proj2 (is_empty_false d)) by done. simpl.
    rewrite isAbsolute_app by done.
    rewrite <- append_assoc, trailingSeparator_app by done.
    rewrite append_assoc.
    change (Path.slash +:+ Path.dot) with (String Path.sep Path.dot).
    rewrite split_app_sep. change (Str.split Path.sep Path.dot) with [Path.dot].
    rewrite normSegments_snoc_dot.
    set (segs := Path.normSegments _ _).
    destruct segs as [|x segs].
    + simpl Str.join. simpl Str.is_empty. cbv iota.
      rewrite append_nil_r.
      destruct (Path.isAbsolute d); [by apply append_neq_self|].
      rewrite append_nil_l. intros E. apply Hdot. by rewrite <- E.
    + set (body := Str.join Path.slash (x :: segs)).
      rewrite !append_assoc.
      assert (Path.slash +:+ n ≠ EmptyString) as Hsn by done.
      destruct (Str.is_empty body) eqn:Eb.
      * apply is_empty_true in Eb. rewrite Eb, !append_nil_l.
        destruct (Path.isAbsolute d); [by apply append_neq_self|].
        by rewrite append_nil_l.
      * destruct (Path.isAbsolute d).
        -- intros E%(inj _). by apply append_neq_self in E.
        -- rewrite append_nil_l. by apply append_neq_self.
Qed.

Lemma length_join_take sp (l : list string) i :
  String.length (Str.join sp (take i l)) ≤ String.length (Str.join sp l).
Proof.
  revert i. induction l as [|x l IH]; intros i; [by rewrite take_nil|].
  destruct i as [|i]; [simpl; lia|].
  destruct l as [|y l]; [by rewrite firstn_cons, take_nil|].
  change (Str.join sp (x :: y :: l)) with (x +:+ sp +:+ Str.join sp (y :: l)).
  specialize (IH i). rewrite firstn_cons.
  destruct (take i (y :: l)) as [|z l'] eqn:Et.
  - rewrite !length_append. simpl. lia.
  - change (Str.join sp (x :: z :: l')) with (x +:+ sp +:+ Str.join sp (z :: l')).
    rewrite !length_append. lia.
Qed.

(** A directory above [d] is not an entry of [d]. *)
Lemma properAncestors_not_entry d n k :
  Path.entryName n → k ∈ fs.properAncestors d → k ≠ Path.join d n.
Proof.
  intros Hn Hk. rewrite join_entry by done.
  unfold fs.properAncestors in Hk. unfold Path.dirPrefix.
  apply list_elem_of_fmap in Hk as (i & -> & Hi).
  apply elem_of_seq in Hi.
  destruct (Str.is_empty d) eqn:Ed.
  { apply is_empty_true in Ed. subst d. simpl in Hi. lia. }
  cbv zeta.
  set (segs := Path.normSegments (negb (Path.isAbsolute d))
                 (Str.split Path.sep d)) in *.
  pose proof (length_join_take Path.slash segs i) as Hle.
  destruct segs as [|x l]; [simpl in Hi; lia|].
  intros Heq. apply (f_equal String.length) in Heq.
  rewrite !length_append in Heq.
  change (String.length Path.slash) with 1 in Heq. lia.
Qed.

(** ** Running task bodies *)

Lemma run_bind {A B} (m : M A) (k : A → M B) w :
  (m ≫= k) w = match m w with
               | (inl e, w') => (inl e, w')
               | (inr a, w') => k a w'
               end.
Proof. reflexivity. Qed.

Lemma run_bind_inr {A B} (m : M A) (k : A → M B) w b w' :
  (m ≫= k) w = (inr b, w') →
  ∃ a w1, m w = (inr a, w1) ∧ k a w1 = (inr b, w').
Proof.
  rewrite run_bind. destruct (m w) as [[e|a] w1]; [done|]. eauto.
Qed.

Lemma run_ret_inr {A} (a b : A) w w' :
  (mret a : M A) w = (inr b, w') → b = a ∧ w' = w.
Proof. by intros [= <- <-]. Qed.

Lemma run_bind_ok {A B} (m : M A) (k : A → M B) w a w1 :
  m w = (inr a, w1) → (m ≫= k) w = k a w1.
Proof. intros H. by rewrite run_bind, H. Qed.

Lemma setFiles_id w : setFiles (files w) w = w.
Proof. by destruct w. Qed.

Lemma setFiles_setFiles f g w : setFiles f (setFiles g w) = setFiles f w.
Proof. done. Qed.

Lemma run_tasks_app ts1 ts2 ctx w :
  runTasks (ts1 ++ ts2) ctx w
  = match runTasks ts1 ctx w with
    | (inl e, w') => (inl e, w')
    | (inr ctx', w') => runTasks ts2 ctx' w'
    end.
Proof.
  revert ctx w. induction ts1 as [|t ts1 IH]; intros ctx w; [done|].
  simpl. destruct (truthyFlag (skip t)); [apply IH|].
  rewrite !run_bind. destruct (task t ctx w) as [[e|ctx'] w1]; [done|].
  apply IH.
Qed.

Lemma run_tasks_one t ctx w :
  truthyFlag (skip t) = false → runTasks [t] ctx w = task t ctx w.
Proof.
  intros Hs. cbn [runTasks]. rewrite Hs, run_bind.
  by destruct (task t ctx w) as [[?|?] ?].
Qed.

(** ** The file system *)

Lemma NoDup_omap_inj {A B} (f : A → option B) (l : list A) :
  NoDup l →
  (∀ x y b, x ∈ l → y ∈ l → f x = Some b → f y = Some b → x = y) →
  NoDup (omap f l).
Proof.
  induction 1 as [|x l Hx Hl IH]; intros Hinj; [constructor|].
  simpl. destruct (f x) as [b|] eqn:Efx.
  - constructor.
    + rewrite list_elem_of_omap. intros (y & Hy & Efy).
      apply Hx. rewrite (Hinj x y b); [done|left|by right|done..].
    + apply IH. intros y z c Hy Hz. apply Hinj; by right.
  - apply IH. intros y z c Hy Hz. apply Hinj; by right.
Qed.

Lemma elem_of_keys (fsys : gmap string node) k :
  k ∈ (map_to_list fsys).*1 ↔ is_Some (fsys !! k).
Proof.
  rewrite list_elem_of_fmap. split.
  - intros ([k' x] & -> & Hin). apply elem_of_map_to_list in Hin. by exists x.
  - intros [x Hx]. exists (k, x). split; [done|]. by apply elem_of_map_to_list.
Qed.

(** The entries of a directory are the entry names that lead to something. *)
Lemma elem_of_entries d (fsys : gmap string node) n :
  n ∈ fs.entries d fsys ↔ Path.entryName n ∧ is_Some (fsys !! Path.join d n).
Proof.
  unfold fs.entries. rewrite list_elem_of_omap. split.
  - intros (k & Hk & Hf). apply elem_of_keys in Hk. cbv zeta in Hf.
    destruct (Path.entryNameb (Path.basename k)) eqn:En; [|done].
    simpl in Hf. case_bool_decide as Hj; [|done]. injection Hf as <-.
    apply entryNameb_spec in En. by rewrite Hj.
  - intros [Hn Hs]. exists (Path.join d n). split; [by apply elem_of_keys|].
    cbv zeta. rewrite basename_join_entry by done.
    rewrite (proj2 (entryNameb_spec n)) by done. simpl.
    by rewrite bool_decide_eq_true_2.
Qed.

Lemma NoDup_entries d (fsys : gmap string node) : NoDup (fs.entries d fsys).
Proof.
  apply NoDup_omap_inj; [apply NoDup_fst_map_to_list|].
  intros k k' n _ _ Hk Hk'. cbv zeta in Hk, Hk'.
  destruct (Path.entryNameb (Path.basename k)); [|done].
  destruct (Path.entryNameb (Path.basename k')); [|done].
  simpl in *. repeat case_bool_decide; try done. congruence.
Qed.

Lemma swept_snoc d keep l f (fsys : gmap string node) :
  swept d keep (l ++ [f]) fsys
  = if bool_decide (f ∈ keep) then swept d keep l fsys
    else delete (Path.join d f) (swept d keep l fsys).
Proof. unfold swept. by rewrite foldl_app. Qed.

(** An entry outside [keep] is gone. *)
Lemma swept_lookup_gone d keep l (fsys : gmap string node) f :
  f ∈ l → f ∉ keep → swept d keep l fsys !! Path.join d f = None.
Proof.
  induction l as [|g l IH] using rev_ind; [by intros ?%elem_of_nil|].
  rewrite swept_snoc, elem_of_app, list_elem_of_singleton.
  intros [Hin| ->] Hkeep.
  - case_bool_decide; [by apply IH|].
    rewrite lookup_delete. case_decide; [done|by apply IH].
  - rewrite bool_decide_eq_false_2 by done. apply lookup_delete_eq.
Qed.

(** Every other path is as before. *)
Lemma swept_lookup_other d keep l (fsys : gmap string node) k :
  (∀ f, f ∈ l → f ∉ keep → k ≠ Path.join d f) →
  swept d keep l fsys !! k = fsys !! k.
Proof.
  induction l as [|g l IH] using rev_ind; [done|].
  intros Hk. rewrite swept_snoc.
  assert (swept d keep l fsys !! k = fsys !! k) as Hl.
  { apply IH. intros f Hf. apply Hk. apply elem_of_app. by left. }
  case_bool_decide as Hg; [done|].
  rewrite lookup_delete_ne; [done|].
  intros E. apply (Hk g); [|done..]. apply elem_of_app. right. by left.
Qed.

Lemma swept_lookup_kept d keep l (fsys : gmap string node) n :
  Path.entryName n → (∀ f, f ∈ l → Path.entryName f) → n ∈ keep →
  swept d keep l fsys !! Path.join d n = fsys !! Path.join d n.
Proof.
  intros Hn Hl Hkeep. apply swept_lookup_other.
  intros f Hf Hfk E. apply join_entry_inj in E; [|by auto..].
  by subst.
Qed.

Lemma swept_lookup_cases d keep l (fsys : gmap string node) k :
  swept d keep l fsys !! k = None ∨ swept d keep l fsys !! k = fsys !! k.
Proof.
  induction l as [|g l IH] using rev_ind; [by right|].
  rewrite swept_snoc. case_bool_decide; [done|].
  rewrite lookup_delete. case_decide; [by left|done].
Qed.

Lemma unlinkSync_file p w :
  isFile (files w) p →
  fs.unlinkSync p w = (inr tt, setFiles (delete p (files w)) w).
Proof.
  intros [data Hp]. unfold fs.unlinkSync. rewrite run_bind. simpl.
  by rewrite Hp.
Qed.

Lemma unlinkSync_inr p w u w' :
  fs.unlinkSync p w = (inr u, w') →
  isFile (files w) p ∧ w' = setFiles (delete p (files w)) w.
Proof.
  unfold fs.unlinkSync. rewrite run_bind. simpl.
  destruct (files w !! p) as [[data|]|] eqn:Hp; [|done..].
  intros [= <- <-]. split; [by exists data|done].
Qed.

Section Sweep.
Variables (d : string) (keep : list string).

Let body : string → M unit := λ filepath,
  if bool_decide (filepath ∈ keep) then mret tt
  else fs.unlinkSync (Path.join d filepath).

(** The loop of "Create release dir", when it comes to its end. *)
Lemma sweep_inr l w u w' :
  forOf l body w = (inr u, w') → w' = setFiles (swept d keep l (files w)) w.
Proof.
  revert w. induction l as [|f l IH]; intros w.
  - intros [= <- <-]. symmetry. apply setFiles_id.
  - simpl. intros (a & w1 & Hf & Hl)%run_bind_inr.
    apply IH in Hl as ->. unfold body in Hf. unfold swept. simpl.
    case_bool_decide.
    + by injection Hf as <- <-.
    + by apply unlinkSync_inr in Hf as [_ ->].
Qed.

(** It comes to its end when the entries to unlink are distinct regular
    files. *)
Lemma sweep_total l w :
  NoDup l → (∀ f, f ∈ l → Path.entryName f) →
  (∀ f, f ∈ l → f ∉ keep → isFile (files w) (Path.join d f)) →
  forOf l body w = (inr tt, setFiles (swept d keep l (files w)) w).
Proof.
  revert w. induction l as [|f l IH]; intros w Hnd Hname Hfile.
  - simpl. f_equal. symmetry. apply setFiles_id.
  - apply NoDup_cons in Hnd as [Hf Hnd].
    simpl. rewrite run_bind. unfold body at 1. unfold swept. simpl.
    case_bool_decide as Hk.
    + simpl. apply IH; [done|..]; intros g Hg; [apply Hname|apply Hfile];
        by right.
    + rewrite unlinkSync_file by (apply Hfile; [by left|done]).
      rewrite IH; [done|done|..].
      * intros g Hg. apply Hname. by right.
      * intros g Hg Hgk. destruct (Hfile g) as [data Hd]; [by right|done|].
        exists data. simpl. rewrite lookup_delete_ne; [done|].
        intros E. apply join_entry_inj in E; [|apply Hname; by constructor..].
        by subst.
Qed.

End Sweep.

Lemma isFileb_spec (fsys : gmap string node) k :
  fs.isFileb fsys k = true ↔ isFile fsys k.
Proof.
  unfold fs.isFileb, isFile. destruct (fsys !! k) as [[data|]|]; split;
    try done; try (by intros [? ?]). by exists data.
Qed.

Lemma isFileb_false (fsys : gmap string node) k :
  fs.isFileb fsys k = false ↔ ¬ isFile fsys k.
Proof.
  rewrite <- isFileb_spec. by destruct (fs.isFileb fsys k).
Qed.

Lemma made_lookup_cases (l : list string) (fsys : gmap string node) k :
  foldr (λ k m, <[k := Directory]> m) fsys l !! k
  = if bool_decide (k ∈ l) then Some Directory else fsys !! k.
Proof.
  induction l as [|x l IH]; [done|]. simpl.
  destruct (decide (x = k)) as [->|Hne].
  - rewrite lookup_insert_eq. rewrite bool_decide_eq_true_2; [done|by left].
  - rewrite lookup_insert_ne by done. rewrite IH.
    apply (f_equal (λ b : bool, if b then Some Directory else fsys !! k)).
    apply bool_decide_ext. rewrite elem_of_cons.
    split; [by right|intros [Heq|Hin]; [by destruct Hne|done]].
Qed.

Lemma madeDirs_lookup d (fsys : gmap string node) k :
  fs.madeDirs d fsys !! k
  = if bool_decide (k = fs.dirKey d ∨ k ∈ fs.properAncestors d)
    then Some Directory else fsys !! k.
Proof.
  unfold fs.madeDirs. destruct (decide (k = fs.dirKey d)) as [->|Hne].
  - rewrite lookup_insert_eq. rewrite bool_decide_eq_true_2; [done|by left].
  - rewrite lookup_insert_ne by done. rewrite made_lookup_cases.
    apply (f_equal (λ b : bool, if b then Some Directory else fsys !! k)).
    apply bool_decide_ext. split; [by right|by intros [?|?]].
Qed.

Lemma madeDirs_directory d (fsys : gmap string node) :
  fs.madeDirs d fsys !! fs.dirKey d = Some Directory.
Proof. apply lookup_insert_eq. Qed.

Lemma madeDirs_entry d (fsys : gmap string node) n :
  Path.entryName n →
  fs.madeDirs d fsys !! Path.join d n = fsys !! Path.join d n.
Proof.
  intros Hn. rewrite madeDirs_lookup. rewrite bool_decide_eq_false_2; [done|].
  intros [Heq|Hin].
  - by apply (dirKey_not_entry d n Hn).
  - by apply (properAncestors_not_entry d n _ Hn Hin).
Qed.

Lemma madeDirs_isFile d (fsys : gmap string node) k :
  isFile (fs.madeDirs d fsys) k → isFile fsys k.
Proof.
  intros [data Hd]. rewrite madeDirs_lookup in Hd.
  case_bool_decide; [done|]. by exists data.
Qed.

Lemma madeDirs_madeDirs d (fsys : gmap string node) :
  fs.madeDirs d (fs.madeDirs d fsys) = fs.madeDirs d fsys.
Proof.
  apply map_eq. intros k. rewrite !madeDirs_lookup. by case_bool_decide.
Qed.

Lemma mkdirSync_inr d w u w' :
  fs.mkdirSync d w = (inr u, w') →
  mkdirPossible d (files w)
  ∧ w' = setFiles (fs.madeDirs d (files w)) w.
Proof.
  unfold fs.mkdirSync. rewrite run_bind. simpl.
  destruct (Str.is_empty d) eqn:Ed; [done|].
  destruct (existsb _ _) eqn:Ea; [done|].
  destruct (fs.isFileb (files w) (fs.dirKey d)) eqn:Ek; [done|].
  intros [= <- <-]. split; [|done]. split_and!.
  - by apply is_empty_false.
  - by apply isFileb_false.
  - intros k Hk Hf. apply isFileb_spec in Hf.
    apply not_true_iff_false in Ea. apply Ea.
    apply existsb_exists. exists k. split; [|done].
    by apply list_elem_of_In.
Qed.

Lemma mkdirSync_ok d w :
  mkdirPossible d (files w) →
  fs.mkdirSync d w = (inr tt, setFiles (fs.madeDirs d (files w)) w).
Proof.
  intros (Hne & Hd & Ha). unfold fs.mkdirSync. rewrite run_bind. simpl.
  rewrite (proj2 (is_empty_false d) Hne).
  rewrite (proj2 (isFileb_false _ _) Hd).
  destruct (existsb _ _) eqn:Ea; [|done].
  apply existsb_exists in Ea as (k & Hk & Hf).
  apply list_elem_of_In in Hk. apply isFileb_spec in Hf. by destruct (Ha k).
Qed.

(** [mkdirPossible] on a given path and given files. *)
Ltac mkdir_possible :=
  split_and!;
  [ done
  | intros [? Hd]; vm_compute in Hd; discriminate Hd
  | let Hk := fresh "Hk" in
    intros ? Hk; vm_compute in Hk;
    repeat (apply elem_of_cons in Hk as [->|Hk]);
    [intros [? Hd]; vm_compute in Hd; discriminate Hd..
    |apply elem_of_nil in Hk as []] ].

(** When it throws, [fs.mkdirSync] has changed nothing. *)
Lemma mkdirSync_inl d w e w' : fs.mkdirSync d w = (inl e, w') → w' = w.
Proof.
  unfold fs.mkdirSync. rewrite run_bind. simpl.
  destruct (Str.is_empty d); [by intros [= <- <-]|].
  destruct (existsb _ _); [by intros [= <- <-]|].
  by destruct (fs.isFileb _ _); intros [= <-].
Qed.

Lemma readdirSync_directory d w :
  d ≠ EmptyString →
  files w !! fs.dirKey d = Some Directory →
  fs.readdirSync d w = (inr (fs.entries d (files w)), w).
Proof.
  intros Hne Hd. unfold fs.readdirSync. rewrite run_bind. simpl.
  by rewrite (proj2 (is_empty_false d) Hne), Hd.
Qed.

(** ** "Create release dir" *)

Section CreateReleaseDir.
Context {C : Collaborators}.
Variables (o : Options) (E : Env).

Lemma createReleaseDir_inr ctx w ctx' w' :
  task (createReleaseDir o E) ctx w = (inr ctx', w') →
  ctx' = ctx ∧ w' = setFiles (cleaned o E (files w)) w.
Proof.
  simpl. intros (u & w1 & Hmk & Hrest)%run_bind_inr.
  apply mkdirSync_inr in Hmk as [(Hne & _) ->].
  apply run_bind_inr in Hrest as (l & w2 & Hrd & Hrest).
  rewrite readdirSync_directory in Hrd
    by (done || apply madeDirs_directory).
  injection Hrd as <- <-.
  apply run_bind_inr in Hrest as (u' & w3 & Hloop & Hret).
  injection Hret as <- <-.
  by apply sweep_inr in Hloop as ->.
Qed.

Lemma createReleaseDir_ok ctx w :
  mkdirPossible (buildDir o) (files w) →
  (∀ n, Path.entryName n → n ∉ imagePaths E →
        is_Some (files w !! Path.join (buildDir o) n) →
        isFile (files w) (Path.join (buildDir o) n)) →
  task (createReleaseDir o E) ctx w
  = (inr ctx, setFiles (cleaned o E (files w)) w).
Proof.
  intros Hdir Hreg. simpl.
  rewrite (run_bind_ok _ _ _ _ _ (mkdirSync_ok _ _ Hdir)).
  rewrite (run_bind_ok _ _ _
             (fs.entries (buildDir o) (fs.madeDirs (buildDir o) (files w)))
             (setFiles (fs.madeDirs (buildDir o) (files w)) w))
    by (apply readdirSync_directory;
        [by destruct Hdir|apply madeDirs_directory]).
  rewrite run_bind, sweep_total; [done|apply NoDup_entries|..].
  - by intros f [? _]%elem_of_entries.
  - intros f [Hn Hs]%elem_of_entries Hk. simpl in *. unfold isFile.
    rewrite madeDirs_entry in * by done.
    by apply Hreg.
Qed.

(** What the clean-up leaves of an entry of the build directory. *)
Lemma cleaned_entry (fsys : gmap string node) n :
  Path.entryName n →
  cleaned o E fsys !! Path.join (buildDir o) n
  = if bool_decide (n ∈ imagePaths E)
    then fsys !! Path.join (buildDir o) n else None.
Proof.
  intros Hn. unfold cleaned.
  set (made := fs.madeDirs (buildDir o) fsys).
  assert (made !! Path.join (buildDir o) n
          = fsys !! Path.join (buildDir o) n) as Hmade.
  { unfold made. by apply madeDirs_entry. }
  case_bool_decide as Hk.
  - rewrite swept_lookup_kept; [done..| |done].
    by intros f [? _]%elem_of_entries.
  - destruct (made !! Path.join (buildDir o) n) as [x|] eqn:Hx.
    + apply swept_lookup_gone; [|done]. apply elem_of_entries.
      split; [done|]. by rewrite Hx.
    + destruct (swept_lookup_cases (buildDir o) (imagePaths E)
                  (fs.entries (buildDir o) made) made
                  (Path.join (buildDir o) n)) as [->| ->]; [done|].
      by rewrite Hx.
Qed.

End CreateReleaseDir.

(** ** The prologue *)

Lemma normalize_absolute p :
  Path.isAbsolute p = true → Path.isAbsolute (Path.normalize p) = true.
Proof.
  intros Habs. unfold Path.normalize.
  destruct p as [|a p]; [done|]. simpl Str.is_empty. cbv iota zeta.
  rewrite Habs. by destruct (Str.is_empty _).
Qed.

Lemma join_absolute d b :
  Path.isAbsolute d = true → Path.isAbsolute (Path.join d b) = true.
Proof.
  intros Habs. unfold Path.join.
  destruct d as [|a d]; [done|]. simpl Str.is_empty. cbv iota.
  destruct (Str.is_empty b); apply normalize_absolute; [done|].
  by rewrite append_cons.
Qed.

Lemma absolute_has_sep p :
  Path.isAbsolute p = true → Str.has_char Path.sep p = true.
Proof. destruct p as [|a p]; [done|]. simpl. by intros ->. Qed.

(** What a prologue that returns has read and computed. *)
Lemma prologue_inr `{C : Collaborators} o E :
  prologue o = inr E →
  ∃ t m c,
    parseTimeout (userTimeout o) = inr t
    ∧ readManifest (dir o) = inr m
    ∧ truthyProp (Manifest.image m) = false
    ∧ truthyProp (Manifest.avatar m) = false
    ∧ testUpperAZ (Manifest.name m) = false
    ∧ readCompose (dir o) = inr c
    ∧ name E = Manifest.name m
    ∧ version E = Manifest.version m
    ∧ imagePathAmd E
      = Path.join (buildDir o)
          (getImagePath (Manifest.name m) (Manifest.version m) "linux/amd64")
    ∧ imagePathLegacy E
      = Path.join (buildDir o)
          (getLegacyImagePath (Manifest.name m) (Manifest.version m))
    ∧ match Manifest.architectures m with
      | Some declared =>
          ∃ archs, parseArchitectures declared = inr archs
                   ∧ architectures E = Some archs
      | None => architectures E = None
      end
    ∧ manifest E
      = (if truthyString (parseComposeUpstreamVersion c)
         then Manifest.setUpstreamVersion
                (default EmptyString (parseComposeUpstreamVersion c)) m
         else if truthyString env_UPSTREAM_VERSION
         then Manifest.setUpstreamVersion
                (default EmptyString env_UPSTREAM_VERSION) m
         else m).
Proof.
  unfold prologue, andThen.
  destruct (parseTimeout _) as [?|t]; [done|].
  destruct (readManifest _) as [?|m]; [done|].
  destruct (truthyProp (Manifest.image m)) eqn:Hi; [done|].
  destruct (truthyProp (Manifest.avatar m)) eqn:Hv; [done|].
  destruct (testUpperAZ _) eqn:Hu; [done|].
  destruct (readCompose _) as [?|c]; [done|].
  assert (∀ m0 : Manifest.t,
    match orElse (parseComposeUpstreamVersion c) env_UPSTREAM_VERSION with
    | Some v =>
        if truthyString
             (orElse (parseComposeUpstreamVersion c) env_UPSTREAM_VERSION)
        then Manifest.setUpstreamVersion v m0 else m0
    | None => m0
    end
    = (if truthyString (parseComposeUpstreamVersion c)
       then Manifest.setUpstreamVersion
              (default EmptyString (parseComposeUpstreamVersion c)) m0
       else if truthyString env_UPSTREAM_VERSION
       then Manifest.setUpstreamVersion
              (default EmptyString env_UPSTREAM_VERSION) m0
       else m0)) as Hup.
  { intros m0. unfold orElse.
    destruct (parseComposeUpstreamVersion c) as [[|]|],
             env_UPSTREAM_VERSION as [[|]|]; done. }
  destruct (Manifest.architectures m) as [declared|] eqn:Ha.
  - destruct (parseArchitectures declared) as [?|archs] eqn:Hp; [done|].
    destruct (getAssetPathRequired _ _) as [?|p]; [done|].
    destruct (if Str.is_empty p then _ else _) as [?|[]]; [done|].
    intros [= <-]. exists t, m, c. simpl. rewrite Ha.
    split_and!; try done. by exists archs.
  - destruct (getAssetPathRequired _ _) as [?|p]; [done|].
    destruct (if Str.is_empty p then _ else _) as [?|[]]; [done|].
    intros [= <-]. exists t, m, c. simpl. rewrite Ha.
    split_and!; done.
Qed.

(** ** The clean-up and the default architecture *)

(** With declared architectures the clean-up keeps exactly the entries named
    after them. *)
Lemma clean_with_architectures `{C : Collaborators} o E archs ctx w ctx' w' :
  architectures E = Some archs →
  task (createReleaseDir o E) ctx w = (inr ctx', w') →
  ∀ n, Path.entryName n →
    files w' !! Path.join (buildDir o) n
    = if bool_decide (n ∈ map (getImagePath (name E) (version E)) archs)
      then files w !! Path.join (buildDir o) n else None.
Proof.
  intros Ha [_ ->]%createReleaseDir_inr n Hn. simpl.
  rewrite cleaned_entry by done. unfold imagePaths. by rewrite Ha.
Qed.

(** Without declared architectures, whatever the build directory: when the
    path of the default archive has a directory part, no entry is kept. *)
Lemma clean_default_sweeps_all `{C : Collaborators} o E ctx w :
  architectures E = None →
  Str.has_char Path.sep (imagePathAmd E) = true →
  mkdirPossible (buildDir o) (files w) →
  (∀ n, n ∈ fs.entries (buildDir o) (files w) →
        isFile (files w) (Path.join (buildDir o) n)) →
  (∀ n, Path.entryName n → n ∉ imagePaths E)
  ∧ ∃ w', task (createReleaseDir o E) ctx w = (inr ctx, w')
          ∧ (∀ n, Path.entryName n →
                  files w' !! Path.join (buildDir o) n = None)
          ∧ fs.entries (buildDir o) (files w') = [].
Proof.
  intros Ha Hsep Hdir Hreg.
  assert (∀ n, Path.entryName n → n ∉ imagePaths E) as Hnever.
  { intros n [Hn _]. unfold imagePaths. rewrite Ha.
    intros ->%list_elem_of_singleton. congruence. }
  split; [done|].
  eexists. split; [|split].
  - apply createReleaseDir_ok; [done|].
    intros n Hn _ Hs. apply Hreg, elem_of_entries. by split.
  - intros n Hn. simpl. rewrite cleaned_entry by done.
    by rewrite bool_decide_eq_false_2 by by apply Hnever.
  - apply elem_of_nil_inv. intros n [Hn [x Hx]]%elem_of_entries.
    simpl in Hx. rewrite cleaned_entry in Hx by done.
    by rewrite bool_decide_eq_false_2 in Hx by by apply Hnever.
Qed.

(** C10, as the code has it. When the manifest declares no architectures,
    the membership test of "Create release dir" compares the bare names read
    from the build directory with the one path [path.join] makes of the build
    directory and the name of the default-architecture archive, absolute or
    not: an entry is kept when its name is that path, and unlinked otherwise.
    Whenever that path has a directory part, no name matches, and every file
    found in the build directory is unlinked, a default-architecture archive
    built before included.  When it has none, it is the bare name of the
    archive, and an archive built before is kept. *)
Theorem clean_without_architectures `{C : Collaborators} o m E ctx w :
  readManifest (dir o) = inr m →
  Manifest.architectures m = None →
  prologue o = inr E →
  mkdirPossible (buildDir o) (files w) →
  (∀ n, n ∈ fs.entries (buildDir o) (files w) →
        isFile (files w) (Path.join (buildDir o) n)) →
  let archive :=
    getImagePath (Manifest.name m) (Manifest.version m) "linux/amd64" in
  let expected := Path.join (buildDir o) archive in
  imagePaths E = [expected]
  ∧ ∃ w',
      task (createReleaseDir o E) ctx w = (inr ctx, w')
      ∧ (∀ n, n ∈ fs.entries (buildDir o) (files w) →
           files w' !! Path.join (buildDir o) n
           = if bool_decide (n = expected)
             then files w !! Path.join (buildDir o) n else None)
      ∧ (Str.has_char "/" expected = true →
         (∀ n, n ∈ fs.entries (buildDir o) (files w) → n ∉ imagePaths E)
         ∧ (∀ n, n ∈ fs.entries (buildDir o) (files w) →
              files w' !! Path.join (buildDir o) n = None)
         ∧ fs.entries (buildDir o) (files w') = [])
      ∧ (Str.has_char "/" expected = false → Path.entryName archive →
         expected = archive
         ∧ files w' !! Path.join (buildDir o) archive
           = files w !! Path.join (buildDir o) archive).
Proof.
  intros Hm Ha HE Hdir Hreg archive expected.
  destruct (prologue_inr o E HE)
    as (t & m' & c & _ & Hm' & _ & _ & _ & _ & _ & _ & Hamd & _ & Harch & _).
  rewrite Hm in Hm'. injection Hm' as <-. rewrite Ha in Harch.
  fold archive in Hamd. fold expected in Hamd.
  assert (imagePaths E = [expected]) as Hpaths.
  { unfold imagePaths. by rewrite Harch, Hamd. }
  split; [done|].
  exists (setFiles (cleaned o E (files w)) w).
  assert (∀ n, Path.entryName n →
            cleaned o E (files w) !! Path.join (buildDir o) n
            = if bool_decide (n = expected)
              then files w !! Path.join (buildDir o) n else None) as Hclean.
  { intros n Hn. rewrite cleaned_entry by done. rewrite Hpaths.
    apply (f_equal (λ b : bool,
             if b then files w !! Path.join (buildDir o) n else None)).
    apply bool_decide_ext. apply list_elem_of_singleton. }
  split_and!.
  - apply createReleaseDir_ok; [done|].
    intros n Hn _ Hs. apply Hreg, elem_of_entries. by split.
  - intros n [Hn _]%elem_of_entries. by apply Hclean.
  - intros Hsep.
    assert (∀ n, Path.entryName n → n ≠ expected) as Hnever.
    { intros n [Hn _] ->. unfold Path.sep in Hn. congruence. }
    split_and!.
    + intros n [Hn _]%elem_of_entries. rewrite Hpaths.
      intros Heq%list_elem_of_singleton. by apply (Hnever n).
    + intros n [Hn _]%elem_of_entries. cbn [files setFiles].
      rewrite Hclean by done. by rewrite bool_decide_eq_false_2 by auto.
    + apply elem_of_nil_inv. intros n [Hn [x Hx]]%elem_of_entries.
      cbn [files setFiles] in Hx. rewrite Hclean in Hx by done.
      by rewrite bool_decide_eq_false_2 in Hx by auto.
  - intros Hsep Hentry.
    assert (expected = archive) as Hbare.
    { unfold expected in *. rewrite join_entry in Hsep |- * by done.
      destruct (dirPrefix_shape (buildDir o)) as [->|[x Hx]]; [done|].
      rewrite Hx, !has_char_app in Hsep. simpl in Hsep.
      by rewrite orb_true_r in Hsep. }
    split; [done|]. cbn [files setFiles]. rewrite Hclean by done.
    replace (Path.join (buildDir o) archive) with expected by done.
    by rewrite bool_decide_eq_true_2.
Qed.

Lemma clean_without_architectures_witness :
  let C := exampleCollaborators (exampleManifest None) None None (inr tt) in
  let o := exampleOptions "pkg/build_1.0.0" false None in
  let w := exampleWorld
    [("pkg/build_1.0.0/foo_1.0.0_linux-amd64.txz", File "amd64 image");
     ("pkg/build_1.0.0/notes.txt", File "stale")] in
  ∃ E w',
    prologue o = inr E
    ∧ "foo_1.0.0_linux-amd64.txz" ∈ fs.entries (buildDir o) (files w)
    ∧ task (createReleaseDir o E) emptyCtx w = (inr emptyCtx, w')
    ∧ files w' !! "pkg/build_1.0.0/foo_1.0.0_linux-amd64.txz" = None
    ∧ fs.entries (buildDir o) (files w') = [].
Proof.
  intros C o w.
  assert (∀ n, n ∈ fs.entries (buildDir o) (files w) →
               isFile (files w) (Path.join (buildDir o) n)) as Hreg.
  { intros n Hn. vm_compute in Hn.
    repeat (apply elem_of_cons in Hn as [->|Hn]);
      [eexists; vm_compute; reflexivity..|apply elem_of_nil in Hn as []]. }
  assert (mkdirPossible (buildDir o) (files w)) as Hdir by mkdir_possible.
  assert ("foo_1.0.0_linux-amd64.txz" ∈ fs.entries (buildDir o) (files w))
    as Hin.
  { apply elem_of_entries. split; [vm_compute; intuition discriminate|].
    eexists. vm_compute. reflexivity. }
  eexists.
  destruct (@clean_without_architectures C o (exampleManifest None) _
              emptyCtx w eq_refl eq_refl eq_refl Hdir Hreg)
    as (_ & w' & Hrun & _ & Hsweep & _).
  destruct (Hsweep eq_refl) as (_ & Hgone & Hnil).
  exists w'. split_and!; [reflexivity|exact Hin|exact Hrun| |exact Hnil].
  apply (Hgone _ Hin).
Defined.

(** C10, as stated, fails: with the working directory as build directory
    the path of the default-architecture archive is no absolute path but the
    bare name of the archive; the name read from the directory matches it,
    and the archive built before is kept. *)
Lemma clean_in_working_directory_keeps_archive :
  let C := exampleCollaborators (exampleManifest None) None None (inr tt) in
  let o := {| buildDir := "."; ipfsProvider := "ipfs-provider";
              swarmProvider := "swarm-provider"; userTimeout := "60min";
              uploadToSwarm := false; skipSave := None; skipUpload := None;
              dir := "../pkg" |} in
  let w := {| files := list_to_map
                [("foo_1.0.0_linux-amd64.txz", File "amd64 image");
                 ("notes.txt", File "stale")];
              releaseRecords := []; console := []; built := [];
              output := [] |} in
  ∃ E w',
    prologue o = inr E
    ∧ architectures E = None
    ∧ Path.isAbsolute (imagePathAmd E) = false
    ∧ "foo_1.0.0_linux-amd64.txz" ∈ fs.entries (buildDir o) (files w)
    ∧ "foo_1.0.0_linux-amd64.txz" ∈ imagePaths E
    ∧ task (createReleaseDir o E) emptyCtx w = (inr emptyCtx, w')
    ∧ files w' !! "foo_1.0.0_linux-amd64.txz" = Some (File "amd64 image")
    ∧ files w' !! "notes.txt" = None.
Proof.
  intros C o w. eexists. eexists. split; [vm_compute; reflexivity|].
  split_and!; [reflexivity|reflexivity| | |vm_compute; reflexivity..].
  - apply elem_of_entries. split; [vm_compute; intuition discriminate|].
    eexists. vm_compute. reflexivity.
  - vm_compute. apply elem_of_cons. by left.
Qed.

(** ** Frames: what a task body leaves alone *)

#[global] Instance sameRecords_preorder : PreOrder sameRecords.
Proof. split; [by intros x|]. unfold sameRecords. intros x y z. congruence. Qed.

#[global] Instance sameConsole_preorder : PreOrder sameConsole.
Proof. split; [by intros x|]. unfold sameConsole. intros x y z. congruence. Qed.

#[global] Instance sameBuilt_preorder : PreOrder sameBuilt.
Proof. split; [by intros x|]. unfold sameBuilt. intros x y z. congruence. Qed.

#[global] Instance sameFiles_preorder : PreOrder sameFiles.
Proof. split; [by intros x|]. unfold sameFiles. intros x y z. congruence. Qed.

#[global] Instance onlyFiles_preorder : PreOrder onlyFiles.
Proof.
  split; [by intros x|]. intros x y z (?&?&?) (?&?&?).
  split_and!; by etrans.
Qed.

#[global] Instance growing_preorder : PreOrder growing.
Proof. split; [by intros x p|]. intros x y z Hxy Hyz p Hp. by apply Hyz, Hxy. Qed.

Section Respects.
Context (R : relation World) `{!PreOrder R}.

Lemma respects_ret {A} (a : A) : respects R (mret a).
Proof. by intros w r w' [= <- <-]. Qed.

Lemma respects_throw {A} e : respects R (@throw A e).
Proof. by intros w r w' [= <- <-]. Qed.

Lemma respects_liftResult {A} (x : Result A) : respects R (liftResult x).
Proof. by intros w r w' [= <- <-]. Qed.

Lemma respects_getFiles : respects R getFiles.
Proof. by intros w r w' [= <- <-]. Qed.

Lemma respects_modify f : (∀ w, R w (f w)) → respects R (modify f).
Proof. by intros Hf w r w' [= <- <-]. Qed.

Lemma respects_bind {A B} (m : M A) (k : A → M B) :
  respects R m → (∀ a, respects R (k a)) → respects R (m ≫= k).
Proof.
  intros Hm Hk w r w'. rewrite run_bind.
  destruct (m w) as [[e|a] w1] eqn:Em.
  - intros [= <- <-]. by eapply Hm.
  - intros Hka. etrans; [by eapply Hm|by eapply Hk].
Qed.

Lemma respects_tryCatch {A} (m : M A) h :
  respects R m → (∀ e, respects R (h e)) → respects R (tryCatch m h).
Proof.
  intros Hm Hh w r w'. unfold tryCatch.
  destruct (m w) as [[e|a] w1] eqn:Em.
  - intros He. etrans; [by eapply Hm|by eapply Hh].
  - intros [= <- <-]. by eapply Hm.
Qed.

Lemma respects_forOf {A} (l : list A) body :
  (∀ x, respects R (body x)) → respects R (forOf l body).
Proof.
  intros Hb. induction l as [|x l IH]; [apply respects_ret|].
  simpl. apply respects_bind; [apply Hb|done].
Qed.

Lemma respects_runTasks ts ctx :
  (∀ t c, t ∈ ts → truthyFlag (skip t) = false → respects R (task t c)) →
  respects R (runTasks ts ctx).
Proof.
  revert ctx. induction ts as [|t ts IH]; intros ctx Ht;
    [apply respects_ret|].
  simpl. destruct (truthyFlag (skip t)) eqn:Es.
  - apply IH. intros t' c Hin. apply Ht. by right.
  - apply respects_bind; [apply Ht; [by left|done]|].
    intros c. apply IH. intros t' c' Hin. apply Ht. by right.
Qed.

End Respects.

(** The calls of [fs] touch nothing but the files. *)
Section FilesOnly.
Context (R : relation World) `{!PreOrder R}.
Hypothesis blind : ∀ w f, R w (setFiles f w).

Ltac respects_cases :=
  repeat match goal with
         | |- respects _ (if ?b then _ else _) => destruct b
         | |- respects _ (match ?x with _ => _ end) => destruct x
         end.

Lemma mkdirSync_respects d : respects R (fs.mkdirSync d).
Proof.
  apply (respects_bind R); [apply (respects_getFiles R)|]. intros fsys.
  respects_cases; (apply (respects_throw R) || by apply (respects_modify R)).
Qed.

Lemma readdirSync_respects d : respects R (fs.readdirSync d).
Proof.
  apply (respects_bind R); [apply (respects_getFiles R)|]. intros fsys.
  respects_cases; (apply (respects_throw R) || apply (respects_ret R)).
Qed.

Lemma unlinkSync_respects p : respects R (fs.unlinkSync p).
Proof.
  apply (respects_bind R); [apply (respects_getFiles R)|]. intros fsys.
  destruct (fsys !! p) as [[?|]|];
    (apply (respects_throw R) || by apply (respects_modify R)).
Qed.

Lemma existsSync_respects p : respects R (fs.existsSync p).
Proof.
  apply (respects_bind R); [apply (respects_getFiles R)|]. intros fsys.
  apply (respects_ret R).
Qed.

Lemma writeFileSync_respects p data : respects R (fs.writeFileSync p data).
Proof.
  apply (respects_bind R); [apply (respects_getFiles R)|]. intros fsys.
  respects_cases; (apply (respects_throw R) || by apply (respects_modify R)).
Qed.

Lemma copyFileSync_respects src dest : respects R (fs.copyFileSync src dest).
Proof.
  apply (respects_bind R); [apply (respects_getFiles R)|]. intros fsys.
  destruct (fsys !! src) as [[?|]|];
    (apply (respects_throw R) || apply writeFileSync_respects).
Qed.

End FilesOnly.

Lemma onlyFiles_blind w f : onlyFiles w (setFiles f w).
Proof. done. Qed.

(** Writing and copying lose no file. *)
Lemma insert_file_growing w p data :
  growing w (setFiles (<[p := File data]> (files w)) w).
Proof.
  intros q [x Hq]. unfold isFile. simpl.
  destruct (decide (p = q)) as [->|].
  - rewrite lookup_insert_eq. by eexists.
  - rewrite lookup_insert_ne by done. by eexists.
Qed.

(** What [fs.writeFileSync] does, whether it returns or throws. *)
Lemma writeFileSync_run p data w :
  fs.writeFileSync p data w
  = if fs.writable (files w) p
    then (inr tt, setFiles (<[p := File data]> (files w)) w)
    else (inl (fs.openError (files w) p), w).
Proof.
  unfold fs.writeFileSync. rewrite run_bind. simpl.
  by destruct (fs.writable (files w) p).
Qed.

Lemma writeFileSync_growing p data : respects growing (fs.writeFileSync p data).
Proof.
  intros w r w'. rewrite writeFileSync_run.
  destruct (fs.writable (files w) p); intros [= <- <-];
    first [apply insert_file_growing | reflexivity].
Qed.

Lemma copyFileSync_growing src dest :
  respects growing (fs.copyFileSync src dest).
Proof.
  intros w r w'. unfold fs.copyFileSync. rewrite run_bind. simpl.
  destruct (files w !! src) as [[?|]|]; [apply writeFileSync_growing|..];
    by intros [= <- <-].
Qed.

Lemma existsSync_growing p : respects growing (fs.existsSync p).
Proof. by intros w r w' [= <- <-]. Qed.

Lemma yields_ret ctx : yields ctx (mret ctx).
Proof. by intros w ctx' w' [= <- <-]. Qed.

Lemma yields_bind {A} (m : M A) k ctx :
  (∀ a, yields ctx (k a)) → yields ctx (m ≫= k).
Proof.
  intros Hk w ctx' w' (a & w1 & _ & Hka)%run_bind_inr. by eapply Hk.
Qed.

Ltac yields := repeat (apply yields_bind; intros); apply yields_ret.

(** Goals [respects R m] for a body [m] made of the calls above. *)
Ltac frame_with R lemmas :=
  repeat first
    [ lemmas
    | apply (respects_ret R)
    | apply (respects_throw R) | apply (respects_liftResult R)
    | apply (respects_getFiles R) | apply (respects_forOf R)
    | apply (respects_tryCatch R) | apply (respects_bind R)
    | match goal with
      | |- ∀ _, _ => intro
      | |- respects _ (match ?x with _ => _ end) => destruct x
      end ].

Ltac frame_onlyFiles :=
  frame_with onlyFiles
    ltac:(first
      [ apply (writeFileSync_respects onlyFiles onlyFiles_blind)
      | apply (copyFileSync_respects onlyFiles onlyFiles_blind)
      | apply (existsSync_respects onlyFiles)
      | apply (unlinkSync_respects onlyFiles onlyFiles_blind)
      | apply (mkdirSync_respects onlyFiles onlyFiles_blind)
      | apply (readdirSync_respects onlyFiles)
      | apply (respects_modify onlyFiles); by intros ? ]).

Ltac frame_growing :=
  frame_with growing
    ltac:(first
      [ apply writeFileSync_growing | apply copyFileSync_growing
      | apply existsSync_growing
      | apply (respects_modify growing); intros ? ? Hp; exact Hp ] ).

(** ** The tasks one by one *)

Section Tasks.
Context {C : Collaborators}.
Variables (o : Options) (E : Env).

Lemma createReleaseDir_onlyFiles ctx :
  respects onlyFiles (task (createReleaseDir o E) ctx).
Proof. simpl. frame_onlyFiles. Qed.

Lemma copyFilesAndValidate_onlyFiles ctx :
  respects onlyFiles (task (copyFilesAndValidate o E) ctx).
Proof. simpl. unfold writeCompose, writeManifest. frame_onlyFiles. Qed.

Lemma copyFilesAndValidate_growing ctx :
  respects growing (task (copyFilesAndValidate o E) ctx).
Proof.
  unfold copyFilesAndValidate, writeCompose, writeManifest. cbn [task].
  frame_growing.
Qed.

Lemma copyFilesAndValidate_yields ctx :
  yields ctx (task (copyFilesAndValidate o E) ctx).
Proof. simpl. yields. Qed.

Lemma uploadTask_onlyFiles ctx : respects onlyFiles (task (uploadTask o E) ctx).
Proof. unfold uploadTask. destruct (uploadToSwarm o); simpl; frame_onlyFiles. Qed.

Lemma uploadTask_growing ctx : respects growing (task (uploadTask o E) ctx).
Proof.
  unfold uploadTask, uploadToSwarmTask, uploadToIpfsTask.
  destruct (uploadToSwarm o); cbn [task]; frame_growing.
Qed.

Lemma runBuilder_growing b args : respects growing (runBuilder b args).
Proof. unfold runBuilder. frame_growing. Qed.

End Tasks.

(** ** Builds, upload, save *)

Section Stages.
Context {C : Collaborators}.
Variables (o : Options) (E : Env).

(** A build that returns: the builder has succeeded, and its archive is
    written unless saving is skipped or an archive is there already. *)
Lemma runBuilder_inr b args w u w' :
  runBuilder b args w = (inr u, w') →
  ∃ data, b args = inr data
    ∧ w' = addBuilt (Build.destPath args)
             (if truthyFlag (Build.skipSave args)
                 || fs.isFileb (files w) (Build.destPath args)
              then w
              else setFiles (<[Build.destPath args := File data]> (files w))
                     w).
Proof.
  unfold runBuilder. intros (data & w1 & Hb & Hrest)%run_bind_inr.
  unfold liftResult in Hb. injection Hb as Hb <-.
  apply run_bind_inr in Hrest as ([] & w2 & Hwr & Hmod).
  injection Hmod as _ <-. exists data. split; [done|]. f_equal.
  destruct (truthyFlag (Build.skipSave args)); [by injection Hwr as <-|].
  rewrite run_bind in Hwr. cbn [getFiles] in Hwr.
  destruct (fs.isFileb (files w) (Build.destPath args));
    [by injection Hwr as <-|].
  cbn [orb].
  rewrite writeFileSync_run in Hwr.
  destruct (fs.writable (files w) (Build.destPath args)); by simplify_eq.
Qed.

(** A build that returns has written nothing but its archive. *)
Lemma build_step_inr b args ctx w ctx' w' :
  (runBuilder b args ≫= λ _ : unit, (mret ctx : M Ctx)) w = (inr ctx', w') →
  ctx' = ctx
  ∧ built w' = built w ++ [Build.destPath args]
  ∧ (truthyFlag (Build.skipSave args) = false →
     isFile (files w') (Build.destPath args))
  ∧ sameRecords w w' ∧ sameConsole w w' ∧ growing w w'.
Proof.
  intros (u & w1 & Hb & Hret)%run_bind_inr. injection Hret as <- <-.
  pose proof (runBuilder_growing b args _ _ _ Hb) as Hgrow.
  apply runBuilder_inr in Hb as (data & _ & ->).
  split_and!; [done| | | | |done].
  - by destruct (_ || _).
  - intros ->. cbn [orb].
    destruct (fs.isFileb (files w) (Build.destPath args)) eqn:Hf.
    + by apply isFileb_spec.
    + exists data. simpl. apply lookup_insert_eq.
  - by destruct (_ || _).
  - by destruct (_ || _).
Qed.

Lemma buildArchitectures_inr archs ctx w ctx' w' :
  runTasks (map (buildArchitecture o E) archs) ctx w = (inr ctx', w') →
  ctx' = ctx
  ∧ built w' = built w ++ map (archivePath o E) archs
  ∧ (truthyFlag (skipSave o) = false →
     ∀ arch, arch ∈ archs → isFile (files w') (archivePath o E arch))
  ∧ sameRecords w w' ∧ sameConsole w w' ∧ growing w w'.
Proof.
  revert ctx w. induction archs as [|arch archs IH]; intros ctx w.
  - intros [= <- <-]. rewrite app_nil_r. split_and!; try done.
    by intros _ arch ?%elem_of_nil.
  - simpl. intros (ctx1 & w1 & Hone & Hrest)%run_bind_inr.
    apply run_bind_inr in Hone as (ctx2 & w2 & Hone & Hret).
    injection Hret as <- <-.
    apply build_step_inr in Hone as (-> & Hb & Hf & Hr & Hc & Hg).
    apply IH in Hrest as (-> & Hb' & Hf' & Hr' & Hc' & Hg').
    split_and!; [done| | |by etrans..].
    + rewrite Hb', Hb. simpl. by rewrite <- app_assoc.
    + intros Hs a [->|Ha]%elem_of_cons; [by apply Hg', Hf|by apply Hf'].
Qed.

Lemma buildTasks_inr ctx w ctx' w' :
  runTasks (buildTasks o E) ctx w = (inr ctx', w') →
  ctx' = ctx
  ∧ built w' = built w ++ buildDestinations o E
  ∧ (truthyFlag (skipSave o) = false →
     ∀ p, p ∈ buildDestinations o E → isFile (files w') p)
  ∧ sameRecords w w' ∧ sameConsole w w' ∧ growing w w'.
Proof.
  unfold buildTasks, buildDestinations.
  destruct (architectures E) as [archs|].
  - intros (-> & Hb & Hf & Hr & Hc & Hg)%buildArchitectures_inr.
    split_and!; [done|done| |done..].
    intros Hs p (arch & -> & Ha)%list_elem_of_fmap. by apply Hf.
  - simpl. intros (ctx1 & w1 & Hone & Hret)%run_bind_inr.
    injection Hret as <- <-.
    apply build_step_inr in Hone as (-> & Hb & Hf & Hr & Hc & Hg).
    split_and!; [done|done| |done..].
    intros Hs p ->%list_elem_of_singleton. by apply Hf.
Qed.

Lemma uploadTask_skip : skip (uploadTask o E) = skipUpload o.
Proof. unfold uploadTask. by destruct (uploadToSwarm o). Qed.

Lemma uploadTask_inr ctx w ctx' w' :
  runTasks [uploadTask o E] ctx w = (inr ctx', w') →
  (truthyFlag (skipUpload o) = true ∧ ctx' = ctx ∧ w' = w)
  ∨ (truthyFlag (skipUpload o) = false
     ∧ (∃ h, ctx' = setReleaseHash h ctx)
     ∧ onlyFiles w w' ∧ growing w w').
Proof.
  simpl. rewrite uploadTask_skip.
  destruct (truthyFlag (skipUpload o)); [intros [= <- <-]; by left|].
  intros (ctx1 & w1 & Hup & Hret)%run_bind_inr.
  apply run_ret_inr in Hret as [-> ->].
  right. split_and!; [done| |by eapply uploadTask_onlyFiles
                           |by eapply uploadTask_growing].
  unfold uploadTask in Hup. destruct (uploadToSwarm o); simpl in Hup.
  - apply run_bind_inr in Hup as (f & w2 & _ & Hup).
    apply run_bind_inr in Hup as (u & w3 & _ & Hup).
    apply run_bind_inr in Hup as (h & w4 & _ & Hret).
    apply run_ret_inr in Hret as [-> _]. by exists h.
  - apply run_bind_inr in Hup as (b & w2 & _ & Hup).
    apply run_bind_inr in Hup as (u & w3 & _ & Hup).
    apply run_bind_inr in Hup as (f & w4 & _ & Hup).
    apply run_bind_inr in Hup as (u' & w5 & _ & Hup).
    apply run_bind_inr in Hup as (h & w6 & _ & Hret).
    apply run_ret_inr in Hret as [-> _]. by exists h.
Qed.

(** "Save upload results", in full. *)
Lemma saveUploadResults_run ctx w :
  task (saveUploadResults o E) ctx w
  = match releaseRecordStore (recordOf o E ctx) with
    | inl e => (inl e, w)
    | inr _ =>
        (inr {| releaseHash := releaseHash ctx;
                releaseMultiHash := releaseHash ctx |},
         match pruneCache with
         | inl e => addConsole ("Error on pruneCache", e)
                      (addRecord (recordOf o E ctx) w)
         | inr _ => addRecord (recordOf o E ctx) w
         end)
    end.
Proof.
  simpl. unfold addReleaseRecord, tryCatch, liftResult, recordOf.
  rewrite !run_bind.
  destruct (releaseRecordStore _) as [e|[]]; [done|]. simpl.
  rewrite !run_bind. by destruct pruneCache as [e|[]].
Qed.

End Stages.

(** ** The whole run *)

Lemma runPipeline_split `{C : Collaborators} o w :
  runPipeline o w
  = match prologue o with
    | inl e => (inl e, w)
    | inr E =>
        match runTasks ([createReleaseDir o E; copyFilesAndValidate o E]
                        ++ buildTasks o E ++ [uploadTask o E]) emptyCtx w with
        | (inl e, w') => (inl e, w')
        | (inr ctx, w') => task (saveUploadResults o E) ctx w'
        end
    end.
Proof.
  unfold runPipeline, buildAndUpload, andThen.
  destruct (prologue o) as [e|E]; [done|].
  unfold tasks.
  replace ([createReleaseDir o E; copyFilesAndValidate o E]
           ++ buildTasks o E ++ [uploadTask o E; saveUploadResults o E])
    with (([createReleaseDir o E; copyFilesAndValidate o E]
           ++ buildTasks o E ++ [uploadTask o E])
          ++ [saveUploadResults o E])
    by (by rewrite <- !app_assoc).
  rewrite run_tasks_app.
  destruct (runTasks _ emptyCtx w) as [[e|ctx] w']; [done|].
  by apply run_tasks_one.
Qed.

(** The stages of a run that returns. *)
Lemma runPipeline_inr `{C : Collaborators} o w ctx w' :
  runPipeline o w = (inr ctx, w') →
  ∃ E w1 w2 w3 ctx4 w4,
    prologue o = inr E
    ∧ task (createReleaseDir o E) emptyCtx w = (inr emptyCtx, w1)
    ∧ task (copyFilesAndValidate o E) emptyCtx w1 = (inr emptyCtx, w2)
    ∧ runTasks (buildTasks o E) emptyCtx w2 = (inr emptyCtx, w3)
    ∧ runTasks [uploadTask o E] emptyCtx w3 = (inr ctx4, w4)
    ∧ task (saveUploadResults o E) ctx4 w4 = (inr ctx, w').
Proof.
  rewrite runPipeline_split. destruct (prologue o) as [e|E]; [done|].
  rewrite run_tasks_app.
  destruct (runTasks [_; _] emptyCtx w) as [[e|ctx2] w2] eqn:H12; [done|].
  rewrite run_tasks_app.
  destruct (runTasks (buildTasks o E) ctx2 w2) as [[e|ctx3] w3] eqn:H3;
    [done|].
  destruct (runTasks [uploadTask o E] ctx3 w3) as [[e|ctx4] w4] eqn:H4;
    [done|].
  intros Hsave.
  simpl in H12. apply run_bind_inr in H12 as (ctx1 & w1 & H1 & H2).
  apply run_bind_inr in H2 as (ctx2' & w2' & H2 & Hret).
  injection Hret as <- <-.
  pose proof (createReleaseDir_inr _ _ _ _ _ _ H1) as [-> _].
  pose proof (copyFilesAndValidate_yields _ _ _ _ _ _ H2) as ->.
  pose proof (buildTasks_inr _ _ _ _ _ _ H3) as [-> _].
  by exists E, w1, w2', w3, ctx4, w4.
Qed.

(** The reports of progress set [task.output] and touch nothing else. *)
Lemma reportProgress_run `{C : Collaborators} (l : list Percent) w :
  forOf l (λ percent, modify (setOutput (percentToMessage percent))) w
  = (inr tt, reported l w).
Proof.
  unfold reported. revert w. induction l as [|x l IH]; intros w; [done|].
  simpl. rewrite run_bind. simpl. apply IH.
Qed.

Lemma reported_files `{C : Collaborators} (l : list Percent) w :
  files (reported l w) = files w.
Proof.
  unfold reported. revert w. induction l as [|x l IH]; intros w; [done|].
  simpl. by rewrite IH.
Qed.

Lemma existsSync_run p w :
  fs.existsSync p w
  = (inr (bool_decide (is_Some (files w !! p)) || fs.implicitDir p), w).
Proof. reflexivity. Qed.

Lemma copyFileSync_run src dest w :
  fs.copyFileSync src dest w
  = match files w !! src with
    | Some (File data) => fs.writeFileSync dest data w
    | Some Directory =>
        (inl (Error "EISDIR: illegal operation on a directory, copyfile"), w)
    | None =>
        (inl (Error "ENOENT: no such file or directory, copyfile"), w)
    end.
Proof.
  unfold fs.copyFileSync. rewrite run_bind. simpl.
  by destruct (files w !! src) as [[?|]|].
Qed.

(** The end of both upload tasks: the reports, the upload, the hash. *)
Lemma upload_run `{C : Collaborators} (progress : gmap string node → list Percent)
  (add : gmap string node → Result string) ctx w :
  (fsys ← getFiles;
   forOf (progress fsys)
     (λ percent, modify (setOutput (percentToMessage percent))) ;;
   h ← liftResult (add fsys);
   mret (setReleaseHash h ctx)) w
  = match add (files w) with
    | inl e => (inl e, reported (progress (files w)) w)
    | inr h => (inr (setReleaseHash h ctx), reported (progress (files w)) w)
    end.
Proof.
  rewrite run_bind. cbn [getFiles]. rewrite run_bind, reportProgress_run.
  rewrite run_bind. unfold liftResult. by destruct (add (files w)).
Qed.

Lemma uploadToSwarmTask_run `{C : Collaborators} o ctx w :
  task (uploadToSwarmTask o) ctx w
  = let w' := reported (swarmProgress (buildDir o) (swarmProvider o) (files w))
                w in
    match swarmAddDirFromFs (buildDir o) (swarmProvider o) (files w) with
    | inl e => (inl e, w')
    | inr h => (inr (setReleaseHash h ctx), w')
    end.
Proof.
  cbn [task uploadToSwarmTask].
  apply (upload_run (swarmProgress (buildDir o) (swarmProvider o))
           (swarmAddDirFromFs (buildDir o) (swarmProvider o))).
Qed.

(** What the upload tasks do to the files, whether the upload succeeds or
    not. *)
Lemma uploadToSwarmTask_files `{C : Collaborators} o ctx w :
  files (task (uploadToSwarmTask o) ctx w).2 = files w.
Proof.
  rewrite uploadToSwarmTask_run. cbv zeta.
  destruct (swarmAddDirFromFs _ _ _); apply reported_files.
Qed.

Lemma uploadToIpfsTask_files `{C : Collaborators} o E ctx w :
  files (task (uploadToIpfsTask o E) ctx w).2
  = match files w !! imagePathAmd E with
    | Some (File data) =>
        if fs.writable (files w) (imagePathLegacy E)
        then <[imagePathLegacy E := File data]> (files w) else files w
    | _ => files w
    end.
Proof.
  cbn [task uploadToIpfsTask]. rewrite run_bind, existsSync_run.
  rewrite run_bind.
  assert (∀ w1 : World,
    files ((fsys ← getFiles;
            forOf (ipfsProgress (buildDir o) (ipfsProvider o) fsys)
              (λ percent, modify (setOutput (percentToMessage percent))) ;;
            h ← liftResult (ipfsAddFromFs (buildDir o) (ipfsProvider o) fsys);
            mret (setReleaseHash h ctx)) w1).2 = files w1) as Hrest.
  { intros w1.
    rewrite (upload_run (ipfsProgress (buildDir o) (ipfsProvider o))
               (ipfsAddFromFs (buildDir o) (ipfsProvider o))).
    destruct (ipfsAddFromFs _ _ _); apply reported_files. }
  destruct (bool_decide _ || _) eqn:Hex.
  - rewrite copyFileSync_run.
    destruct (files w !! imagePathAmd E) as [[data|]|] eqn:Hamd; [|done..].
    rewrite writeFileSync_run.
    destruct (fs.writable (files w) (imagePathLegacy E)); [|done].
    by rewrite Hrest.
  - cbn [mret M_ret]. rewrite Hrest.
    destruct (files w !! imagePathAmd E) as [[data|]|] eqn:Hamd; [|done..].
    rewrite bool_decide_eq_true_2 in Hex by eauto. done.
Qed.

(** What a run that returns has done. *)
Lemma runPipeline_summary `{C : Collaborators} o w ctx w' :
  runPipeline o w = (inr ctx, w') →
  ∃ E, prologue o = inr E
    ∧ built w' = built w ++ buildDestinations o E
    ∧ (truthyFlag (skipSave o) = false →
       ∀ p, p ∈ buildDestinations o E → isFile (files w') p)
    ∧ releaseRecords w' = releaseRecords w ++ [recordOf o E ctx]
    ∧ releaseMultiHash ctx = releaseHash ctx
    ∧ (truthyFlag (skipUpload o) = true → releaseHash ctx = None)
    ∧ (truthyFlag (skipUpload o) = false → is_Some (releaseHash ctx)).
Proof.
  intros (E & w1 & w2 & w3 & ctx4 & w4 & HE & H1 & H2 & H3 & H4 & H5)
    %runPipeline_inr.
  exists E. split; [done|].
  apply createReleaseDir_onlyFiles in H1 as (Hr1 & _ & Hb1).
  apply copyFilesAndValidate_onlyFiles in H2 as (Hr2 & _ & Hb2).
  apply buildTasks_inr in H3 as (_ & Hb3 & Hf3 & Hr3 & _ & _).
  rewrite saveUploadResults_run in H5.
  destruct (releaseRecordStore _) as [?|[]]; [done|].
  injection H5 as <- <-.
  assert (built w4 = built w3 ∧ releaseRecords w4 = releaseRecords w3
          ∧ growing w3 w4
          ∧ (truthyFlag (skipUpload o) = true → releaseHash ctx4 = None)
          ∧ (truthyFlag (skipUpload o) = false → is_Some (releaseHash ctx4)))
    as (Hb4 & Hr4 & Hg4 & Hskip & Hup).
  { apply uploadTask_inr in H4
      as [(Hs & -> & ->)|(Hs & [h ->] & (Hr & _ & Hb) & Hg)].
    - split_and!; [done..| |]; [done|]. intros ?; congruence.
    - split_and!; [done..| |]; [intros ?; congruence|by eexists]. }
  assert (releaseRecords w3 = releaseRecords w) as Hr.
  { unfold sameRecords in *. congruence. }
  split_and!; [| | |done..].
  - destruct pruneCache; simpl; congruence.
  - intros Hs p Hp. apply (Hf3 Hs), Hg4 in Hp. by destruct pruneCache.
  - destruct pruneCache; simpl; by rewrite Hr4, Hr.
Qed.

(** * More of the code *)

(** ** Names of archives, domains and tags *)

Lemma chars_app s t : Str.chars (s +:+ t) = Str.chars s ++ Str.chars t.
Proof.
  induction s as [|a s IH]; [done|].
  rewrite append_cons. unfold Str.chars in *. simpl. by rewrite IH.
Qed.

Lemma chars_inj s t : Str.chars s = Str.chars t → s = t.
Proof.
  intros H. rewrite <- (string_of_list_ascii_of_string s),
    <- (string_of_list_ascii_of_string t).
  unfold Str.chars in H. by rewrite H.
Qed.

Lemma append_inj_r s t u : s +:+ u = t +:+ u → s = t.
Proof.
  intros H. apply chars_inj. apply (f_equal Str.chars) in H.
  rewrite !chars_app in H. by apply (inj (λ l, l ++ Str.chars u)) in H.
Qed.

Lemma has_char_chars c s : Str.has_char c s = true ↔ c ∈ Str.chars s.
Proof.
  unfold Str.chars. induction s as [|a s IH]; simpl.
  - split; [done|by intros ?%elem_of_nil].
  - rewrite elem_of_cons. destruct (Ascii.eqb a c) eqn:E.
    + apply Ascii.eqb_eq in E as ->. split; [by left|done].
    + apply Ascii.eqb_neq in E. rewrite IH.
      split; [by right|by intros [->|?]].
Qed.

(** No archive name ends as the legacy name does. *)
Lemma txz_is_not_tar_xz s t : s +:+ ".txz" ≠ t +:+ ".tar.xz".
Proof.
  intros H. apply (f_equal Str.chars) in H. rewrite !chars_app in H.
  change (Str.chars ".txz") with (["."%char] ++ ["t"; "x"; "z"]%char) in H.
  change (Str.chars ".tar.xz")
    with (["."; "t"; "a"; "r"]%char ++ ["."; "x"; "z"]%char) in H.
  rewrite !app_assoc in H. by apply app_inj_2 in H as [_ [=]].
Qed.

Lemma getArchTag_no_slash arch : Str.has_char "/" (getArchTag arch) = false.
Proof.
  induction arch as [|c arch IH]; [done|]. simpl.
  destruct (Ascii.eqb c "/") eqn:E; [done|]. by rewrite E.
Qed.

Lemma getArchTag_length arch :
  String.length (getArchTag arch) = String.length arch.
Proof. induction arch as [|c arch IH]; [done|]. simpl. by rewrite IH. Qed.

Lemma getArchTag_inj a a' :
  Str.has_char "-" a = false → Str.has_char "-" a' = false →
  getArchTag a = getArchTag a' → a = a'.
Proof.
  revert a'. induction a as [|c a IH]; intros [|c' a']; try done.
  simpl. destruct (Ascii.eqb c "-") eqn:Ec; [done|].
  destruct (Ascii.eqb c' "-") eqn:Ec'; [done|]. intros Ha Ha' [= Hc Hrest].
  f_equal; [|by apply IH].
  apply Ascii.eqb_neq in Ec, Ec'.
  destruct (Ascii.eqb c "/") eqn:E1, (Ascii.eqb c' "/") eqn:E2;
    try apply Ascii.eqb_eq in E1; try apply Ascii.eqb_eq in E2; congruence.
Qed.

Lemma getImagePath_entryName name version arch :
  Str.has_char Path.sep name = false →
  Str.has_char Path.sep version = false →
  Path.entryName (getImagePath name version arch).
Proof.
  intros Hn Hv. unfold getImagePath.
  assert (Str.has_char "_" (name +:+ "_" +:+ version +:+ "_"
            +:+ getArchTag arch +:+ ".txz") = true) as Hus.
  { rewrite !has_char_app. simpl. by rewrite orb_true_r. }
  split_and!.
  - rewrite !has_char_app, Hn, Hv. unfold Path.sep.
    by rewrite getArchTag_no_slash.
  - intros E. by rewrite E in Hus.
  - intros E. by rewrite E in Hus.
  - intros E. by rewrite E in Hus.
Qed.

Lemma getLegacyImagePath_entryName name version :
  Str.has_char Path.sep name = false →
  Str.has_char Path.sep version = false →
  Path.entryName (getLegacyImagePath name version).
Proof.
  intros Hn Hv. unfold getLegacyImagePath.
  assert (Str.has_char "_" (name +:+ "_" +:+ version +:+ ".tar.xz") = true)
    as Hus.
  { rewrite !has_char_app. simpl. by rewrite orb_true_r. }
  split_and!.
  - by rewrite !has_char_app, Hn, Hv.
  - intros E. by rewrite E in Hus.
  - intros E. by rewrite E in Hus.
  - intros E. by rewrite E in Hus.
Qed.

(** X1. When neither the package name nor the version holds a slash, the
    archive name of any architecture is a single path segment, slashes of
    the architecture included: joined to the build directory it names an
    entry of that very directory. *)
Theorem archive_is_entry_of_build_directory name version arch d :
  Str.has_char "/" name = false →
  Str.has_char "/" version = false →
  Str.has_char "/" (getImagePath name version arch) = false
  ∧ Path.basename (Path.join d (getImagePath name version arch))
    = getImagePath name version arch
  ∧ ∀ fsys : gmap string node,
      is_Some (fsys !! Path.join d (getImagePath name version arch)) →
      getImagePath name version arch ∈ fs.entries d fsys.
Proof.
  intros Hn Hv.
  pose proof (getImagePath_entryName name version arch Hn Hv) as He.
  split_and!; [by destruct He|by apply basename_join_entry|].
  intros fsys Hs. by apply elem_of_entries.
Qed.

Lemma archive_is_entry_of_build_directory_witness :
  Path.basename
    (Path.join "/pkg/build_1.0.0" (getImagePath "foo" "1.0.0" "linux/arm64"))
  = "foo_1.0.0_linux-arm64.txz".
Proof.
  destruct (archive_is_entry_of_build_directory "foo" "1.0.0" "linux/arm64"
              "/pkg/build_1.0.0" eq_refl eq_refl) as (_ & Hb & _).
  rewrite Hb. vm_compute. reflexivity.
Defined.

Lemma archive_name_injective name version a a' :
  Str.has_char "-" a = false →
  Str.has_char "-" a' = false →
  getImagePath name version a = getImagePath name version a' →
  a = a'.
Proof.
  intros Ha Ha'. unfold getImagePath. intros H.
  do 4 apply (inj (String.app _)) in H.
  apply append_inj_r in H. by apply getArchTag_inj.
Qed.

(** X2. Architectures written without a dash get archives of their own:
    for a package name and a version without slash, two of them whose
    archives have the same path in the build directory are the same
    architecture.  (A dash spoils it, since a slash is turned into one.) *)
Theorem archive_name_determines_architecture name version d a a' :
  Str.has_char "/" name = false →
  Str.has_char "/" version = false →
  Str.has_char "-" a = false →
  Str.has_char "-" a' = false →
  Path.join d (getImagePath name version a)
  = Path.join d (getImagePath name version a') →
  a = a'.
Proof.
  intros Hn Hv Ha Ha' Heq.
  apply join_entry_inj in Heq; [|by apply getImagePath_entryName..].
  by eapply archive_name_injective.
Qed.

Lemma archive_name_determines_architecture_witness :
  Path.join "pkg/build_1.0.0" (getImagePath "foo" "1.0.0" "linux/amd64")
  ≠ Path.join "pkg/build_1.0.0" (getImagePath "foo" "1.0.0" "linux/arm64").
Proof.
  intros H.
  pose proof (archive_name_determines_architecture "foo" "1.0.0"
                "pkg/build_1.0.0" "linux/amd64" "linux/arm64"
                eq_refl eq_refl eq_refl eq_refl H) as E.
  discriminate E.
Defined.

Example archive_names_collide_on_dash :
  getImagePath "foo" "1.0.0" "linux/amd64"
  = getImagePath "foo" "1.0.0" "linux-amd64".
Proof. reflexivity. Qed.

(** X4. Within one package, services with different non-empty names get
    different container domains and different image tags. *)
Theorem image_tag_determines_service dnpName s1 s2 version :
  s1 ≠ EmptyString → s2 ≠ EmptyString →
  getImageTag dnpName s1 version = getImageTag dnpName s2 version →
  s1 = s2.
Proof.
  intros H1 H2. unfold getImageTag. cbn [Str.join]. intros H.
  apply append_inj_r in H. revert H. unfold getContainerDomain.
  rewrite (proj2 (is_empty_false s1)), (proj2 (is_empty_false s2)) by done.
  cbn [orb Str.join].
  assert (∀ s, dnpName ≠ s +:+ "." +:+ dnpName) as Hlen.
  { intros s E. apply (f_equal String.length) in E.
    rewrite !length_append in E. simpl in E. lia. }
  repeat case_bool_decide; subst; try done.
  - intros E. by apply Hlen in E.
  - intros E. symmetry in E. by apply Hlen in E.
  - apply append_inj_r.
Qed.

Lemma image_tag_determines_service_witness :
  getImageTag "foo.dnp.dappnode.eth" "web" "1.0.0"
  ≠ getImageTag "foo.dnp.dappnode.eth" "foo.dnp.dappnode.eth" "1.0.0".
Proof.
  intros H.
  assert ("web" ≠ EmptyString) as H1 by done.
  assert ("foo.dnp.dappnode.eth" ≠ EmptyString) as H2 by done.
  pose proof (image_tag_determines_service _ _ _ _ H1 H2 H) as E.
  discriminate E.
Defined.

(** ** More on "Create release dir" *)

Section SweepMore.
Variables (d : string) (keep : list string).

Let body : string → M unit := λ filepath,
  if bool_decide (filepath ∈ keep) then mret tt
  else fs.unlinkSync (Path.join d filepath).

(** The loop only ever unlinks regular files: when it comes to its end,
    every entry it had to unlink was one. *)
Lemma sweep_inr_files l w u w' :
  forOf l body w = (inr u, w') →
  ∀ f, f ∈ l → f ∉ keep → isFile (files w) (Path.join d f).
Proof.
  revert w. induction l as [|g l IH]; intros w; [by intros _ f ?%elem_of_nil|].
  simpl. intros (a & w1 & Hg & Hl)%run_bind_inr f Hf Hk.
  unfold body in Hg. case_bool_decide as Hgk.
  - apply run_ret_inr in Hg as [_ ->].
    apply elem_of_cons in Hf as [->|Hf]; [done|]. by eapply IH.
  - apply unlinkSync_inr in Hg as [Hfile ->].
    apply elem_of_cons in Hf as [->|Hf]; [done|].
    destruct (IH _ Hl f Hf Hk) as [data Hd]. simpl in Hd.
    apply lookup_delete_Some in Hd as [_ Hd]. by exists data.
Qed.

(** Whether it ends or throws, it changes nothing at a path that is not an
    entry of the directory. *)
Lemma sweep_outside l w r w' k :
  (∀ f, f ∈ l → Path.entryName f) →
  (∀ n, Path.entryName n → k ≠ Path.join d n) →
  forOf l body w = (r, w') → files w' !! k = files w !! k.
Proof.
  intros Hl Hk. revert w. induction l as [|g l IH]; intros w.
  - by intros [= <- <-].
  - simpl. rewrite run_bind. unfold body at 1.
    assert (Path.entryName g) as Hg by (apply Hl; by left).
    assert (∀ f, f ∈ l → Path.entryName f) as Hl' by (intros; apply Hl; by right).
    case_bool_decide.
    + simpl. by apply IH.
    + unfold fs.unlinkSync. rewrite run_bind. simpl.
      destruct (files w !! Path.join d g) as [[?|]|];
        [|by intros [= <- <-]..].
      cbv [modify]. intros Hrest%(IH Hl'). rewrite Hrest. simpl.
      apply lookup_delete_ne. intros E. by apply (Hk g).
Qed.

End SweepMore.

Lemma legacy_name_not_kept `{C : Collaborators} o E :
  prologue o = inr E →
  Str.has_char "/" (name E) = false →
  Str.has_char "/" (version E) = false →
  getLegacyImagePath (name E) (version E) ∉ imagePaths E.
Proof.
  intros HE Hn Hv.
  destruct (prologue_inr o E HE)
    as (t & m & c & _ & _ & _ & _ & _ & _ & Hname & Hver & Hamd & _).
  unfold imagePaths. destruct (architectures E) as [archs|].
  - intros (arch & Heq & _)%list_elem_of_fmap. revert Heq.
    unfold getLegacyImagePath, getImagePath.
    rewrite <- !append_assoc. intros Heq. symmetry in Heq.
    by apply txz_is_not_tar_xz in Heq.
  - intros Heq%list_elem_of_singleton. revert Heq.
    rewrite Hamd, <- Hname, <- Hver.
    rewrite join_entry by by apply getImagePath_entryName.
    unfold getLegacyImagePath, getImagePath.
    rewrite <- !append_assoc. intros Heq. symmetry in Heq.
    by apply txz_is_not_tar_xz in Heq.
Qed.

(** X3. "Create release dir" never keeps a legacy-named archive: whatever
    the architectures, a name_version.tar.xz left in the build directory by
    an earlier IPFS upload is gone when the task returns. *)
Theorem stale_legacy_archive_is_unlinked `{C : Collaborators}
  o E ctx w ctx' w' :
  prologue o = inr E →
  Str.has_char "/" (name E) = false →
  Str.has_char "/" (version E) = false →
  task (createReleaseDir o E) ctx w = (inr ctx', w') →
  files w' !! imagePathLegacy E = None.
Proof.
  intros HE Hn Hv [_ ->]%createReleaseDir_inr.
  pose proof (legacy_name_not_kept o E HE Hn Hv) as Hnot.
  destruct (prologue_inr o E HE)
    as (t & m & c & _ & _ & _ & _ & _ & _ & Hname & Hver & _ & Hleg & _).
  rewrite Hleg, <- Hname, <- Hver. simpl.
  rewrite cleaned_entry by by apply getLegacyImagePath_entryName.
  by rewrite bool_decide_eq_false_2.
Qed.

Lemma stale_legacy_archive_is_unlinked_witness :
  let m := exampleManifest (Some ["linux/amd64"]) in
  let C := exampleCollaborators m None None (inr tt) in
  let o := exampleOptions "pkg/build_1.0.0" false None in
  let w := exampleWorld
    [("pkg/build_1.0.0/foo_1.0.0_linux-amd64.txz", File "amd64 image");
     ("pkg/build_1.0.0/foo_1.0.0.tar.xz", File "amd64 image")] in
  ∃ E w',
    prologue o = inr E
    ∧ task (createReleaseDir o E) emptyCtx w = (inr emptyCtx, w')
    ∧ files w !! "pkg/build_1.0.0/foo_1.0.0.tar.xz"
      = Some (File "amd64 image")
    ∧ files w' !! "pkg/build_1.0.0/foo_1.0.0.tar.xz" = None.
Proof.
  intros m C o w.
  destruct (prologue o) as [e|E] eqn:HE; [vm_compute in HE; discriminate HE|].
  destruct (task (createReleaseDir o E) emptyCtx w) as [[e|ctx'] w'] eqn:Hrun.
  { vm_compute in HE. injection HE as <-. vm_compute in Hrun.
    discriminate Hrun. }
  pose proof (createReleaseDir_inr _ _ _ _ _ _ Hrun) as [-> _].
  exists E, w'. split_and!; [done|done|reflexivity|].
  assert (imagePathLegacy E = "pkg/build_1.0.0/foo_1.0.0.tar.xz") as <-.
  { vm_compute in HE. by injection HE as <-. }
  eapply (stale_legacy_archive_is_unlinked o E emptyCtx w); [done| | |done];
    vm_compute in HE; by injection HE as <-.
Defined.

(** X5. With declared architectures, a build directory that can be made
    (its path is not empty, and neither it nor a directory above it is a
    regular file) and that holds regular files only, "Create release dir"
    returns, and of the entries of the build directory it keeps, untouched,
    exactly those named after a declared architecture: this is what lets a
    run resume on the archives of an earlier one. *)
Theorem clean_keeps_declared_archives `{C : Collaborators} o E archs ctx w :
  architectures E = Some archs →
  mkdirPossible (buildDir o) (files w) →
  (∀ n, n ∈ fs.entries (buildDir o) (files w) →
        isFile (files w) (Path.join (buildDir o) n)) →
  ∃ w',
    task (createReleaseDir o E) ctx w = (inr ctx, w')
    ∧ ∀ n, Path.entryName n →
        files w' !! Path.join (buildDir o) n
        = if bool_decide (n ∈ map (getImagePath (name E) (version E)) archs)
          then files w !! Path.join (buildDir o) n else None.
Proof.
  intros Ha Hdir Hreg. eexists. split.
  - apply createReleaseDir_ok; [done|].
    intros n Hn _ Hs. apply Hreg, elem_of_entries. by split.
  - intros n Hn. simpl. rewrite cleaned_entry by done.
    unfold imagePaths. by rewrite Ha.
Qed.

Lemma clean_keeps_declared_archives_witness :
  let m := exampleManifest (Some ["linux/amd64"; "linux/arm64"]) in
  let C := exampleCollaborators m None None (inr tt) in
  let o := exampleOptions "pkg/build_1.0.0" false None in
  let w := exampleWorld
    [("pkg/build_1.0.0/foo_1.0.0_linux-arm64.txz", File "arm64 image");
     ("pkg/build_1.0.0/foo_0.9.0_linux-arm64.txz", File "older")] in
  ∃ E w',
    prologue o = inr E
    ∧ task (createReleaseDir o E) emptyCtx w = (inr emptyCtx, w')
    ∧ files w' !! "pkg/build_1.0.0/foo_1.0.0_linux-arm64.txz"
      = Some (File "arm64 image")
    ∧ files w' !! "pkg/build_1.0.0/foo_0.9.0_linux-arm64.txz" = None.
Proof.
  intros m C o w.
  destruct (prologue o) as [e|E] eqn:HE; [vm_compute in HE; discriminate HE|].
  assert (architectures E = Some ["linux/amd64"; "linux/arm64"]) as Ha.
  { vm_compute in HE. by injection HE as <-. }
  assert (name E = "foo" ∧ version E = "1.0.0") as [Hn Hv].
  { vm_compute in HE. by injection HE as <-. }
  assert (mkdirPossible (buildDir o) (files w)) as Hdir by mkdir_possible.
  assert (∀ n, n ∈ fs.entries (buildDir o) (files w) →
               isFile (files w) (Path.join (buildDir o) n)) as Hreg.
  { intros n Hn'. vm_compute in Hn'.
    repeat (apply elem_of_cons in Hn' as [->|Hn']);
      [eexists; vm_compute; reflexivity..|by apply elem_of_nil in Hn']. }
  destruct (clean_keeps_declared_archives o E
              ["linux/amd64"; "linux/arm64"] emptyCtx w Ha Hdir Hreg)
    as (w' & Hrun & Hkeep).
  rewrite Hn, Hv in Hkeep.
  exists E, w'. split_and!; [reflexivity|exact Hrun|..].
  - apply (Hkeep "foo_1.0.0_linux-arm64.txz").
    vm_compute. intuition discriminate.
  - apply (Hkeep "foo_0.9.0_linux-arm64.txz").
    vm_compute. intuition discriminate.
Defined.

(** X6. When "Create release dir" returns, every entry left in the build
    directory is one of the expected image paths, and is as it was found. *)
Theorem clean_leaves_only_expected `{C : Collaborators} o E ctx w ctx' w' :
  task (createReleaseDir o E) ctx w = (inr ctx', w') →
  ∀ n, n ∈ fs.entries (buildDir o) (files w') →
    n ∈ imagePaths E
    ∧ files w' !! Path.join (buildDir o) n
      = files w !! Path.join (buildDir o) n.
Proof.
  intros [_ ->]%createReleaseDir_inr n [Hn [x Hx]]%elem_of_entries.
  simpl in *. rewrite cleaned_entry in * by done.
  case_bool_decide; done.
Qed.

Lemma clean_leaves_only_expected_witness :
  let m := exampleManifest (Some ["linux/amd64"]) in
  let C := exampleCollaborators m None None (inr tt) in
  let o := exampleOptions "pkg/build_1.0.0" false None in
  let w := exampleWorld
    [("pkg/build_1.0.0/foo_1.0.0_linux-amd64.txz", File "amd64 image");
     ("pkg/build_1.0.0/docker-compose.yml", File "old")] in
  ∃ E w',
    prologue o = inr E
    ∧ task (createReleaseDir o E) emptyCtx w = (inr emptyCtx, w')
    ∧ ∀ n, n ∈ fs.entries (buildDir o) (files w') →
           n = "foo_1.0.0_linux-amd64.txz".
Proof.
  intros m C o w.
  destruct (prologue o) as [e|E] eqn:HE; [vm_compute in HE; discriminate HE|].
  assert (imagePaths E = ["foo_1.0.0_linux-amd64.txz"]) as Hpaths.
  { vm_compute in HE. by injection HE as <-. }
  destruct (task (createReleaseDir o E) emptyCtx w) as [[e|ctx'] w'] eqn:Hrun.
  { vm_compute in HE. injection HE as <-. vm_compute in Hrun.
    discriminate Hrun. }
  pose proof (createReleaseDir_inr _ _ _ _ _ _ Hrun) as [-> _].
  exists E, w'. split_and!; [done..|]. intros n Hin.
  destruct (clean_leaves_only_expected o E emptyCtx w emptyCtx w' Hrun n Hin)
    as [Hexp _].
  rewrite Hpaths in Hexp. by apply list_elem_of_singleton in Hexp.
Defined.

(** At a path that is no entry of the build directory, "Create release dir"
    changes nothing, or makes the directory that was missing there. *)
Lemma createReleaseDir_not_entry `{C : Collaborators} o E ctx w r w' k :
  task (createReleaseDir o E) ctx w = (r, w') →
  (∀ n, Path.entryName n → k ≠ Path.join (buildDir o) n) →
  files w' !! k = files w !! k
  ∨ ((k = fs.dirKey (buildDir o) ∨ k ∈ fs.properAncestors (buildDir o))
     ∧ files w' !! k = Some Directory).
Proof.
  intros Hrun Hout. revert Hrun. cbn [task createReleaseDir]. rewrite run_bind.
  destruct (fs.mkdirSync (buildDir o) w) as [[e|[]] w1] eqn:Hmk.
  { apply mkdirSync_inl in Hmk as ->. intros [= <- <-]. by left. }
  apply mkdirSync_inr in Hmk as [(Hne & _) ->].
  rewrite run_bind.
  rewrite readdirSync_directory by (done || apply madeDirs_directory).
  rewrite run_bind. cbn [files setFiles].
  assert (∀ r1 w3,
    forOf (fs.entries (buildDir o) (fs.madeDirs (buildDir o) (files w)))
      (λ filepath,
         if bool_decide (filepath ∈ imagePaths E) then mret tt
         else fs.unlinkSync (Path.join (buildDir o) filepath))
      (setFiles (fs.madeDirs (buildDir o) (files w)) w) = (r1, w3) →
    files w3 !! k = fs.madeDirs (buildDir o) (files w) !! k) as Hloop.
  { intros r1 w3 Hl. eapply sweep_outside in Hl; [exact Hl| |done].
    by intros f [? _]%elem_of_entries. }
  destruct (forOf _ _ _) as [[e|[]] w3] eqn:Hl; intros [= <- <-];
    rewrite (Hloop _ _ eq_refl), madeDirs_lookup;
    (case_bool_decide; [by right|by left]).
Qed.

Lemma cleaned_directories `{C : Collaborators} o E (fsys : gmap string node) k :
  k = fs.dirKey (buildDir o) ∨ k ∈ fs.properAncestors (buildDir o) →
  cleaned o E fsys !! k = Some Directory.
Proof.
  intros Hk. unfold cleaned. rewrite swept_lookup_other.
  - rewrite madeDirs_lookup. by rewrite bool_decide_eq_true_2.
  - intros f [Hf _]%elem_of_entries _ Heq. subst k. destruct Hk as [Hk|Hk].
    + by apply (dirKey_not_entry (buildDir o) f Hf).
    + by apply (properAncestors_not_entry (buildDir o) f _ Hf Hk).
Qed.

Lemma createReleaseDir_outside `{C : Collaborators} o E ctx w r w' k :
  task (createReleaseDir o E) ctx w = (r, w') →
  k ≠ fs.dirKey (buildDir o) →
  k ∉ fs.properAncestors (buildDir o) →
  (∀ n, Path.entryName n → k ≠ Path.join (buildDir o) n) →
  files w' !! k = files w !! k.
Proof.
  intros Hrun Hdir Hanc Hout.
  destruct (createReleaseDir_not_entry o E ctx w r w' k Hrun Hout)
    as [?|[[?|?] _]]; done.
Qed.

(** X7. Whether it returns or throws, "Create release dir" changes nothing
    but the build directory and the directories above it: a path that is
    neither the directory, nor a directory above it, nor one of its entries
    holds afterwards what it held before; the directory and those above it
    are directories when the task has returned; and the release records,
    the console and the list of completed builds are as they were. *)
Theorem clean_touches_only_build_directory `{C : Collaborators}
  o E ctx w r w' :
  task (createReleaseDir o E) ctx w = (r, w') →
  (∀ k, k ≠ fs.dirKey (buildDir o) →
        k ∉ fs.properAncestors (buildDir o) →
        (∀ n, Path.entryName n → k ≠ Path.join (buildDir o) n) →
        files w' !! k = files w !! k)
  ∧ (∀ ctx' k, r = inr ctx' →
        k = fs.dirKey (buildDir o) ∨ k ∈ fs.properAncestors (buildDir o) →
        files w' !! k = Some Directory)
  ∧ onlyFiles w w'.
Proof.
  intros Hrun. split_and!.
  - intros k Hdir Hanc Hout. by eapply createReleaseDir_outside.
  - intros ctx' k -> Hk.
    apply createReleaseDir_inr in Hrun as [_ ->]. cbn [files setFiles].
    by apply cleaned_directories.
  - by eapply createReleaseDir_onlyFiles.
Qed.

Lemma clean_touches_only_build_directory_witness :
  let m := exampleManifest None in
  let C := exampleCollaborators m None None (inr tt) in
  let o := exampleOptions "pkg/build_1.0.0" false None in
  let w := exampleWorld
    [("pkg/build_1.0.0/notes.txt", File "stale");
     ("pkg/build_0.9.0/foo_0.9.0_linux-amd64.txz", File "kept")] in
  ∃ E,
    prologue o = inr E
    ∧ files (task (createReleaseDir o E) emptyCtx w).2
        !! "pkg/build_0.9.0/foo_0.9.0_linux-amd64.txz"
      = Some (File "kept").
Proof.
  intros m C o w.
  destruct (prologue o) as [e|E] eqn:HE; [vm_compute in HE; discriminate HE|].
  exists E. split; [done|].
  destruct (task (createReleaseDir o E) emptyCtx w) as [r w'] eqn:Hrun.
  destruct (clean_touches_only_build_directory o E emptyCtx w r w' Hrun)
    as [Hk _].
  simpl. rewrite (Hk "pkg/build_0.9.0/foo_0.9.0_linux-amd64.txz").
  - vm_compute. reflexivity.
  - vm_compute. intros H. discriminate H.
  - vm_compute. intros H.
    repeat (apply elem_of_cons in H as [H|H]; [discriminate H|]).
    by apply elem_of_nil in H.
  - intros n Hn. rewrite join_entry by done. vm_compute.
    intros H. injection H as H. discriminate H.
Defined.

Lemma run_tasks_cons t ts ctx w :
  truthyFlag (skip t) = false →
  runTasks (t :: ts) ctx w
  = match task t ctx w with
    | (inl e, w') => (inl e, w')
    | (inr ctx', w') => runTasks ts ctx' w'
    end.
Proof. intros Hs. cbn [runTasks]. by rewrite Hs, run_bind. Qed.

(** X8. "Create release dir" cannot remove a subdirectory: when an entry of
    the build directory that is not an expected image path is a directory,
    the task throws, and the run ends there. *)
Theorem clean_throws_on_subdirectory `{C : Collaborators} o E ctx w n :
  Path.entryName n →
  n ∉ imagePaths E →
  files w !! Path.join (buildDir o) n = Some Directory →
  ∃ e w', task (createReleaseDir o E) ctx w = (inl e, w').
Proof.
  intros Hn Hk Hd.
  destruct (task (createReleaseDir o E) ctx w) as [[e|ctx'] w'] eqn:Hrun;
    [by eauto|exfalso].
  revert Hrun. cbn [task createReleaseDir].
  intros (u & w1 & Hmk & Hrest)%run_bind_inr.
  apply mkdirSync_inr in Hmk as [(Hne & _) ->].
  apply run_bind_inr in Hrest as (l & w2 & Hrd & Hrest).
  rewrite readdirSync_directory in Hrd by (done || apply madeDirs_directory).
  injection Hrd as <- <-.
  apply run_bind_inr in Hrest as (u' & w3 & Hloop & _).
  eapply sweep_inr_files in Hloop as [data Hfile]; [| |exact Hk].
  - simpl in Hfile. rewrite madeDirs_entry in Hfile by done. congruence.
  - apply elem_of_entries. split; [done|]. simpl.
    rewrite madeDirs_entry by done. by rewrite Hd.
Qed.

Lemma clean_throws_on_subdirectory_witness :
  let m := exampleManifest None in
  let C := exampleCollaborators m None None (inr tt) in
  let o := exampleOptions "pkg/build_1.0.0" false None in
  let w := exampleWorld [("pkg/build_1.0.0/cache", Directory)] in
  ∃ e w', runPipeline o w = (inl e, w').
Proof.
  intros m C o w.
  destruct (prologue o) as [e|E] eqn:HE; [vm_compute in HE; discriminate HE|].
  assert (imagePaths E = ["pkg/build_1.0.0/foo_1.0.0_linux-amd64.txz"])
    as Hpaths.
  { vm_compute in HE. by injection HE as <-. }
  destruct (clean_throws_on_subdirectory o E emptyCtx w "cache")
    as (e & w' & Hrun).
  - vm_compute. intuition discriminate.
  - rewrite Hpaths. intros Hin%list_elem_of_singleton. discriminate Hin.
  - vm_compute. reflexivity.
  - exists e, w'. rewrite runPipeline_split, HE. cbn [app].
    rewrite run_tasks_cons by done. by rewrite Hrun.
Defined.

(** ** More frames *)

#[global] Instance sameAt_preorder k : PreOrder (sameAt k).
Proof. split; [by intros x|]. unfold sameAt. intros x y z. congruence. Qed.

#[global] Instance sameJournal_preorder : PreOrder sameJournal.
Proof.
  split; [by intros x|]. intros x y z [? ?] [? ?]. split; by etrans.
Qed.

Lemma sameJournal_blind w f : sameJournal w (setFiles f w).
Proof. done. Qed.

Lemma onlyFiles_sameJournal {A} (m : M A) :
  respects onlyFiles m → respects sameJournal m.
Proof. intros Hm w r w' Hrun. by destruct (Hm w r w' Hrun) as (? & ? & _). Qed.






Lemma runBuilder_sameJournal `{C : Collaborators} b args :
  respects sameJournal (runBuilder b args).
Proof.
  unfold runBuilder.
  frame_with sameJournal
    ltac:(first [ apply (writeFileSync_respects sameJournal sameJournal_blind)
                | by apply (respects_modify sameJournal) ]).
Qed.

Lemma buildArchitecture_task `{C : Collaborators} o E arch ctx :
  task (buildArchitecture o E arch) ctx
  = runTasks (buildWithBuildx (buildxArgs o E arch)) ctx.
Proof. reflexivity. Qed.

Lemma buildTasks_sameJournal `{C : Collaborators} o E ctx :
  respects sameJournal (runTasks (buildTasks o E) ctx).
Proof.
  apply (respects_runTasks sameJournal). intros t c Ht _.
  assert (∀ b args c',
    respects sameJournal
      (runBuilder b args ≫= λ _ : unit, (mret c' : M Ctx))) as Hstep.
  { intros b args c'. apply (respects_bind sameJournal);
      [apply runBuilder_sameJournal|].
    intros _. apply (respects_ret sameJournal). }
  unfold buildTasks in Ht. destruct (architectures E) as [archs|].
  - apply list_elem_of_fmap in Ht as (arch & -> & _).
    rewrite buildArchitecture_task.
    apply (respects_runTasks sameJournal). intros t' c' Ht' _.
    apply list_elem_of_singleton in Ht' as ->. apply Hstep.
  - apply list_elem_of_singleton in Ht as ->. apply Hstep.
Qed.

Lemma saveUploadResults_growing `{C : Collaborators} o E ctx :
  respects growing (task (saveUploadResults o E) ctx).
Proof.
  intros w r w'. rewrite saveUploadResults_run.
  destruct (releaseRecordStore _) as [?|[]];
    [intros [= <- <-]; reflexivity|].
  intros [= <- <-]. destruct pruneCache; intros p Hp; exact Hp.
Qed.

(** ** "Copy files and validate" *)


Section CopyFiles.
Context {C : Collaborators}.
Variables (o : Options) (E : Env).





End CopyFiles.



Lemma isDirectory_insert_file (fsys : gmap string node) q data k :
  fs.isDirectory fsys q = false →
  fs.isDirectory (<[q := File data]> fsys) k = fs.isDirectory fsys k.
Proof.
  unfold fs.isDirectory. intros Hq.
  destruct (decide (q = k)) as [->|Hne].
  - rewrite lookup_insert_eq. apply orb_false_iff in Hq as [-> Hq].
    by rewrite Hq.
  - by rewrite lookup_insert_ne.
Qed.

Lemma writeFileSync_ok p data w :
  fs.writable (files w) p = true →
  fs.writeFileSync p data w
  = (inr tt, setFiles (<[p := File data]> (files w)) w).
Proof. intros Hp. by rewrite writeFileSync_run, Hp. Qed.

(** Writing a file takes away no place where a file can be written. *)
Lemma writable_insert_file (fsys : gmap string node) q data p :
  fs.writable fsys q = true →
  fs.writable (<[q := File data]> fsys) p = fs.writable fsys p.
Proof.
  intros Hq. unfold fs.writable in *.
  apply andb_true_iff in Hq as [Hq _]. apply andb_true_iff in Hq as [_ Hq].
  apply negb_true_iff, orb_false_iff in Hq as [_ Hq].
  by rewrite !(isDirectory_insert_file fsys q data _ Hq).
Qed.

(** X10. The prerelease validation comes after the writes: on files where
    the compositions, the avatar and the manifest can be written, and with a
    manifest the validation rejects, "Copy files and validate" throws the
    error of the validation, and the compositions, the avatar and the
    rejected manifest have been written all the same. *)
Theorem invalid_manifest_is_written_first `{C : Collaborators}
  o E ctx w e :
  validateManifest (manifest E) true = inl e →
  isFile (files w) (avatarRootPath E) →
  fs.writable (files w) (getComposePath (dir o)) = true →
  fs.writable (files w) (avatarBuildPath E) = true →
  fs.writable (files w) (getComposePath (buildDir o)) = true →
  fs.writable (files w) (manifestPath (buildDir o)) = true →
  ∃ w1,
    task (copyFilesAndValidate o E) ctx w = (inl e, w1)
    ∧ files w1 !! manifestPath (buildDir o)
      = Some (File (stringifyManifest (manifest E)))
    ∧ isFile (files w1) (getComposePath (buildDir o))
    ∧ isFile (files w1) (avatarBuildPath E)
    ∧ isFile (files w1) (getComposePath (dir o)).
Proof.
  intros Hval [png Hsrc] H1 H2 H3 H4.
  assert (∀ (f : gmap string node) q d p,
            (∃ x, f !! p = Some (File x)) →
            ∃ x, <[q := File d]> f !! p = Some (File x)) as Hkeep.
  { intros f q d p [x Hx]. destruct (decide (q = p)) as [->|Hne].
    - rewrite lookup_insert_eq. by eexists.
    - rewrite lookup_insert_ne by done. by eexists. }
  pose (w1 := setFiles (<[getComposePath (dir o) :=
                  File (stringifyCompose (composeForBuild E))]> (files w)) w).
  assert (fs.writeFileSync (getComposePath (dir o))
            (stringifyCompose (composeForBuild E)) w = (inr tt, w1)) as E1
    by by apply writeFileSync_ok.
  assert (∀ p, fs.writable (files w1) p = fs.writable (files w) p) as W1
    by (intros p; by apply writable_insert_file).
  assert (∃ data, files w1 !! avatarRootPath E = Some (File data))
    as [data Hsrc1] by (apply Hkeep; by exists png).
  pose (w2 := setFiles (<[avatarBuildPath E := File data]> (files w1)) w1).
  assert (fs.copyFileSync (avatarRootPath E) (avatarBuildPath E) w1
          = (inr tt, w2)) as E2.
  { rewrite copyFileSync_run, Hsrc1. apply writeFileSync_ok. by rewrite W1. }
  assert (∀ p, fs.writable (files w2) p = fs.writable (files w) p) as W2.
  { intros p. unfold w2. cbn [files setFiles].
    rewrite writable_insert_file; [apply W1|by rewrite W1]. }
  pose (w3 := setFiles (<[getComposePath (buildDir o) :=
                  File (stringifyCompose (composeForRelease E))]> (files w2))
                w2).
  assert (fs.writeFileSync (getComposePath (buildDir o))
            (stringifyCompose (composeForRelease E)) w2 = (inr tt, w3)) as E3
    by (apply writeFileSync_ok; by rewrite W2).
  assert (∀ p, fs.writable (files w3) p = fs.writable (files w) p) as W3.
  { intros p. unfold w3. cbn [files setFiles].
    rewrite writable_insert_file; [apply W2|by rewrite W2]. }
  pose (w4 := setFiles (<[manifestPath (buildDir o) :=
                  File (stringifyManifest (manifest E))]> (files w3)) w3).
  assert (fs.writeFileSync (manifestPath (buildDir o))
            (stringifyManifest (manifest E)) w3 = (inr tt, w4)) as E4
    by (apply writeFileSync_ok; by rewrite W3).
  exists w4. split.
  - cbn [task copyFilesAndValidate]. unfold writeCompose, writeManifest.
    rewrite (run_bind_ok _ _ _ _ _ E1), (run_bind_ok _ _ _ _ _ E2),
      (run_bind_ok _ _ _ _ _ E3), (run_bind_ok _ _ _ _ _ E4).
    rewrite run_bind. unfold liftResult. by rewrite Hval.
  - unfold w4, w3, w2, w1. cbn [files setFiles]. split_and!.
    + apply lookup_insert_eq.
    + apply Hkeep. eexists. apply lookup_insert_eq.
    + apply Hkeep, Hkeep. eexists. apply lookup_insert_eq.
    + apply Hkeep, Hkeep, Hkeep. eexists. apply lookup_insert_eq.
Qed.

Lemma invalid_manifest_is_written_first_witness :
  let m := exampleManifest None in
  let C := exampleCollaboratorsWith m (inl (Error "manifest is invalid"))
             (λ a, inr "image") (inr "/ipfs/Qm-hash") in
  let o := exampleOptions "pkg/build_1.0.0" false None in
  let w := exampleWorld [("pkg/build_1.0.0", Directory)] in
  ∃ E w1,
    prologue o = inr E
    ∧ task (copyFilesAndValidate o E) emptyCtx w
      = (inl (Error "manifest is invalid"), w1)
    ∧ isFile (files w1) "pkg/build_1.0.0/dappnode_package.json".
Proof.
  intros m C o w.
  destruct (prologue o) as [e|E] eqn:HE; [vm_compute in HE; discriminate HE|].
  destruct (invalid_manifest_is_written_first o E emptyCtx w
              (Error "manifest is invalid") eq_refl)
    as (w1 & Hrun & Hm & _).
  - vm_compute in HE. injection HE as <-. eexists. vm_compute. reflexivity.
  - vm_compute in HE. injection HE as <-. vm_compute. reflexivity.
  - vm_compute in HE. injection HE as <-. vm_compute. reflexivity.
  - vm_compute in HE. injection HE as <-. vm_compute. reflexivity.
  - vm_compute in HE. injection HE as <-. vm_compute. reflexivity.
  - exists E, w1. split_and!; [done|exact Hrun|by eexists].
Defined.

(** ** The builds *)

Lemma buildArchitecture_fails `{C : Collaborators} o E arch ctx w e :
  containerBuilder (buildxArgs o E arch) = inl e →
  task (buildArchitecture o E arch) ctx w = (inl e, w).
Proof.
  intros Hb. rewrite buildArchitecture_task. cbn [buildWithBuildx runTasks].
  cbn [skip truthyFlag task]. rewrite !run_bind. unfold runBuilder.
  rewrite run_bind. unfold liftResult. by rewrite Hb.
Qed.

(** X11. A build that fails ends the run with its error there and then: the
    architectures after it are not built, and the archives of the
    architectures before it, which are there unless saving is skipped, stay
    as they are. *)
Theorem build_failure_keeps_earlier_archives `{C : Collaborators}
  o E before failing after ctx w w1 e :
  runTasks (map (buildArchitecture o E) before) ctx w = (inr ctx, w1) →
  containerBuilder (buildxArgs o E failing) = inl e →
  runTasks (map (buildArchitecture o E) (before ++ failing :: after)) ctx w
  = (inl e, w1)
  ∧ built w1 = built w ++ map (archivePath o E) before
  ∧ (truthyFlag (skipSave o) = false →
     ∀ arch, arch ∈ before → isFile (files w1) (archivePath o E arch)).
Proof.
  intros Hbefore Hfail. split.
  - rewrite map_app, run_tasks_app, Hbefore. cbn [map].
    rewrite run_tasks_cons by done.
    by rewrite (buildArchitecture_fails o E failing ctx w1 e Hfail).
  - by apply buildArchitectures_inr in Hbefore as (_ & Hb & Hf & _).
Qed.

Lemma build_failure_keeps_earlier_archives_witness :
  let m := exampleManifest (Some ["linux/amd64"; "linux/arm64"]) in
  let C := exampleCollaboratorsWith m (inr tt) (failingOn "linux/arm64")
             (inr "/ipfs/Qm-hash") in
  let o := exampleOptions "pkg/build_1.0.0" false None in
  ∃ w',
    runPipeline o (exampleWorld [])
    = (inl (Error "build failed for linux/arm64"), w')
    ∧ built w' = ["pkg/build_1.0.0/foo_1.0.0_linux-amd64.txz"]
    ∧ isFile (files w') "pkg/build_1.0.0/foo_1.0.0_linux-amd64.txz"
    ∧ releaseRecords w' = [].
Proof.
  intros m C o.
  destruct (prologue o) as [e|E] eqn:HE; [vm_compute in HE; discriminate HE|].
  assert (architectures E = Some ["linux/amd64"; "linux/arm64"]) as Ha.
  { vm_compute in HE. by injection HE as <-. }
  destruct (runTasks [createReleaseDir o E; copyFilesAndValidate o E]
              emptyCtx (exampleWorld [])) as [[e|ctx2] w2] eqn:H12.
  { vm_compute in HE. injection HE as <-. vm_compute in H12.
    discriminate H12. }
  assert (ctx2 = emptyCtx ∧ built w2 = [] ∧ releaseRecords w2 = [])
    as (-> & Hb2 & Hr2).
  { vm_compute in HE. injection HE as <-. vm_compute in H12.
    by injection H12 as <- <-. }
  destruct (runTasks (map (buildArchitecture o E) ["linux/amd64"])
              emptyCtx w2) as [[e|ctx3] w3] eqn:H3.
  { vm_compute in HE. injection HE as <-. vm_compute in H12.
    injection H12 as <-. vm_compute in H3. discriminate H3. }
  pose proof (buildArchitectures_inr _ _ _ _ _ _ _ H3) as (-> & _).
  destruct (build_failure_keeps_earlier_archives o E ["linux/amd64"]
              "linux/arm64" [] emptyCtx w2 w3
              (Error "build failed for linux/arm64") H3)
    as (Hrun & Hb & Hf).
  { vm_compute in HE. by injection HE as <-. }
  exists w3. split_and!.
  - rewrite runPipeline_split, HE, run_tasks_app, H12.
    unfold buildTasks. rewrite Ha, run_tasks_app.
    cbn [app] in Hrun. by rewrite Hrun.
  - rewrite Hb, Hb2. vm_compute in HE. by injection HE as <-.
  - specialize (Hf eq_refl "linux/amd64"). vm_compute in HE.
    injection HE as <-. apply Hf. by left.
  - apply buildArchitectures_inr in H3 as (_ & _ & _ & Hr & _).
    unfold sameRecords in Hr. congruence.
Defined.


Lemma uploadTask_sameAt `{C : Collaborators} o E ctx k :
  k ≠ imagePathLegacy E → respects (sameAt k) (task (uploadTask o E) ctx).
Proof.
  intros Hk w r w' Hrun. unfold sameAt, uploadTask in *.
  destruct (uploadToSwarm o).
  - pose proof (uploadToSwarmTask_files o ctx w) as H. rewrite Hrun in H.
    simpl in H. by rewrite H.
  - pose proof (uploadToIpfsTask_files o E ctx w) as H. rewrite Hrun in H.
    simpl in H. rewrite H.
    destruct (files w !! imagePathAmd E) as [[data|]|]; [|done..].
    destruct (fs.writable _ _); [|done]. by rewrite lookup_insert_ne.
Qed.

Lemma saveUploadResults_sameFiles `{C : Collaborators} o E ctx w r w' :
  task (saveUploadResults o E) ctx w = (r, w') → files w' = files w.
Proof.
  rewrite saveUploadResults_run.
  destruct (releaseRecordStore _) as [?|[]]; [by intros [= <- <-]|].
  intros [= <- <-]. by destruct pruneCache.
Qed.

(** ** Upload and record *)

Lemma uploadTask_inr_hash `{C : Collaborators} o E ctx w ctx' w' :
  task (uploadTask o E) ctx w = (inr ctx', w') →
  ∃ h, selectedBackend o (files w') = inr h ∧ ctx' = setReleaseHash h ctx.
Proof.
  unfold uploadTask, selectedBackend. destruct (uploadToSwarm o).
  - rewrite uploadToSwarmTask_run. cbv zeta.
    destruct (swarmAddDirFromFs _ _ _) as [e|h] eqn:Hh; [done|].
    intros [= <- <-]. exists h. by rewrite reported_files.
  - cbn [task uploadToIpfsTask].
    intros (b & w1 & _ & Hrest)%run_bind_inr.
    apply run_bind_inr in Hrest as (u & w2 & _ & Hrest).
    rewrite (upload_run (ipfsProgress (buildDir o) (ipfsProvider o))
               (ipfsAddFromFs (buildDir o) (ipfsProvider o))) in Hrest.
    destruct (ipfsAddFromFs _ _ _) as [e|h] eqn:Hh; [done|].
    injection Hrest as <- <-. exists h. by rewrite reported_files.
Qed.

(** X13. In a run that succeeds without skipping the upload, the content
    address comes from the one selected backend, swarm or IPFS, asked about
    the build directory as the run leaves it; that address is the release
    hash and the release multihash of the context, and it is what the one
    release record written holds, with the provider of that backend. *)
Theorem uploaded_hash_is_recorded `{C : Collaborators} o w ctx w' :
  truthyFlag (skipUpload o) = false →
  runPipeline o w = (inr ctx, w') →
  ∃ E h,
    prologue o = inr E
    ∧ (if uploadToSwarm o
       then swarmAddDirFromFs (buildDir o) (swarmProvider o) (files w')
       else ipfsAddFromFs (buildDir o) (ipfsProvider o) (files w')) = inr h
    ∧ releaseHash ctx = Some h
    ∧ releaseMultiHash ctx = Some h
    ∧ releaseRecords w'
      = releaseRecords w
        ++ [ {| Record_.dir := dir o; Record_.version := version E;
                Record_.hash := Some h;
                Record_.to := if uploadToSwarm o then swarmProvider o
                              else ipfsProvider o |} ].
Proof.
  intros Hskip Hrun. pose proof Hrun as Hsum.
  apply runPipeline_summary in Hsum as (E & HE & _ & _ & Hrec & _).
  apply runPipeline_inr in Hrun
    as (E' & w1 & w2 & w3 & ctx4 & w4 & HE' & _ & _ & _ & H4 & H5).
  rewrite HE in HE'. injection HE' as <-.
  rewrite run_tasks_one in H4 by by rewrite uploadTask_skip.
  apply uploadTask_inr_hash in H4 as (h & Hh & ->).
  pose proof (saveUploadResults_sameFiles _ _ _ _ _ _ H5) as Hfiles.
  rewrite saveUploadResults_run in H5.
  destruct (releaseRecordStore _) as [?|[]]; [done|].
  injection H5 as <- Hw'.
  exists E, h. unfold selectedBackend in Hh. rewrite Hfiles.
  split_and!; [done|done|done|done|]. by rewrite Hrec.
Qed.

Lemma uploaded_hash_is_recorded_witness :
  let m := exampleManifest None in
  let C := exampleCollaborators m None None (inr tt) in
  let o := exampleOptions "pkg/build_1.0.0" true None in
  ∃ ctx w',
    runPipeline o (exampleWorld []) = (inr ctx, w')
    ∧ releaseMultiHash ctx = Some "bzz-hash"
    ∧ releaseRecords w'
      = [ {| Record_.dir := "pkg"; Record_.version := "1.0.0";
             Record_.hash := Some "bzz-hash";
             Record_.to := "swarm-provider" |} ].
Proof.
  intros m C o.
  destruct (runPipeline o (exampleWorld [])) as [[e|ctx] w'] eqn:Hrun;
    [vm_compute in Hrun; discriminate Hrun|].
  exists ctx, w'.
  destruct (@uploaded_hash_is_recorded C o (exampleWorld []) ctx w'
              eq_refl Hrun) as (E & h & HE & Hh & _ & Hmulti & Hrec).
  cbn in Hh. injection Hh as <-.
  vm_compute in HE. injection HE as <-.
  split_and!; [done|exact Hmulti|exact Hrec].
Defined.

(** ** Running the clean-up again *)

Lemma swept_all_kept d keep l (fsys : gmap string node) :
  (∀ f, f ∈ l → f ∈ keep) → swept d keep l fsys = fsys.
Proof.
  induction l as [|g l IH] using rev_ind; [done|].
  intros Hl. rewrite swept_snoc.
  rewrite bool_decide_eq_true_2
    by (apply Hl, elem_of_app; right; apply list_elem_of_singleton; done).
  apply IH. intros f Hf. apply Hl, elem_of_app. by left.
Qed.

Lemma cleaned_directory `{C : Collaborators} o E (fsys : gmap string node) :
  cleaned o E fsys !! fs.dirKey (buildDir o) = Some Directory.
Proof. apply cleaned_directories. by left. Qed.

Lemma cleaned_cleaned `{C : Collaborators} o E (fsys : gmap string node) :
  cleaned o E (cleaned o E fsys) = cleaned o E fsys.
Proof.
  set (fsys' := cleaned o E fsys). unfold cleaned at 1. cbv zeta.
  assert (fs.madeDirs (buildDir o) fsys' = fsys') as ->.
  { apply map_eq. intros k. rewrite madeDirs_lookup.
    case_bool_decide as Hk; [|done].
    symmetry. by apply cleaned_directories. }
  apply swept_all_kept. intros f [Hf Hs]%elem_of_entries.
  unfold fsys' in Hs. rewrite cleaned_entry in Hs by done.
  case_bool_decide; [done|]. by destruct Hs.
Qed.

Lemma createReleaseDir_possible `{C : Collaborators} o E ctx w ctx' w' :
  task (createReleaseDir o E) ctx w = (inr ctx', w') →
  mkdirPossible (buildDir o) (files w).
Proof.
  simpl. intros (u & w1 & Hmk & _)%run_bind_inr.
  by apply mkdirSync_inr in Hmk as [? _].
Qed.

(** X22. "Create release dir" is idempotent: run again right after it has
    returned, it returns again and changes nothing, since all it has left in
    the build directory are expected image paths. *)
Theorem clean_is_idempotent `{C : Collaborators} o E ctx w ctx' w' :
  task (createReleaseDir o E) ctx w = (inr ctx', w') →
  task (createReleaseDir o E) ctx' w' = (inr ctx', w').
Proof.
  intros Hrun.
  pose proof (createReleaseDir_possible _ _ _ _ _ _ Hrun) as (Hne & _ & _).
  apply createReleaseDir_inr in Hrun as [-> ->].
  rewrite createReleaseDir_ok.
  - simpl. rewrite cleaned_cleaned. by rewrite setFiles_setFiles.
  - simpl. split_and!; [done| |].
    + intros [data Hd]. by rewrite cleaned_directory in Hd.
    + intros k Hk [data Hd].
      rewrite cleaned_directories in Hd by by right. done.
  - simpl. intros n Hn Hk Hs. rewrite cleaned_entry in Hs by done.
    rewrite bool_decide_eq_false_2 in Hs by done. by destruct Hs.
Qed.

Lemma clean_is_idempotent_witness :
  let m := exampleManifest (Some ["linux/amd64"]) in
  let C := exampleCollaborators m None None (inr tt) in
  let o := exampleOptions "pkg/build_1.0.0" false None in
  let w := exampleWorld
    [("pkg/build_1.0.0/foo_1.0.0_linux-amd64.txz", File "amd64 image");
     ("pkg/build_1.0.0/notes.txt", File "stale")] in
  ∃ E w',
    prologue o = inr E
    ∧ task (createReleaseDir o E) emptyCtx w = (inr emptyCtx, w')
    ∧ files w' ≠ files w
    ∧ task (createReleaseDir o E) emptyCtx w' = (inr emptyCtx, w').
Proof.
  intros m C o w.
  destruct (prologue o) as [e|E] eqn:HE; [vm_compute in HE; discriminate HE|].
  destruct (task (createReleaseDir o E) emptyCtx w) as [[e|ctx'] w'] eqn:Hrun.
  { vm_compute in HE. injection HE as <-. vm_compute in Hrun.
    discriminate Hrun. }
  pose proof (createReleaseDir_inr _ _ _ _ _ _ Hrun) as [-> Hw'].
  exists E, w'. split_and!; [done|done| |].
  - intros Heq.
    assert (files w' !! "pkg/build_1.0.0/notes.txt" = None) as Hnone.
    { rewrite Hw'. clear Hrun Hw' Heq. vm_compute in HE. injection HE as <-.
      vm_compute. reflexivity. }
    rewrite Heq in Hnone. vm_compute in Hnone. discriminate Hnone.
  - exact (clean_is_idempotent o E emptyCtx w emptyCtx w' Hrun).
Defined.

(** ** What a run leaves alone *)

Lemma respects_runTasks_app ts1 ts2 (R : relation World)
  `{!PreOrder R} :
  (∀ ctx, respects R (runTasks ts1 ctx)) →
  (∀ ctx, respects R (runTasks ts2 ctx)) →
  ∀ ctx, respects R (runTasks (ts1 ++ ts2) ctx).
Proof.
  intros H1 H2 ctx w r w'. rewrite run_tasks_app.
  destruct (runTasks ts1 ctx w) as [[e|ctx1] w1] eqn:E1.
  - intros [= <- <-]. by eapply H1.
  - intros E2. etrans; [by eapply H1|by eapply H2].
Qed.

Lemma respects_task_list (R : relation World) `{!PreOrder R} t :
  (∀ ctx, respects R (task t ctx)) → ∀ ctx, respects R (runTasks [t] ctx).
Proof.
  intros Ht ctx. apply (respects_runTasks R). intros t' c Hin _.
  apply list_elem_of_singleton in Hin as ->. apply Ht.
Qed.

Lemma buildTasks_growing `{C : Collaborators} o E ctx :
  respects growing (runTasks (buildTasks o E) ctx).
Proof.
  apply (respects_runTasks growing). intros t c Ht _.
  assert (∀ b args c',
    respects growing
      (runBuilder b args ≫= λ _ : unit, (mret c' : M Ctx))) as Hstep.
  { intros b args c'. apply (respects_bind growing);
      [apply runBuilder_growing|].
    intros _. apply (respects_ret growing). }
  unfold buildTasks in Ht. destruct (architectures E) as [archs|].
  - apply list_elem_of_fmap in Ht as (arch & -> & _).
    rewrite buildArchitecture_task.
    apply (respects_runTasks growing). intros t' c' Ht' _.
    apply list_elem_of_singleton in Ht' as ->. apply Hstep.
  - apply list_elem_of_singleton in Ht as ->. apply Hstep.
Qed.

(** The tasks before "Save upload results" write neither a release record nor
    a console line. *)
Lemma before_save_sameJournal `{C : Collaborators} o E ctx :
  respects sameJournal
    (runTasks ([createReleaseDir o E; copyFilesAndValidate o E]
               ++ buildTasks o E ++ [uploadTask o E]) ctx).
Proof.
  revert ctx. apply (respects_runTasks_app _ _ sameJournal).
  - intros ctx. apply (respects_runTasks sameJournal). intros t c Ht _.
    apply elem_of_cons in Ht as [->|Ht];
      [apply onlyFiles_sameJournal, createReleaseDir_onlyFiles|].
    apply list_elem_of_singleton in Ht as ->.
    apply onlyFiles_sameJournal, copyFilesAndValidate_onlyFiles.
  - apply (respects_runTasks_app _ _ sameJournal).
    + intros ctx. apply buildTasks_sameJournal.
    + apply (respects_task_list sameJournal). intros ctx.
      apply onlyFiles_sameJournal, uploadTask_onlyFiles.
Qed.

#[global] Instance sameOutput_preorder : PreOrder sameOutput.
Proof.
  split; [by intros x|]. unfold sameOutput. intros x y z. congruence.
Qed.

Lemma sameOutput_blind w f : sameOutput w (setFiles f w).
Proof. done. Qed.

Ltac frame_sameOutput :=
  frame_with sameOutput
    ltac:(first
      [ apply (writeFileSync_respects sameOutput sameOutput_blind)
      | apply (copyFileSync_respects sameOutput sameOutput_blind)
      | apply (existsSync_respects sameOutput)
      | apply (unlinkSync_respects sameOutput sameOutput_blind)
      | apply (mkdirSync_respects sameOutput sameOutput_blind)
      | apply (readdirSync_respects sameOutput)
      | apply (respects_modify sameOutput); by intros ? ]).

Lemma reported_output `{C : Collaborators} (l : list Percent) w :
  output (reported l w) = output w ++ (percentToMessage <$> l).
Proof.
  unfold reported. revert w. induction l as [|x l IH]; intros w.
  - by rewrite app_nil_r.
  - simpl. rewrite IH. simpl. by rewrite <- app_assoc.
Qed.

Section Output.
Context {C : Collaborators}.
Variables (o : Options) (E : Env).

Lemma tasksBeforeUpload_sameOutput ctx :
  respects sameOutput
    (runTasks ([createReleaseDir o E; copyFilesAndValidate o E]
               ++ buildTasks o E) ctx).
Proof.
  revert ctx. apply (respects_runTasks_app _ _ sameOutput).
  - intros ctx. apply (respects_runTasks sameOutput). intros t c Ht _.
    apply elem_of_cons in Ht as [->|Ht]; [simpl; frame_sameOutput|].
    apply list_elem_of_singleton in Ht as ->.
    simpl. unfold writeCompose, writeManifest. frame_sameOutput.
  - intros ctx. apply (respects_runTasks sameOutput). intros t c Ht _.
    assert (∀ b args c',
      respects sameOutput
        (runBuilder b args ≫= λ _ : unit, (mret c' : M Ctx))) as Hstep.
    { intros b args c'. unfold runBuilder. frame_sameOutput. }
    unfold buildTasks in Ht. destruct (architectures E) as [archs|].
    + apply list_elem_of_fmap in Ht as (arch & -> & _).
      rewrite buildArchitecture_task.
      apply (respects_runTasks sameOutput). intros t' c' Ht' _.
      apply list_elem_of_singleton in Ht' as ->. apply Hstep.
    + apply list_elem_of_singleton in Ht as ->. apply Hstep.
Qed.

(** All the upload task shows is the progress of its upload. *)
Lemma uploadTask_output ctx w r w' :
  runTasks [uploadTask o E] ctx w = (r, w') →
  output w' = output w
  ∨ (truthyFlag (skipUpload o) = false
     ∧ ∃ fsys, output w'
               = output w ++ (percentToMessage <$> selectedProgress o fsys)).
Proof.
  cbn [runTasks]. rewrite uploadTask_skip.
  destruct (truthyFlag (skipUpload o)); [intros [= <- <-]; by left|].
  rewrite run_bind.
  destruct (task (uploadTask o E) ctx w) as [r1 w1] eqn:Hup. intros Hr.
  assert (w' = w1) as -> by (destruct r1; by injection Hr as _ <-).
  clear Hr. revert Hup. unfold uploadTask, selectedProgress.
  destruct (uploadToSwarm o).
  - rewrite uploadToSwarmTask_run. cbv zeta.
    destruct (swarmAddDirFromFs _ _ _); intros [= <- <-]; right;
      (split; [done|]); eexists; apply reported_output.
  - cbn [task uploadToIpfsTask]. rewrite run_bind, existsSync_run, run_bind.
    assert (∀ w0 w2 : World, output w2 = output w0 →
      ∀ r2 w3,
      (fsys ← getFiles;
       forOf (ipfsProgress (buildDir o) (ipfsProvider o) fsys)
         (λ percent, modify (setOutput (percentToMessage percent))) ;;
       h ← liftResult (ipfsAddFromFs (buildDir o) (ipfsProvider o) fsys);
       mret (setReleaseHash h ctx)) w2 = (r2, w3) →
      ∃ fsys, output w3
              = output w0
                ++ (percentToMessage
                    <$> ipfsProgress (buildDir o) (ipfsProvider o) fsys))
      as Hrest.
    { intros w0 w2 Hout r2 w3.
      rewrite (upload_run (ipfsProgress (buildDir o) (ipfsProvider o))
                 (ipfsAddFromFs (buildDir o) (ipfsProvider o))).
      destruct (ipfsAddFromFs _ _ _); intros [= <- <-];
        eexists; by rewrite reported_output, Hout. }
    destruct (bool_decide _ || _).
    + rewrite copyFileSync_run.
      destruct (files w !! imagePathAmd E) as [[data|]|];
        [|intros [= <- <-]; by left..].
      rewrite writeFileSync_run.
      destruct (fs.writable (files w) (imagePathLegacy E));
        [|intros [= <- <-]; by left].
      intros H. right. split; [done|]. refine (Hrest w _ _ _ _ H); reflexivity.
    + cbn [mret M_ret]. intros H. right. split; [done|].
      refine (Hrest w _ _ _ _ H); reflexivity.
Qed.

Lemma saveUploadResults_output ctx w r w' :
  task (saveUploadResults o E) ctx w = (r, w') → output w' = output w.
Proof.
  rewrite saveUploadResults_run.
  destruct (releaseRecordStore _) as [?|[]]; [by intros [= <- <-]|].
  intros [= <- <-]. by destruct pruneCache.
Qed.

End Output.

(** X14. A run that fails, at whatever stage, has written no release record
    and has called [console.error] with nothing: the record is the last thing
    that can fail, and a failure to prune the cache afterwards does not fail
    the run.  All it can have shown is the progress of its upload, through
    the output of the upload task, and that only when the upload was not
    skipped. *)
Theorem failed_run_records_nothing `{C : Collaborators} o w e w' :
  runPipeline o w = (inl e, w') →
  releaseRecords w' = releaseRecords w
  ∧ console w' = console w
  ∧ (output w' = output w
     ∨ (truthyFlag (skipUpload o) = false
        ∧ ∃ fsys, output w'
            = output w ++ (percentToMessage <$> selectedProgress o fsys))).
Proof.
  intros Hrun.
  assert (releaseRecords w' = releaseRecords w ∧ console w' = console w)
    as [Hr Hc].
  { revert Hrun. rewrite runPipeline_split.
    destruct (prologue o) as [e0|E]; [by intros [= <- <-]|].
    destruct (runTasks _ emptyCtx w) as [[e1|ctx] w1] eqn:Hrun.
    - intros [= <- <-]. by eapply before_save_sameJournal.
    - apply before_save_sameJournal in Hrun as [Hr Hc].
      rewrite saveUploadResults_run.
      destruct (releaseRecordStore _) as [e2|u]; [|done].
      by intros [= <- <-]. }
  split_and!; [done|done|].
  revert Hrun. rewrite runPipeline_split.
  destruct (prologue o) as [e0|E]; [intros [= <- <-]; by left|].
  rewrite app_assoc, run_tasks_app.
  destruct (runTasks (_ ++ buildTasks o E) emptyCtx w)
    as [[e1|ctx3] w3] eqn:H3.
  { intros [= <- <-]. left. by eapply tasksBeforeUpload_sameOutput. }
  apply tasksBeforeUpload_sameOutput in H3. unfold sameOutput in H3.
  rewrite <- H3.
  destruct (runTasks [uploadTask o E] ctx3 w3) as [[e1|ctx4] w4] eqn:H4.
  - intros [= <- <-]. by eapply uploadTask_output.
  - intros H5%saveUploadResults_output. rewrite H5.
    by eapply uploadTask_output.
Qed.

Lemma failed_run_records_nothing_witness :
  let m := exampleManifest (Some ["linux/amd64"; "linux/arm64"]) in
  let C := exampleCollaboratorsWith m (inr tt) (failingOn "linux/arm64")
             (inr "hash") in
  let o := exampleOptions "pkg/build_1.0.0" false None in
  ∃ e w',
    runPipeline o (exampleWorld []) = (inl e, w')
    ∧ releaseRecords w' = [] ∧ console w' = [].
Proof.
  intros m C o.
  destruct (runPipeline o (exampleWorld [])) as [[e|ctx] w'] eqn:Hrun;
    [|vm_compute in Hrun; discriminate Hrun].
  exists e, w'. split; [reflexivity|].
  destruct (@failed_run_records_nothing C o (exampleWorld []) e w' Hrun)
    as (Hr & Hc & _).
  exact (conj Hr Hc).
Defined.

(** "Create release dir" loses no regular file that is not an entry of the
    build directory. *)
Lemma createReleaseDir_keeps_outside `{C : Collaborators} o E ctx w r w' p :
  task (createReleaseDir o E) ctx w = (r, w') →
  (∀ n, Path.entryName n → p ≠ Path.join (buildDir o) n) →
  isFile (files w) p → isFile (files w') p.
Proof.
  intros Hrun Hout [data Hp].
  destruct (createReleaseDir_not_entry o E ctx w r w' p Hrun Hout)
    as [Heq|[Hk _]]; [exists data; by rewrite Heq|].
  revert Hrun. cbn [task createReleaseDir]. rewrite run_bind.
  destruct (fs.mkdirSync (buildDir o) w) as [[e|[]] w1] eqn:Hmk.
  - apply mkdirSync_inl in Hmk as ->. intros [= <- <-]. by exists data.
  - apply mkdirSync_inr in Hmk as [(_ & Hd & Ha) _].
    destruct Hk as [->|Hk]; [destruct Hd|destruct (Ha _ Hk)]; by exists data.
Qed.

(** X15. Whatever its outcome, a run removes no regular file other than
    entries of the build directory: a file anywhere else is still a file
    afterwards. *)
Theorem run_removes_files_only_in_build_directory `{C : Collaborators}
  o w r w' p :
  runPipeline o w = (r, w') →
  (∀ n, Path.entryName n → p ≠ Path.join (buildDir o) n) →
  isFile (files w) p → isFile (files w') p.
Proof.
  intros Hrun Hout Hp. revert Hrun.
  unfold runPipeline, buildAndUpload, andThen.
  destruct (prologue o) as [e|E]; [by intros [= <- <-]|].
  unfold tasks. cbn [app]. rewrite run_tasks_cons by reflexivity.
  destruct (task (createReleaseDir o E) emptyCtx w) as [[e|ctx1] w1] eqn:H1.
  - intros [= <- <-]. by eapply createReleaseDir_keeps_outside.
  - intros Hrest.
    assert (isFile (files w1) p) as Hp1
      by by eapply createReleaseDir_keeps_outside.
    revert Hp1. generalize p. change (growing w1 w').
    revert Hrest. generalize ctx1 w1 r w'. change
      (∀ ctx, respects growing
         (runTasks ([copyFilesAndValidate o E]
                    ++ buildTasks o E
                    ++ [uploadTask o E] ++ [saveUploadResults o E]) ctx)).
    apply (respects_runTasks_app _ _ growing).
    + apply (respects_task_list growing), copyFilesAndValidate_growing.
    + apply (respects_runTasks_app _ _ growing).
      * intros ctx. apply buildTasks_growing.
      * apply (respects_runTasks_app _ _ growing).
        -- apply (respects_task_list growing), uploadTask_growing.
        -- apply (respects_task_list growing). intros ctx.
           apply saveUploadResults_growing.
Qed.

Lemma run_removes_files_only_in_build_directory_witness :
  let m := exampleManifest None in
  let C := exampleCollaborators m None None (inr tt) in
  let o := exampleOptions "pkg/build_1.0.0" false None in
  let w := exampleWorld
    [("pkg/README.md", File "about foo");
     ("pkg/build_1.0.0/notes.txt", File "stale")] in
  ∃ r w',
    runPipeline o w = (r, w')
    ∧ isFile (files w) "pkg/build_1.0.0/notes.txt"
    ∧ ¬ isFile (files w') "pkg/build_1.0.0/notes.txt"
    ∧ isFile (files w') "pkg/README.md".
Proof.
  intros m C o w.
  destruct (runPipeline o w) as [r w'] eqn:Hrun. exists r, w'.
  split_and!; [reflexivity|by eexists| |].
  - vm_compute in Hrun. injection Hrun as <- <-.
    intros [data Hd]. vm_compute in Hd. discriminate Hd.
  - apply (@run_removes_files_only_in_build_directory C o w r w'
             "pkg/README.md" Hrun).
    + intros n Hn. rewrite join_entry by done. vm_compute.
      intros H. discriminate H.
    + by eexists.
Defined.

(** ** Searching strings *)

Lemma prefix_app p t : Substr.prefix p (p +:+ t) = true.
Proof.
  induction p as [|a p IH]; [done|]. rewrite append_cons. simpl.
  by rewrite Ascii.eqb_refl, IH.
Qed.

Lemma prefix_app_long p y z :
  String.length p ≤ String.length y →
  Substr.prefix p (y +:+ z) = Substr.prefix p y.
Proof.
  revert y. induction p as [|a p IH]; intros y Hlen; [by destruct y|].
  destruct y as [|b y]; [simpl in Hlen; lia|].
  rewrite append_cons. simpl. rewrite IH; [done|]. simpl in Hlen. lia.
Qed.

Lemma includes_cons sub c s :
  Substr.includes sub (String c s)
  = Substr.prefix sub (String c s) || Substr.includes sub s.
Proof. reflexivity. Qed.

Lemma includes_app_r sub pre s :
  Substr.includes sub s = true → Substr.includes sub (pre +:+ s) = true.
Proof.
  intros Hs. induction pre as [|c pre IH]; [done|].
  rewrite append_cons, includes_cons, IH. apply orb_true_r.
Qed.

Lemma includes_prefix sub s :
  Substr.prefix sub s = true → Substr.includes sub s = true.
Proof. intros Hp. destruct s; simpl in *; by rewrite Hp. Qed.

Lemma splitGo_skip sep u s :
  Substr.splitGo sep (String.length u) (u +:+ s) = Substr.splitGo sep 0 s.
Proof. induction u as [|c u IH]; [by destruct s|]. by rewrite append_cons. Qed.

Lemma splitGo_none sep s :
  Substr.includes sep s = false → Substr.splitGo sep 0 s = [s].
Proof.
  induction s as [|c s IH]; [done|].
  rewrite includes_cons. intros [Hp Hs]%orb_false_iff.
  cbn [Substr.splitGo]. rewrite Hp, IH by done. reflexivity.
Qed.

(** The first separator found is the first one there is. *)
Lemma splitGo_first init c pre t :
  let sep := init +:+ String c EmptyString in
  Substr.includes sep (pre +:+ init) = false →
  Substr.splitGo sep 0 (pre +:+ sep +:+ t) = pre :: Substr.splitGo sep 0 t.
Proof.
  intros sep. induction pre as [|c0 pre IH]; intros Hpre.
  - rewrite append_nil_l.
    assert (∃ a sep', sep = String a sep') as (a & sep' & Hsep).
    { unfold sep. destruct init; simpl; eauto. }
    pose proof (prefix_app sep t) as Hp. rewrite Hsep in Hp |- *.
    rewrite append_cons in Hp |- *. cbn [Substr.splitGo]. rewrite Hp.
    cbn [String.length]. rewrite Nat.sub_1_r. cbn [Nat.pred].
    by rewrite splitGo_skip.
  - rewrite append_cons in Hpre. rewrite includes_cons in Hpre.
    apply orb_false_iff in Hpre as [Hp Hrest].
    rewrite append_cons. cbn [Substr.splitGo].
    replace (Substr.prefix sep (String c0 (pre +:+ sep +:+ t))) with false.
    + by rewrite IH.
    + assert (String c0 (pre +:+ sep +:+ t)
              = String c0 (pre +:+ init) +:+ String c EmptyString +:+ t) as ->.
      { unfold sep. rewrite append_cons, !append_assoc. reflexivity. }
      rewrite prefix_app_long; [done|].
      unfold sep. cbn [String.length]. rewrite !length_append. simpl. lia.
Qed.

(** ** The publish command *)

Lemma typeOfTag_after_slash pre t :
  Substr.includes "release/" (pre +:+ "release") = false →
  Substr.includes "release/" t = false →
  Publish.typeOfTag (pre +:+ "release/" +:+ t)
  = if Str.is_empty t then "patch" else t.
Proof.
  intros Hpre Ht. unfold Publish.typeOfTag, Substr.split.
  change (Str.is_empty "release/") with false. cbv iota.
  pose proof (splitGo_first "release" "/" pre t Hpre) as Hsplit.
  cbv zeta in Hsplit. change ("release" +:+ "/") with "release/" in Hsplit.
  by rewrite Hsplit, (splitGo_none _ _ Ht).
Qed.

Lemma typeOfTag_no_slash tag :
  Substr.includes "release/" tag = false → Publish.typeOfTag tag = "patch".
Proof.
  intros Ht. unfold Publish.typeOfTag, Substr.split.
  change (Str.is_empty "release/") with false. cbv iota.
  by rewrite (splitGo_none _ _ Ht).
Qed.

Lemma typeOfTag_not_empty tag : Str.is_empty (Publish.typeOfTag tag) = false.
Proof.
  unfold Publish.typeOfTag, orString.
  destruct (_ !! 1%nat) as [x|]; [|done]. by destruct (Str.is_empty x) eqn:E.
Qed.

(** The validation at the end of the option handling. *)
Lemma settle_with_type rt a env t :
  (if negb (truthyString (Publish.type a))
      && truthyString (Publish.RELEASE_TYPE env)
   then Publish.RELEASE_TYPE env else Publish.type a) = Some t →
  Str.is_empty t = false →
  (t ∈ rt → ∃ s, Publish.settle rt a env = inr s ∧ Publish.releaseType s = t)
  ∧ (t ∉ rt →
     Publish.settle rt a env
     = inl (YargsError (Publish.invalidTypeMessage rt t))).
Proof.
  intros Hty Ht. unfold Publish.settle. cbv zeta. rewrite Hty.
  cbn [truthyString]. rewrite Ht. cbn [negb andb].
  assert (∀ x : option string,
            match x with Some _ => Some t | None => Some t end = Some t)
    as Hx by by intros [?|].
  rewrite Hx, Ht.
  split; intros Hin.
  - rewrite bool_decide_eq_true_2 by done. by eexists.
  - by rewrite bool_decide_eq_false_2.
Qed.

Lemma settle_from_tag rt a env tag :
  truthyString (Publish.type a) = false →
  truthyString (Publish.RELEASE_TYPE env) = false →
  orElse (Publish.TRAVIS_TAG env) (Publish.GITHUB_REF env) = Some tag →
  Substr.includes "release" tag = true →
  let t := Publish.typeOfTag tag in
  (t ∈ rt → ∃ s, Publish.settle rt a env = inr s ∧ Publish.releaseType s = t)
  ∧ (t ∉ rt →
     Publish.settle rt a env
     = inl (YargsError (Publish.invalidTypeMessage rt t))).
Proof.
  intros Hty Henv Htag Hinc t. unfold Publish.settle. cbv zeta.
  rewrite Hty, Henv, Htag, Hinc. cbn [negb andb]. rewrite Hty.
  cbn [negb andb].
  assert (truthyString (Some tag) = true) as ->.
  { destruct tag; [done|done]. }
  cbn [andb]. fold t.
  rewrite (typeOfTag_not_empty tag : Str.is_empty t = false).
  split; intros Hin.
  - rewrite bool_decide_eq_true_2 by done. by eexists.
  - by rewrite bool_decide_eq_false_2.
Qed.

(** X16. The option handling of [publish] returns only release types of the
    list, never an empty one, and throws nothing but a [YargsError]: the one
    about the missing type, or the one about a type that is not of the
    list.  A type taken from RELEASE_TYPE or from the tag is checked like one
    given on the command line. *)
Theorem settle_outcome rt a env :
  match Publish.settle rt a env with
  | inr s => Publish.releaseType s ∈ rt ∧ Publish.releaseType s ≠ EmptyString
  | inl e =>
      e = YargsError (Publish.missingTypeMessage rt)
      ∨ ∃ t, (t ∉ rt) ∧ e = YargsError (Publish.invalidTypeMessage rt t)
  end.
Proof.
  unfold Publish.settle. cbv zeta.
  match goal with
  | |- context [match ?x with Some _ => _ | None => inl _ end] =>
      destruct x as [t|]
  end; [|by left].
  destruct (Str.is_empty t) eqn:Ht; [by left|].
  case_bool_decide as Hin.
  - cbn [Publish.releaseType]. split; [done|]. by apply is_empty_false.
  - right. by exists t.
Qed.

(** X17. A non-empty release type given on the command line, or else a
    non-empty RELEASE_TYPE of the environment, is the one that is checked
    and used, whatever TRAVIS_TAG and GITHUB_REF hold: the handling succeeds
    with it when it is of the list, and throws the error about an invalid
    type when it is not. *)
Theorem given_type_beats_the_tag rt a env t :
  orElse (Publish.type a) (Publish.RELEASE_TYPE env) = Some t →
  Str.is_empty t = false →
  (t ∈ rt → ∃ s, Publish.settle rt a env = inr s ∧ Publish.releaseType s = t)
  ∧ (t ∉ rt →
     Publish.settle rt a env
     = inl (YargsError (Publish.invalidTypeMessage rt t))).
Proof.
  intros Hty Ht. apply settle_with_type; [|done].
  unfold orElse in Hty.
  destruct (truthyString (Publish.type a)) eqn:Ea; [done|].
  cbn [negb andb]. rewrite Hty. cbn [truthyString]. by rewrite Ht.
Qed.

Lemma given_type_beats_the_tag_witness :
  let a := examplePublishArgs None None None in
  let env := examplePublishEnv None (Some "release/major") None
               (Some "minor") in
  ∃ s, Publish.settle exampleReleaseTypes a env = inr s
     ∧ Publish.releaseType s = "minor".
Proof.
  intros a env.
  apply (given_type_beats_the_tag exampleReleaseTypes a env "minor"
           eq_refl eq_refl).
  by apply (bool_decide_unpack _).
Defined.

(** X18. Without a type on the command line and in RELEASE_TYPE, a tag that
    holds [release/] once hands over what follows it as the release type,
    whatever precedes it: [release/minor] and [refs/tags/release/minor] both
    give [minor].  Nothing after the slash gives [patch].  The type found is
    checked against the list like any other. *)
Theorem tag_after_slash_is_the_type rt a env pre t :
  truthyString (Publish.type a) = false →
  truthyString (Publish.RELEASE_TYPE env) = false →
  orElse (Publish.TRAVIS_TAG env) (Publish.GITHUB_REF env)
  = Some (pre +:+ "release/" +:+ t) →
  Substr.includes "release/" (pre +:+ "release") = false →
  Substr.includes "release/" t = false →
  let t' := if Str.is_empty t then "patch" else t in
  (t' ∈ rt →
   ∃ s, Publish.settle rt a env = inr s ∧ Publish.releaseType s = t')
  ∧ (t' ∉ rt →
     Publish.settle rt a env
     = inl (YargsError (Publish.invalidTypeMessage rt t'))).
Proof.
  intros Hty Henv Htag Hpre Ht.
  rewrite <- (typeOfTag_after_slash pre t Hpre Ht).
  apply settle_from_tag; [done..|].
  apply includes_app_r. reflexivity.
Qed.

Lemma tag_after_slash_is_the_type_witness :
  let a := examplePublishArgs None None None in
  let env := examplePublishEnv None None (Some "refs/tags/release/minor")
               None in
  ∃ s, Publish.settle exampleReleaseTypes a env = inr s
     ∧ Publish.releaseType s = "minor".
Proof.
  intros a env.
  apply (tag_after_slash_is_the_type exampleReleaseTypes a env
           "refs/tags/" "minor" eq_refl eq_refl eq_refl eq_refl eq_refl).
  by apply (bool_decide_unpack _).
Defined.

(** X19. Without a type on the command line and in RELEASE_TYPE, a tag that
    holds [release] but no [release/] stands for a patch release, whatever
    else it holds: [release], and also [prerelease-2]. *)
Theorem tag_without_slash_is_patch rt a env tag :
  truthyString (Publish.type a) = false →
  truthyString (Publish.RELEASE_TYPE env) = false →
  orElse (Publish.TRAVIS_TAG env) (Publish.GITHUB_REF env) = Some tag →
  Substr.includes "release" tag = true →
  Substr.includes "release/" tag = false →
  "patch" ∈ rt →
  ∃ s, Publish.settle rt a env = inr s ∧ Publish.releaseType s = "patch".
Proof.
  intros Hty Henv Htag Hinc Hslash Hin.
  rewrite <- (typeOfTag_no_slash tag Hslash) in Hin |- *.
  by apply settle_from_tag.
Qed.

Lemma tag_without_slash_is_patch_witness :
  let a := examplePublishArgs None None None in
  let env := examplePublishEnv None (Some "prerelease-2") None None in
  ∃ s, Publish.settle exampleReleaseTypes a env = inr s
     ∧ Publish.releaseType s = "patch".
Proof.
  intros a env.
  apply (tag_without_slash_is_patch exampleReleaseTypes a env "prerelease-2"
           eq_refl eq_refl eq_refl eq_refl eq_refl).
  by apply (bool_decide_unpack _).
Defined.

(** X20. With no type on the command line and none in RELEASE_TYPE, and no
    tag that holds [release], the handling throws the error about the
    missing type: the empty string counts as no type, and a GITHUB_REF of a
    branch such as [refs/heads/master] gives none. *)
Theorem missing_type_is_rejected rt a env :
  truthyString (Publish.type a) = false →
  truthyString (Publish.RELEASE_TYPE env) = false →
  (∀ tag, orElse (Publish.TRAVIS_TAG env) (Publish.GITHUB_REF env) = Some tag →
          Substr.includes "release" tag = false) →
  Publish.settle rt a env = inl (YargsError (Publish.missingTypeMessage rt)).
Proof.
  intros Hty Henv Htag. unfold Publish.settle. cbv zeta.
  rewrite Hty, Henv. cbn [negb andb]. rewrite Hty. cbn [negb andb].
  destruct (orElse _ _) as [tag|] eqn:Etag.
  - rewrite (Htag tag eq_refl), andb_false_r.
    destruct (Publish.type a) as [x|]; [|done].
    simpl in Hty. apply negb_false_iff in Hty. by rewrite Hty.
  - destruct (Publish.type a) as [x|]; [|done].
    simpl in Hty. apply negb_false_iff in Hty. by rewrite Hty.
Qed.

Lemma missing_type_is_rejected_witness :
  let a := examplePublishArgs (Some EmptyString) None None in
  let env := examplePublishEnv None None (Some "refs/heads/master") None in
  Publish.settle exampleReleaseTypes a env
  = inl (YargsError
           "Missing required argument [type]: major | minor | patch").
Proof.
  intros a env.
  apply (missing_type_is_rejected exampleReleaseTypes a env eq_refl eq_refl).
  intros tag [= <-]. reflexivity.
Defined.

Lemma build_name_entryName v :
  Str.has_char "/" v = false → Path.entryName ("build_" +:+ v).
Proof.
  intros Hv. unfold Path.entryName.
  split_and!; [|done..].
  change Path.sep with "/"%char. by rewrite has_char_app, Hv.
Qed.

(** X21. When the first task of [publish] succeeds, the next version is the
    one computed from APM, or, only when APM failed with a message that holds
    NOREPO, the local one.  With a version that holds no slash, the build
    directory is the entry [build_<version>] of the package directory: it
    is not the package directory itself. *)
Theorem fetched_build_directory apm local d f :
  Publish.fetchVersion apm local d = inr f →
  Str.has_char "/" (Publish.nextVersion f) = false →
  (apm = inr (Publish.nextVersion f)
   ∨ ∃ e, apm = inl e
        ∧ Substr.includes "NOREPO" (messageOf e) = true
        ∧ local = inr (Publish.nextVersion f))
  ∧ Path.basename (Publish.buildDir f) = "build_" +:+ Publish.nextVersion f
  ∧ Publish.buildDir f ≠ fs.dirKey d
  ∧ ∀ fsys : gmap string node,
      is_Some (fsys !! Publish.buildDir f) →
      "build_" +:+ Publish.nextVersion f ∈ fs.entries d fsys.
Proof.
  unfold Publish.fetchVersion, andThen.
  destruct (match apm with inr v => _ | inl e => _ end) as [e|v] eqn:Hv;
    [done|].
  intros [= <-]. cbn [Publish.nextVersion Publish.buildDir]. intros Hs.
  pose proof (build_name_entryName v Hs) as Hn.
  split_and!.
  - destruct apm as [e|v0]; [|left; congruence].
    right. exists e. by destruct (Substr.includes _ _).
  - by apply basename_join_entry.
  - intros Heq. by apply (dirKey_not_entry d _ Hn).
  - intros fsys Hsome. by apply elem_of_entries.
Qed.

Lemma fetched_build_directory_witness :
  ∃ f, Publish.fetchVersion
         (inl (Error "NOREPO: no repository for foo.dnp.dappnode.eth"))
         (inr "0.1.0") "./pkg" = inr f
     ∧ Publish.buildDir f = "pkg/build_0.1.0"
     ∧ Path.basename (Publish.buildDir f) = "build_0.1.0".
Proof.
  eexists. split; [reflexivity|]. split; [reflexivity|].
  eapply (fetched_build_directory
            (inl (Error "NOREPO: no repository for foo.dnp.dappnode.eth"))
            (inr "0.1.0") "./pkg"); reflexivity.
Defined.

(** ** The archives of a run *)






Section Archives.
Context {C : Collaborators}.
Variables (o : Options) (E : Env).













Section SlashFree.
Hypothesis HE : prologue o = inr E.
Hypothesis Hname : Str.has_char "/" (name E) = false.
Hypothesis Hversion : Str.has_char "/" (version E) = false.











End SlashFree.

End Archives.





(** * The claims *)





(** Nor does it hold for a list that names an architecture twice: the two
    builds have one archive between them. *)
Example repeated_architecture_one_archive :
  let m := exampleManifest (Some ["linux/amd64"; "linux/amd64"]) in
  let C := exampleCollaborators m None None (inr tt) in
  let o := exampleOptions "pkg/build_1.0.0" true None in
  ∃ ctx w',
    runPipeline o (exampleWorld []) = (inr ctx, w')
    ∧ archivesIn "pkg/build_1.0.0" (files w') = ["foo_1.0.0_linux-amd64.txz"].
Proof.
  intros m C o.
  destruct (runPipeline o (exampleWorld [])) as [[e|ctx] w'] eqn:Hrun;
    [vm_compute in Hrun; discriminate Hrun|].
  exists ctx, w'. vm_compute in Hrun. injection Hrun as <- <-.
  split; [reflexivity|vm_compute; reflexivity].
Qed.




(** On the IPFS path the same run leaves two archives: the one it built and
    its legacy-named copy. *)
Example default_build_ipfs_two_archives :
  observe ["pkg/build_1.0.0/foo_1.0.0_linux-amd64.txz";
           "pkg/build_1.0.0/foo_1.0.0.tar.xz"]
    (@runPipeline
       (exampleCollaborators (exampleManifest None) None None (inr tt))
       (exampleOptions "pkg/build_1.0.0" false None) (exampleWorld []))
  = (inr {| releaseHash := Some "/ipfs/Qm-hash";
            releaseMultiHash := Some "/ipfs/Qm-hash" |},
     [Some (File
        "composed image for pkg/build_1.0.0/foo_1.0.0_linux-amd64.txz");
      Some (File
        "composed image for pkg/build_1.0.0/foo_1.0.0_linux-amd64.txz")],
     [ {| Record_.dir := "pkg"; Record_.version := "1.0.0";
          Record_.hash := Some "/ipfs/Qm-hash";
          Record_.to := "ipfs-provider" |} ],
     [],
     ["pkg/build_1.0.0/foo_1.0.0_linux-amd64.txz"]).
Proof. vm_compute. reflexivity. Qed.



(** C9. A failure of the cache pruning is caught and logged inside "Save
    upload results" and goes no further: a run in which [pruneCache] throws
    ends as the same run in which it returns, with the same outcome and the
    same world, but for one line on the console when the last task was
    reached. *)
Theorem pruneCache_failure_is_caught (C : Collaborators) e o w :
  @runPipeline (withPruneCache (inl e) C) o w
  = match @runPipeline (withPruneCache (inr tt) C) o w with
    | (inr ctx, w') => (inr ctx, addConsole ("Error on pruneCache", e) w')
    | (inl e', w') => (inl e', w')
    end.
Proof.
  rewrite !runPipeline_split.
  change (@prologue (withPruneCache (inl e) C) o) with (@prologue C o).
  change (@prologue (withPruneCache (inr tt) C) o) with (@prologue C o).
  destruct (@prologue C o) as [e'|E]; [done|].
  change (runTasks
            ([@createReleaseDir (withPruneCache (inl e) C) o E;
              @copyFilesAndValidate (withPruneCache (inl e) C) o E]
             ++ @buildTasks (withPruneCache (inl e) C) o E
             ++ [@uploadTask (withPruneCache (inl e) C) o E]) emptyCtx w)
    with (runTasks
            ([@createReleaseDir C o E; @copyFilesAndValidate C o E]
             ++ @buildTasks C o E ++ [@uploadTask C o E]) emptyCtx w).
  change (runTasks
            ([@createReleaseDir (withPruneCache (inr tt) C) o E;
              @copyFilesAndValidate (withPruneCache (inr tt) C) o E]
             ++ @buildTasks (withPruneCache (inr tt) C) o E
             ++ [@uploadTask (withPruneCache (inr tt) C) o E]) emptyCtx w)
    with (runTasks
            ([@createReleaseDir C o E; @copyFilesAndValidate C o E]
             ++ @buildTasks C o E ++ [@uploadTask C o E]) emptyCtx w).
  destruct (runTasks _ emptyCtx w) as [[e'|ctx] w']; [done|].
  rewrite !saveUploadResults_run.
  change (@releaseRecordStore (withPruneCache (inl e) C))
    with (@releaseRecordStore C).
  change (@releaseRecordStore (withPruneCache (inr tt) C))
    with (@releaseRecordStore C).
  by destruct (releaseRecordStore _) as [e'|[]].
Qed.

Example pruneCache_failure_example :
  observe []
    (@runPipeline
       (exampleCollaborators (exampleManifest None) None None
          (inl (Error "no docker daemon")))
       (exampleOptions "pkg/build_1.0.0" false None) (exampleWorld []))
  = (inr {| releaseHash := Some "/ipfs/Qm-hash";
            releaseMultiHash := Some "/ipfs/Qm-hash" |},
     [],
     [ {| Record_.dir := "pkg"; Record_.version := "1.0.0";
          Record_.hash := Some "/ipfs/Qm-hash";
          Record_.to := "ipfs-provider" |} ],
     [("Error on pruneCache", Error "no docker daemon")],
     ["pkg/build_1.0.0/foo_1.0.0_linux-amd64.txz"]).
Proof. vm_compute. reflexivity. Qed.

(** A run with the upload skipped, when it returns. *)
Lemma skipped_upload_run `{C : Collaborators} o w ctx w' :
  truthyFlag (skipUpload o) = true →
  runPipeline o w = (inr ctx, w') →
  releaseHash ctx = None
  ∧ releaseMultiHash ctx = None
  ∧ ∃ E, prologue o = inr E
      ∧ built w' = built w ++ buildDestinations o E
      ∧ releaseRecords w'
        = releaseRecords w
          ++ [ {| Record_.dir := dir o; Record_.version := version E;
                  Record_.hash := None;
                  Record_.to := if uploadToSwarm o then swarmProvider o
                                else ipfsProvider o |} ].
Proof.
  intros Hskip (E & HE & Hb & _ & Hr & Hmulti & Hnone & _)%runPipeline_summary.
  specialize (Hnone Hskip). split_and!; [done|congruence|].
  exists E. split_and!; [done..|]. rewrite Hr. unfold recordOf.
  by rewrite Hnone.
Qed.

(** C1. With the upload skipped the run goes through the directory and build
    stages and leaves the content address of the context unset, as claimed;
    but "Save upload results" has no [skip] of its own and still hands a
    release record to [addReleaseRecord], with no content address in it. *)
Theorem skip_upload_still_writes_record :
  let m := exampleManifest (Some ["linux/amd64"]) in
  let C := exampleCollaborators m None None (inr tt) in
  let o := exampleOptions "pkg/build_1.0.0" false (Some true) in
  ∃ ctx w',
    runPipeline o (exampleWorld []) = (inr ctx, w')
    ∧ built w' = ["pkg/build_1.0.0/foo_1.0.0_linux-amd64.txz"]
    ∧ releaseHash ctx = None
    ∧ releaseMultiHash ctx = None
    ∧ releaseRecords (exampleWorld []) = []
    ∧ releaseRecords w'
      = [ {| Record_.dir := "pkg"; Record_.version := "1.0.0";
             Record_.hash := None; Record_.to := "ipfs-provider" |} ].
Proof.
  intros m C o.
  destruct (runPipeline o (exampleWorld [])) as [[e|ctx] w'] eqn:Hrun;
    [vm_compute in Hrun; discriminate Hrun|].
  exists ctx, w'.
  destruct (skipped_upload_run o _ ctx w' eq_refl Hrun)
    as (Hh & Hm & E & HE & Hb & Hr).
  vm_compute in HE. injection HE as <-.
  split_and!; done.
Qed.

(** C5, as the code has it. A manifest whose image or avatar property is
    truthy (an object, a non-empty string, and so on) makes [buildAndUpload]
    throw a [CliError] before it returns any task: no task runs and the world
    is left as it was. *)
Theorem forbidden_manifest_fields `{C : Collaborators} o t m w :
  parseTimeout (userTimeout o) = inr t →
  readManifest (dir o) = inr m →
  truthyProp (Manifest.image m) = true
  ∨ truthyProp (Manifest.avatar m) = true →
  ∃ message,
    buildAndUpload o = inl (CliError message)
    ∧ runPipeline o w = (inl (CliError message), w).
Proof.
  intros Ht Hm Hset. unfold runPipeline, buildAndUpload, prologue, andThen.
  rewrite Ht, Hm.
  destruct (truthyProp (Manifest.image m)) eqn:Hi; [by eexists|].
  destruct Hset as [?|Hv]; [done|]. rewrite Hv. by eexists.
Qed.

Lemma forbidden_manifest_fields_witness :
  let m := {| Manifest.name := "foo"; Manifest.version := "1.0.0";
              Manifest.image := Some JObject;
              Manifest.avatar := Some (JString "/ipfs/QmAvatar");
              Manifest.architectures := None;
              Manifest.upstreamVersion := None |} in
  let C := exampleCollaborators m None None (inr tt) in
  let o := exampleOptions "pkg/build_1.0.0" false None in
  ∃ message,
    buildAndUpload o = inl (CliError message)
    ∧ runPipeline o (exampleWorld []) = (inl (CliError message), exampleWorld []).
Proof.
  intros m C o.
  apply (@forbidden_manifest_fields C o 3600000%Z m (exampleWorld [])
           eq_refl eq_refl).
  left. reflexivity.
Defined.

(** C5, as stated, fails: an avatar property set to the empty string is set,
    yet it is falsy, the check lets it through, and the run goes on to write
    into the build directory. *)
Lemma empty_avatar_is_accepted :
  let m := {| Manifest.name := "foo"; Manifest.version := "1.0.0";
              Manifest.image := None;
              Manifest.avatar := Some (JString EmptyString);
              Manifest.architectures := None;
              Manifest.upstreamVersion := None |} in
  let C := exampleCollaborators m None None (inr tt) in
  let o := exampleOptions "pkg/build_1.0.0" false None in
  is_Some (Manifest.avatar m)
  ∧ (∃ ts, buildAndUpload o = inr ts)
  ∧ ∃ ctx w',
      runPipeline o (exampleWorld []) = (inr ctx, w')
      ∧ isFile (files w') "pkg/build_1.0.0/avatar.png".
Proof.
  intros m C o. split; [by eexists|]. split.
  - unfold buildAndUpload.
    destruct (prologue o) as [e|E] eqn:HE; [vm_compute in HE; discriminate HE|].
    clear HE. eexists. reflexivity.
  - destruct (runPipeline o (exampleWorld [])) as [[e|ctx] w'] eqn:Hrun;
      [vm_compute in Hrun; discriminate Hrun|].
    exists ctx, w'. split; [done|].
    vm_compute in Hrun. injection Hrun as <- <-.
    eexists. vm_compute. reflexivity.
Qed.

Lemma testUpperAZ_true s c :
  c ∈ Str.chars s → isUpperAZ c = true → testUpperAZ s = true.
Proof.
  induction s as [|a s IH]; simpl; [by intros ?%elem_of_nil|].
  intros [->|Hin]%elem_of_cons Hc; [by rewrite Hc|].
  destruct (isUpperAZ a); [done|by apply IH].
Qed.

(** C6, as the code has it. A manifest whose name holds one of the letters
    A to Z makes [buildAndUpload] throw a [CliError]: the run fails with a
    configuration error and no task runs. *)
Theorem uppercase_name_is_rejected `{C : Collaborators} o t m w c :
  parseTimeout (userTimeout o) = inr t →
  readManifest (dir o) = inr m →
  c ∈ Str.chars (Manifest.name m) →
  (65 ≤ nat_of_ascii c ≤ 90)%nat →
  ∃ message,
    buildAndUpload o = inl (CliError message)
    ∧ runPipeline o w = (inl (CliError message), w).
Proof.
  intros Ht Hm Hc Hrange.
  assert (testUpperAZ (Manifest.name m) = true) as Hup.
  { apply (testUpperAZ_true _ c Hc). unfold isUpperAZ.
    apply andb_true_iff. split; apply Nat.leb_le; lia. }
  unfold runPipeline, buildAndUpload, prologue, andThen.
  rewrite Ht, Hm, Hup.
  destruct (truthyProp (Manifest.image m)); [by eexists|].
  destruct (truthyProp (Manifest.avatar m)); by eexists.
Qed.

Lemma uppercase_name_is_rejected_witness :
  let m := {| Manifest.name := "fooBar.dnp.dappnode.eth";
              Manifest.version := "1.0.0";
              Manifest.image := None; Manifest.avatar := None;
              Manifest.architectures := None;
              Manifest.upstreamVersion := None |} in
  let C := exampleCollaborators m None None (inr tt) in
  let o := exampleOptions "pkg/build_1.0.0" false None in
  ∃ message,
    buildAndUpload o = inl (CliError message)
    ∧ runPipeline o (exampleWorld []) = (inl (CliError message), exampleWorld []).
Proof.
  intros m C o.
  apply (@uppercase_name_is_rejected C o 3600000%Z m (exampleWorld [])
           "B"%char eq_refl eq_refl).
  - vm_compute. do 3 right. left.
  - vm_compute. lia.
Defined.

(** C6, as stated, fails: an accented capital is an uppercase letter, and a
    name that begins with one passes the check of the source, which tests
    the letters A to Z only; [buildAndUpload] returns its tasks, and the run
    goes through. *)
Lemma accented_uppercase_name_is_accepted :
  let m := {| Manifest.name :=
                String (ascii_of_nat 201) "cole.dnp.dappnode.eth";
              Manifest.version := "1.0.0";
              Manifest.image := None; Manifest.avatar := None;
              Manifest.architectures := None;
              Manifest.upstreamVersion := None |} in
  let C := exampleCollaborators m None None (inr tt) in
  let o := exampleOptions "pkg/build_1.0.0" false None in
  (∃ c, c ∈ Str.chars (Manifest.name m) ∧ uppercaseLetter c = true)
  ∧ testUpperAZ (Manifest.name m) = false
  ∧ (∃ ts, buildAndUpload o = inr ts)
  ∧ ∃ ctx w', runPipeline o (exampleWorld []) = (inr ctx, w').
Proof.
  intros m C o. split_and!.
  - exists (ascii_of_nat 201). split; [|reflexivity].
    apply elem_of_cons. left. reflexivity.
  - reflexivity.
  - unfold buildAndUpload.
    destruct (prologue o) as [e|E] eqn:HE; [vm_compute in HE; discriminate HE|].
    clear HE. eexists. reflexivity.
  - destruct (runPipeline o (exampleWorld [])) as [[e|ctx] w'] eqn:Hrun;
      [vm_compute in Hrun; discriminate Hrun|].
    by exists ctx, w'.
Qed.

(** C8, as the code has it. A non-empty upstream version declared by the
    composition is injected into the in-memory manifest as
    [upstreamVersion]; failing that, a non-empty [UPSTREAM_VERSION] of the
    environment is; the composition's value wins when both are there.  An
    empty string counts as no value, and with no value the manifest is left
    as it was read. *)
Theorem upstream_version_injection `{C : Collaborators} o m c E :
  readManifest (dir o) = inr m →
  readCompose (dir o) = inr c →
  prologue o = inr E →
  let declared := parseComposeUpstreamVersion c in
  let provided := env_UPSTREAM_VERSION in
  (truthyString declared = true →
   manifest E = Manifest.setUpstreamVersion (default EmptyString declared) m
   ∧ Manifest.upstreamVersion (manifest E) = declared)
  ∧ (truthyString declared = false → truthyString provided = true →
     manifest E = Manifest.setUpstreamVersion (default EmptyString provided) m
     ∧ Manifest.upstreamVersion (manifest E) = provided)
  ∧ (truthyString declared = false → truthyString provided = false →
     manifest E = m).
Proof.
  intros Hm Hc HE declared provided.
  destruct (prologue_inr o E HE)
    as (t & m' & c' & _ & Hm' & _ & _ & _ & Hc' & _ & _ & _ & _ & _ & Hman).
  rewrite Hm in Hm'. injection Hm' as <-.
  rewrite Hc in Hc'. injection Hc' as <-.
  fold declared provided in Hman. rewrite Hman.
  split_and!.
  - intros Hd. rewrite Hd. split; [done|]. by destruct declared.
  - intros Hd Hp. rewrite Hd, Hp. split; [done|]. by destruct provided.
  - intros Hd Hp. by rewrite Hd, Hp.
Qed.

Lemma upstream_version_injection_witness :
  let m := exampleManifest None in
  let C := exampleCollaborators m (Some "2.1.0") (Some "9.9.9") (inr tt) in
  let o := exampleOptions "pkg/build_1.0.0" false None in
  ∃ E, prologue o = inr E
    ∧ Manifest.upstreamVersion (manifest E) = Some "2.1.0".
Proof.
  intros m C o.
  destruct (prologue o) as [e|E] eqn:HE; [vm_compute in HE; discriminate HE|].
  exists E. split; [done|].
  destruct (@upstream_version_injection C o m "services" E
              eq_refl eq_refl HE) as (Hdecl & _ & _).
  exact (proj2 (Hdecl eq_refl)).
Defined.

(** C8, as stated, fails: an [UPSTREAM_VERSION] that exists in the
    environment but is empty is not injected. *)
Lemma empty_upstream_version_is_not_injected :
  let m := exampleManifest None in
  let C := exampleCollaborators m None (Some EmptyString) (inr tt) in
  let o := exampleOptions "pkg/build_1.0.0" false None in
  is_Some (@env_UPSTREAM_VERSION C)
  ∧ ∃ E, prologue o = inr E
      ∧ Manifest.upstreamVersion (manifest E) = None
      ∧ Manifest.upstreamVersion (manifest E) ≠ @env_UPSTREAM_VERSION C.
Proof.
  intros m C o. split; [by eexists|].
  eexists. split; [vm_compute; reflexivity|]. split; [reflexivity|].
  vm_compute. intros H. discriminate H.
Qed.

(** C2. The code misses the claim when no architectures are declared: the
    archive of the default architecture, built by an earlier run and named
    as this run will name it, is unlinked by "Create release dir". *)
Theorem clean_unlinks_default_archive :
  let m := exampleManifest None in
  let C := exampleCollaborators m None None (inr tt) in
  let o := exampleOptions "pkg/build_1.0.0" false None in
  let archive := "pkg/build_1.0.0/foo_1.0.0_linux-amd64.txz" in
  let w := exampleWorld [(archive, File "amd64 image")] in
  ∃ E w',
    prologue o = inr E
    ∧ architectures E = None
    ∧ Path.join (buildDir o) (getImagePath (name E) (version E) "linux/amd64")
      = archive
    ∧ files w !! archive = Some (File "amd64 image")
    ∧ task (createReleaseDir o E) emptyCtx w = (inr emptyCtx, w')
    ∧ files w' !! archive = None.
Proof.
  intros m C o archive w.
  eexists. eexists. split; [vm_compute; reflexivity|].
  split_and!; [reflexivity|reflexivity|reflexivity| |].
  - vm_compute. reflexivity.
  - vm_compute. reflexivity.
Qed.

(** With the architecture declared the same archive is kept and the stale
    file beside it is unlinked. *)
Example clean_keeps_declared_archive :
  let m := exampleManifest (Some ["linux/amd64"]) in
  let C := exampleCollaborators m None None (inr tt) in
  let o := exampleOptions "pkg/build_1.0.0" false (Some true) in
  let archive := "pkg/build_1.0.0/foo_1.0.0_linux-amd64.txz" in
  let stale := "pkg/build_1.0.0/notes.txt" in
  let w := exampleWorld [(archive, File "amd64 image"); (stale, File "x")] in
  ∃ E w',
    prologue o = inr E
    ∧ task (createReleaseDir o E) emptyCtx w = (inr emptyCtx, w')
    ∧ files w' !! archive = Some (File "amd64 image")
    ∧ files w' !! stale = None.
Proof.
  intros m C o archive stale w.
  eexists. eexists. split; [vm_compute; reflexivity|].
  split_and!; vm_compute; reflexivity.
Qed.
